(** * eirenewatch: the task-lifecycle engine and the manager pool

    A shallow embedding of [runTask], [TaskManager], [ManagerPool] and
    [defineConfigWatcher], with the properties of the retry loop, of the
    per-slot manager and of the pool reconciliation stated over it.

    Conventions of the embedding:
    - JavaScript numbers that count attempts or milliseconds are integers
      ([Z]); [retry.retries], which the code compares with a counter but
      never checks, is any rational ([Q]), NaN and the infinities being
      left out;
    - user callbacks ([launch], [teardown]) are represented by their
      outcomes, supplied by an environment;
    - asynchronous code is cut at its [await]s: the code between two
      suspension points is one function on an explicit state, and the
      effects it has on the outside world are returned as a list of
      observations, oldest first. *)

From Stdlib Require Import ZArith QArith Lia.
From stdpp Require Import base option list gmap strings.

(** ** Task templates (mod/types.ts) *)

Module Types.

(** [Retry]: optional fields are [option]s, read with [??]. [retries] is
    a [number] that nothing forces to be an integer. *)
Record Retry := {
  factor : option Z;
  maxTimeout : option Z;
  minTimeout : option Z;
  retries : Q
}.

(** How a user-supplied [teardown] handler ends. *)
Inductive TeardownOutcome := TeardownResolves | TeardownRejects.

(** [TaskTemplate]; [name], [id], [cwd] and [throttleOutput] only reach the
    logger and [createSpawn] and are left out; [launch] is represented by
    the environment of the retry loop; [teardown] is [None] when the
    template has no handler. *)
Record TaskTemplate := {
  initialRun : bool;
  interruptible : bool;
  persistent : bool;
  retry : Retry;
  teardown : option TeardownOutcome
}.

End Types.

(** The JavaScript [a ?? b]. *)
Definition nullish {A} (a : option A) (b : A) : A :=
  match a with Some x => x | None => b end.

(** The comparisons [x < y] and [x === y] of two numbers. *)
Module Number.

Definition lessThan (x y : Q) : bool := negb (Qle_bool y x).

Definition strictEquals (x y : Q) : bool := Qeq_bool x y.

End Number.

(** ** The retry loop: [runTask] *)

Module RunTask.

Local Open Scope Z_scope.

(** How one [await template.launch(...)] ends: it resolves, it rejects
    with an error named [AbortError], it rejects with another value that
    has properties, or it rejects with [null] or [undefined], of which
    [error.name] cannot be read. *)
Inductive LaunchOutcome :=
| LaunchResolves
| LaunchAbortError
| LaunchRejects (error : nat)
| LaunchRejectsNullish.

(** The environment of one run. The loop suspends at two places, the
    backoff [setTimeout] and the [launch] call; while it is suspended the
    abort controller may be aborted by somebody else. *)
Record Environment := {
  launchOutcome : nat -> LaunchOutcome;   (* of the n-th launch, from 0 *)
  abortDuringLaunch : nat -> bool;        (* abort() while the n-th launch is pending *)
  abortDuringDelay : nat -> bool          (* abort() while the n-th backoff wait is pending *)
}.

(** What the loop does to the outside world. *)
Inductive Event :=
| EvDelay (delay : Z)                              (* await setTimeout(delay) *)
| EvLaunch (attempt : Z) (first : bool) (signalAborted : bool).
                                                   (* template.launch({attempt, first, abortSignal}) *)

(** How the promise returned by [runTask] settles. [Pending]: the model ran
    out of fuel, the promise is not settled yet. *)
Inductive Completion :=
| Resolved
| RejectedWith (error : nat)        (* throw error *)
| RejectedExpectation               (* 'Expected retries left to be greater than or equal to 0' *)
| RejectedTypeError                 (* the TypeError of [error.name] on null or undefined *)
| Pending.

(** The variables of the loop, and the counters that index the environment. *)
Record LoopState := {
  failedAttempts : Z;
  aborted : bool;          (* abortController.signal.aborted *)
  launched : nat;
  delayed : nat
}.

Section Loop.

Variable template : Types.TaskTemplate.
Variable firstEvent : bool.
Variable env : Environment.

(** The delay computed when [failedAttempts > 0]. *)
Definition backoffDelay (failedAttempts : Z) : Z :=
  let retryFactor := nullish (Types.factor (Types.retry template)) 2 in
  let minTimeout' := nullish (Types.minTimeout (Types.retry template)) 1000 in
  let maxTimeout' := nullish (Types.maxTimeout (Types.retry template)) 30000 in
  Z.min (failedAttempts * retryFactor * minTimeout')
        (nullish (Types.maxTimeout (Types.retry template)) maxTimeout').

(** What one pass through the body of [while (true)] decides. *)
Inductive Next :=
| Continue (st : LoopState)
| Settle (c : Completion).

(** The body of the loop from [failedAttempts++] on, the signal being known
    not to be aborted at the top. *)
Definition iteration (st : LoopState) : list Event * Next :=
  let failedAttempts' := failedAttempts st + 1 in
  let '(waited, aborted1, delayed') :=
    if 0 <? failedAttempts'
    then ([EvDelay (backoffDelay failedAttempts')],
          aborted st || abortDuringDelay env (delayed st),
          S (delayed st))
    else ([], aborted st, delayed st) in
  let events := waited ++ [EvLaunch failedAttempts' firstEvent aborted1] in
  let aborted2 := aborted1 || abortDuringLaunch env (launched st) in
  let continue (fa : Z) :=
    Continue {| failedAttempts := fa; aborted := aborted2;
                launched := S (launched st); delayed := delayed' |} in
  match launchOutcome env (launched st) with
  | LaunchResolves =>
      (* failedAttempts = 0 *)
      if Types.persistent template then (events, continue 0)
      else (events, Settle Resolved)
  | LaunchAbortError => (events, Settle Resolved)
  | LaunchRejects error =>
      if Types.persistent template then (events, continue failedAttempts')
      else
        let retriesLeft :=
          (Types.retries (Types.retry template) - inject_Z failedAttempts')%Q in
        if Number.lessThan retriesLeft 0 then (events, Settle RejectedExpectation)
        else if Number.strictEquals retriesLeft 0 then (events, Settle (RejectedWith error))
        else if Number.lessThan 0 retriesLeft then (events, continue failedAttempts')
        else (events, Settle RejectedExpectation)
  | LaunchRejectsNullish =>
      (* [error.name] throws inside the [catch] block *)
      (events, Settle RejectedTypeError)
  end.

(** [while (true) { ... }], at most [fuel] passes. *)
Fixpoint loop (fuel : nat) (st : LoopState) : list Event * Completion :=
  match fuel with
  | O => ([], Pending)
  | S fuel' =>
      if aborted st then ([], Resolved)
      else
        match iteration st with
        | (events, Settle c) => (events, c)
        | (events, Continue st') =>
            let '(rest, c) := loop fuel' st' in (events ++ rest, c)
        end
  end.

(** The code of one pass up to its first [await]: [None] when the pass
    returns at the abort check, otherwise the promise it suspends on. *)
Definition firstAwait (st : LoopState) : option Event :=
  if aborted st then None
  else
    let failedAttempts' := failedAttempts st + 1 in
    if 0 <? failedAttempts' then Some (EvDelay (backoffDelay failedAttempts'))
    else Some (EvLaunch failedAttempts' firstEvent (aborted st)).

(** [let failedAttempts = -1] and the state of the controller passed in. *)
Definition enter (signalAborted : bool) : LoopState :=
  {| failedAttempts := -1; aborted := signalAborted; launched := 0%nat; delayed := 0%nat |}.

Definition runTask (signalAborted : bool) (fuel : nat) : list Event * Completion :=
  loop fuel (enter signalAborted).

End Loop.

(** Number of [launch] invocations in a trace. *)
Definition isLaunch (e : Event) : bool :=
  match e with EvLaunch _ _ _ => true | EvDelay _ => false end.

Definition launches (events : list Event) : nat :=
  length (filter (fun e => isLaunch e = true) events).

Definition delays (events : list Event) : list Z :=
  omap (fun e => match e with EvDelay d => Some d | _ => None end) events.

End RunTask.

(** ** The per-slot manager: [TaskManager] *)

Module Manager.

(** [ActiveTask]. The abort controller and the promise of a task are shared
    with its retry loop, so they live in the store [tasks] of the manager
    under the task id; the record keeps the id and its own [queued] flag. *)
Record ActiveTask := {
  id : nat;
  queued : bool
}.

(** The controller and the promise of one started task. *)
Record TaskCell := {
  signalAborted : bool;      (* abortController.signal.aborted *)
  settled : bool             (* the promise of the task has settled *)
}.

(** An [updateConfig] call suspended at [await outerActiveTask.promise]. *)
Record Updater := {
  awaited : nat;             (* the id of the task whose promise it awaits *)
  payload : nat;             (* its (config, data) *)
  first : bool               (* its local firstEvent *)
}.

(** The variables closed over by [updateConfig] and [teardown], and the
    runtime around them. [generateShortId()] is the next free index of the
    store. *)
Record State := {
  entryId : nat;
  outerTeardownInitiated : bool;
  outerActiveTask : option ActiveTask;
  outerFirstEvent : bool;
  tasks : list TaskCell;
  updaters : list Updater;
  parentAborted : bool       (* template.abortSignal.aborted *)
}.

(** What a manager does to the outside world. *)
Inductive Obs :=
| ObsAbort (taskId : nat)                   (* abortController.abort() *)
| ObsQueued (taskId : nat)                  (* outerActiveTask.queued = true *)
| ObsAwait (taskId : nat)                   (* await of the promise of a task *)
| ObsTask (entry taskId data : nat) (e : RunTask.Event)
                                            (* what runTask does before its first await *)
| ObsTeardownHook.                          (* template.teardown({spawn}) *)

(** How a call of [updateConfig] leaves the synchronous part of its body. *)
Inductive Outcome :=
| ReturnsUndefined
| AwaitsTask (taskId : nat)                 (* suspended at [await outerActiveTask.promise] *)
| ReturnsPromise (taskId : nat).            (* [return taskPromise] *)

Definition withFirstEvent (b : bool) (st : State) : State :=
  {| entryId := entryId st; outerTeardownInitiated := outerTeardownInitiated st;
     outerActiveTask := outerActiveTask st; outerFirstEvent := b;
     tasks := tasks st; updaters := updaters st; parentAborted := parentAborted st |}.

Definition withTeardownInitiated (b : bool) (st : State) : State :=
  {| entryId := entryId st; outerTeardownInitiated := b;
     outerActiveTask := outerActiveTask st; outerFirstEvent := outerFirstEvent st;
     tasks := tasks st; updaters := updaters st; parentAborted := parentAborted st |}.

Definition withActiveTask (a : option ActiveTask) (st : State) : State :=
  {| entryId := entryId st; outerTeardownInitiated := outerTeardownInitiated st;
     outerActiveTask := a; outerFirstEvent := outerFirstEvent st;
     tasks := tasks st; updaters := updaters st; parentAborted := parentAborted st |}.

Definition withTasks (ts : list TaskCell) (st : State) : State :=
  {| entryId := entryId st; outerTeardownInitiated := outerTeardownInitiated st;
     outerActiveTask := outerActiveTask st; outerFirstEvent := outerFirstEvent st;
     tasks := ts; updaters := updaters st; parentAborted := parentAborted st |}.

Definition withUpdaters (us : list Updater) (st : State) : State :=
  {| entryId := entryId st; outerTeardownInitiated := outerTeardownInitiated st;
     outerActiveTask := outerActiveTask st; outerFirstEvent := outerFirstEvent st;
     tasks := tasks st; updaters := us; parentAborted := parentAborted st |}.

Definition withParentAborted (b : bool) (st : State) : State :=
  {| entryId := entryId st; outerTeardownInitiated := outerTeardownInitiated st;
     outerActiveTask := outerActiveTask st; outerFirstEvent := outerFirstEvent st;
     tasks := tasks st; updaters := updaters st; parentAborted := b |}.

(** [abortController.abort()] on the controller of task [taskId]. *)
Definition abortCell (c : TaskCell) : TaskCell :=
  {| signalAborted := true; settled := settled c |}.

Definition abort (taskId : nat) (st : State) : State :=
  withTasks (alter abortCell taskId (tasks st)) st.

Definition settleCell (c : TaskCell) : TaskCell :=
  {| signalAborted := signalAborted c; settled := true |}.

Definition isSettled (taskId : nat) (st : State) : bool :=
  match tasks st !! taskId with
  | Some c => settled c
  | None => false
  end.

Definition isAborted (taskId : nat) (st : State) : bool :=
  match tasks st !! taskId with
  | Some c => signalAborted c
  | None => false
  end.

Section WithTemplate.

Variable template : Types.TaskTemplate.

(** The closure variables when [TaskManager(template, entryId)] returns. *)
Definition initial (entry : nat) : State :=
  {| entryId := entry; outerTeardownInitiated := false; outerActiveTask := None;
     outerFirstEvent := true; tasks := []; updaters := []; parentAborted := false |}.

(** [updateConfig] from [if (outerTeardownInitiated)] to [return taskPromise]:
    a fresh id, a fresh controller chained to the parent signal (a listener:
    a parent that is aborted already does not abort it), the start of
    [runTask] up to its first await, and the new [outerActiveTask]. *)
Definition startTask (data : nat) (firstEvent : bool) (st : State)
  : State * list Obs * Outcome :=
  if outerTeardownInitiated st then (st, [], ReturnsUndefined)
  else
    let taskId := length (tasks st) in
    let started :=
      match RunTask.firstAwait template firstEvent (RunTask.enter false) with
      | Some e => [ObsTask (entryId st) taskId data e]
      | None => []
      end in
    let st1 := withTasks (tasks st ++ [{| signalAborted := false; settled := false |}]) st in
    let st2 := withActiveTask (Some {| id := taskId; queued := false |}) st1 in
    (st2, started, ReturnsPromise taskId).

(** [outerActiveTask.queued = true; await outerActiveTask.promise]. *)
Definition enqueue (t : ActiveTask) (data : nat) (firstEvent : bool) (st : State) : State :=
  withUpdaters
    (updaters st ++ [{| awaited := id t; payload := data; first := firstEvent |}])
    (withActiveTask (Some {| id := id t; queued := true |}) st).

(** [updateConfig(config, data)] up to its first suspension or return.
    Every record built by [startTask] has its controller, so the
    'Expected abort controller to be set' throw is not reached. *)
Definition updateConfig (data : nat) (st : State) : State * list Obs * Outcome :=
  let firstEvent := outerFirstEvent st in
  let st := withFirstEvent false st in
  match outerActiveTask st with
  | Some t =>
      if Types.interruptible template then
        let st := abort (id t) st in
        if queued t then (st, [ObsAbort (id t)], ReturnsUndefined)
        else (enqueue t data firstEvent st,
              [ObsAbort (id t); ObsQueued (id t); ObsAwait (id t)],
              AwaitsTask (id t))
      else if Types.persistent template then (st, [], ReturnsUndefined)
      else if queued t then (st, [], ReturnsUndefined)
      else (enqueue t data firstEvent st,
            [ObsQueued (id t); ObsAwait (id t)],
            AwaitsTask (id t))
  | None => startTask data firstEvent st
  end.

(** The promise of task [taskId] settles: the [finally] handler clears
    [outerActiveTask] when it still is that task. *)
Definition taskSettles (taskId : nat) (st : State) : State :=
  let st1 := withTasks (alter settleCell taskId (tasks st)) st in
  match outerActiveTask st1 with
  | Some t => if Nat.eqb taskId (id t) then withActiveTask None st1 else st1
  | None => st1
  end.

(** The first updater suspended on the promise of [taskId], and the others. *)
Fixpoint takeUpdater (taskId : nat) (us : list Updater) : option (Updater * list Updater) :=
  match us with
  | [] => None
  | u :: rest =>
      if Nat.eqb (awaited u) taskId then Some (u, rest)
      else
        match takeUpdater taskId rest with
        | Some (v, rest') => Some (v, u :: rest')
        | None => None
        end
  end.

(** An updater suspended on the promise of [taskId] goes on after its
    [await]; enabled once that promise has settled. *)
Definition updaterResumes (taskId : nat) (st : State) : option (State * list Obs * Outcome) :=
  if isSettled taskId st then
    match takeUpdater taskId (updaters st) with
    | Some (u, rest) => Some (startTask (payload u) (first u) (withUpdaters rest st))
    | None => None
    end
  else None.

(** [teardown()] of the returned record. The latch and [abort()] come
    before its first [await]; what follows them, the call of the handler,
    reads no variable of the closure, so the call is taken as a whole. *)
Definition teardown (st : State) : State * list Obs :=
  if outerTeardownInitiated st then (st, [])
  else
    let st1 := withTeardownInitiated true st in
    let '(st2, aborts) :=
      match outerActiveTask st1 with
      | Some t => (abort (id t) st1, [ObsAbort (id t)])
      | None => (st1, [])
      end in
    match Types.teardown template with
    | Some _ => (st2, aborts ++ [ObsTeardownHook])
    | None => (st2, aborts)
    end.

(** The parent signal fires: the listener of every controller created so
    far aborts it. The signal fires once. *)
Definition parentAborts (st : State) : State :=
  if parentAborted st then st
  else withParentAborted true (withTasks (abortCell <$> tasks st) st).

(** The [abortController.abort()] calls of these listeners, in the order
    in which the controllers were created. *)
Definition parentAbortCalls (st : State) : list Obs :=
  if parentAborted st then [] else ObsAbort <$> seq 0 (length (tasks st)).

(** What can happen to a manager. *)
Inductive Action :=
| CallUpdateConfig (data : nat)
| CallTeardown
| TaskSettles (taskId : nat)
| UpdaterResumes (taskId : nat)
| ParentAborts.

(** One action; [None] when it is not enabled (a task settles once, and
    only after it was started; an updater resumes after the promise it
    awaits has settled). *)
Definition step (a : Action) (st : State) : option (State * list Obs) :=
  match a with
  | CallUpdateConfig data => let '(st', obs, _) := updateConfig data st in Some (st', obs)
  | CallTeardown => Some (teardown st)
  | TaskSettles taskId =>
      match tasks st !! taskId with
      | Some c => if settled c then None else Some (taskSettles taskId st, [])
      | None => None
      end
  | UpdaterResumes taskId =>
      match updaterResumes taskId st with
      | Some (st', obs, _) => Some (st', obs)
      | None => None
      end
  | ParentAborts => Some (parentAborts st, parentAbortCalls st)
  end.

(** A run: the actions in order, from [st]. *)
Fixpoint run (actions : list Action) (st : State) : option (State * list Obs) :=
  match actions with
  | [] => Some (st, [])
  | a :: rest =>
      match step a st with
      | Some (st1, obs1) =>
          match run rest st1 with
          | Some (st2, obs2) => Some (st2, obs1 ++ obs2)
          | None => None
          end
      | None => None
      end
  end.

(** [await manager.updateConfig(config, data)] taken to its end by a caller
    that is alone with the manager: the promise of [updateConfig] settles
    when the promise it returned settles, and a suspended updater goes on
    when the task it waits for has settled. *)
Definition finishUpdateConfig (out : Outcome) (st : State) : State * list Obs :=
  match out with
  | ReturnsUndefined => (st, [])
  | ReturnsPromise taskId => (taskSettles taskId st, [])
  | AwaitsTask taskId =>
      match updaterResumes taskId (taskSettles taskId st) with
      | Some (st', obs, ReturnsPromise taskId') => (taskSettles taskId' st', obs)
      | Some (st', obs, _) => (st', obs)
      | None => (taskSettles taskId st, [])
      end
  end.

Definition awaitUpdateConfig (data : nat) (st : State) : State * list Obs :=
  let '(st1, obs1, out) := updateConfig data st in
  let '(st2, obs2) := finishUpdateConfig out st1 in
  (st2, obs1 ++ obs2).

End WithTemplate.

(** The record returned by [TaskManager(template, entryId)]. Its
    [activeTask] field is the value [outerActiveTask] has when the record is
    built; [updateConfig] and [teardown] act on the closure. The fields
    [initialRun] and [persistent] repeat the template. *)
Record TaskManagerObject := {
  activeTask : option ActiveTask;
  closure : State
}.

Definition TaskManager (entry : nat) : TaskManagerObject :=
  let st := initial entry in
  {| activeTask := outerActiveTask st; closure := st |}.

(** A method of the record acts on the closure and leaves the fields. *)
Definition onClosure (st : State) (m : TaskManagerObject) : TaskManagerObject :=
  {| activeTask := activeTask m; closure := st |}.

End Manager.

(** ** The pool: [ManagerPool] *)

Module Pool.

(** [Map<number, TaskManager>]: a JavaScript [Map] keeps its entries in
    insertion order; [set] on a key that is present keeps its place. *)
Definition ManagerMap : Type := list (nat * Manager.TaskManagerObject).

Fixpoint mapGet (i : nat) (ms : ManagerMap) : option Manager.TaskManagerObject :=
  match ms with
  | [] => None
  | (k, m) :: rest => if Nat.eqb k i then Some m else mapGet i rest
  end.

Fixpoint mapSet (i : nat) (m : Manager.TaskManagerObject) (ms : ManagerMap) : ManagerMap :=
  match ms with
  | [] => [(i, m)]
  | (k, m') :: rest => if Nat.eqb k i then (k, m) :: rest else (k, m') :: mapSet i m rest
  end.

Fixpoint mapDelete (i : nat) (ms : ManagerMap) : ManagerMap :=
  match ms with
  | [] => []
  | (k, m) :: rest => if Nat.eqb k i then rest else (k, m) :: mapDelete i rest
  end.

Definition mapSize (ms : ManagerMap) : nat := length ms.

Definition mapKeys (ms : ManagerMap) : list nat := fst <$> ms.

Definition mapHas (i : nat) (ms : ManagerMap) : bool :=
  match mapGet i ms with Some _ => true | None => false end.

(** [data[i]]: [None] stands for [undefined], which is what an index past
    the end and a hole both read as. *)
Definition entryAt (data : list (option nat)) (i : nat) : option nat :=
  match data !! i with
  | Some (Some d) => Some d
  | _ => None
  end.

(** The indices at which [data] has a defined entry. *)
Definition definedAt (data : list (option nat)) (i : nat) : bool :=
  match entryAt data i with Some _ => true | None => false end.

(** What the pool does to the outside world: what the manager of a slot
    does, tagged with the slot. *)
Inductive Obs :=
| AtSlot (i : nat) (o : Manager.Obs).

(** Where one pass of the reconciliation loop is suspended. *)
Inductive Suspension :=
| NoAwait
| AwaitsTeardown                              (* await manager.teardown() *)
| AwaitsUpdateConfig (out : Manager.Outcome). (* await manager.updateConfig(config, data[i]) *)

Section WithTemplate.

Variable template : Types.TaskTemplate.

(** One pass of [for (let i = 0; i < maxLength; i++)] up to its [await]. *)
Definition slotEnter (data : list (option nat)) (i : nat) (ms : ManagerMap)
  : ManagerMap * list Obs * Suspension :=
  match entryAt data i with
  | None =>
      match mapGet i ms with
      | Some manager =>
          let '(st, obs) := Manager.teardown template (Manager.closure manager) in
          (mapSet i (Manager.onClosure st manager) ms, AtSlot i <$> obs, AwaitsTeardown)
      | None => (ms, [], NoAwait)
      end
  | Some d =>
      match mapGet i ms with
      | Some manager =>
          let '(st, obs, out) := Manager.updateConfig template d (Manager.closure manager) in
          (mapSet i (Manager.onClosure st manager) ms, AtSlot i <$> obs, AwaitsUpdateConfig out)
      | None =>
          let manager := Manager.TaskManager i in
          let ms1 := mapSet i manager ms in
          let '(st, obs, out) := Manager.updateConfig template d (Manager.closure manager) in
          (mapSet i (Manager.onClosure st manager) ms1, AtSlot i <$> obs, AwaitsUpdateConfig out)
      end
  end.

(** The rest of the pass, once the awaited promise has settled. *)
Definition slotLeave (i : nat) (s : Suspension) (ms : ManagerMap) : ManagerMap * list Obs :=
  match s with
  | NoAwait => (ms, [])
  | AwaitsTeardown => (mapDelete i ms, [])
  | AwaitsUpdateConfig out =>
      match mapGet i ms with
      | Some manager =>
          let '(st, obs) := Manager.finishUpdateConfig template out (Manager.closure manager) in
          (mapSet i (Manager.onClosure st manager) ms, AtSlot i <$> obs)
      | None => (ms, [])
      end
  end.

(** The loop from index [i], [todo] passes being left. *)
Fixpoint reconcile (data : list (option nat)) (i todo : nat) (ms : ManagerMap)
  : ManagerMap * list Obs :=
  match todo with
  | O => (ms, [])
  | S todo' =>
      let '(ms1, obs1, s) := slotEnter data i ms in
      let '(ms2, obs2) := slotLeave i s ms1 in
      let '(ms3, obs3) := reconcile data (S i) todo' ms2 in
      (ms3, obs1 ++ obs2 ++ obs3)
  end.

(** [trigger([config, data])], run until its promise resolves: every
    promise the loop awaits is taken to settle, and nobody else touches
    the pool meanwhile. Nothing in the loop throws, so the [catch] is not
    entered. *)
Definition trigger (data : list (option nat)) (ms : ManagerMap) : ManagerMap * list Obs :=
  let maxLength := Nat.max (length data) (mapSize ms) in
  reconcile data 0 maxLength ms.

(** [teardown()]: [for (const manager of managers.values())]. The promise
    that is awaited is the one of the [activeTask] field of the record. *)
Fixpoint teardownEach (todo : ManagerMap) : ManagerMap * list Obs :=
  match todo with
  | [] => ([], [])
  | (i, manager) :: rest =>
      let '(st1, obs1) :=
        match Manager.activeTask manager with
        | Some t =>
            (Manager.taskSettles (Manager.id t) (Manager.closure manager),
             [AtSlot i (Manager.ObsAwait (Manager.id t))])
        | None => (Manager.closure manager, [])
        end in
      let '(st2, obs2) := Manager.teardown template st1 in
      let '(rest', obs3) := teardownEach rest in
      ((i, Manager.onClosure st2 manager) :: rest', obs1 ++ (AtSlot i <$> obs2) ++ obs3)
  end.

Definition teardown (ms : ManagerMap) : ManagerMap * list Obs := teardownEach ms.

(** The parent signal fires ([abortController.abort()] in [shutdown]). *)
Definition parentAborts (ms : ManagerMap) : ManagerMap :=
  (fun km => (km.1, Manager.onClosure (Manager.parentAborts (Manager.closure km.2)) km.2)) <$> ms.

End WithTemplate.

(** [const managers = new Map()]. *)
Definition empty : ManagerMap := [].

End Pool.

(** ** [defineConfigWatcher] *)

Module Config.

Inductive WatcherConstructable :=
| TurboWatcher
| ChokidarWatcher
| FSWatcher
| CustomWatcher (n : nat).

(** The value of a property of a configuration object. *)
Inductive Value :=
| VUndefined
| VWatcher (w : WatcherConstructable)
| VOther (v : nat).

(** [{ Watcher: TurboWatcher, ...configurationInput }]: the own properties
    of the input are copied over the literal's, so the input's win. An
    object is the finite map of its own properties. *)
Definition defineConfigWatcher (configurationInput : gmap string Value) : gmap string Value :=
  configurationInput ∪ {[ "Watcher"%string := VWatcher TurboWatcher ]}.

End Config.

(** ** Vocabulary of the statements *)

Module Trace.

Import RunTask.

Local Open Scope Z_scope.

(** The events that follow the [k]-th backoff wait of a trace (from 0),
    with the delay of that wait. *)
Fixpoint afterDelay (k : nat) (events : list Event) : option (Z * list Event) :=
  match events with
  | [] => None
  | EvDelay d :: rest =>
      match k with
      | O => Some (d, rest)
      | S k' => afterDelay k' rest
      end
  | EvLaunch _ _ _ :: rest => afterDelay k rest
  end.

(** The events that follow the [n]-th launch of a trace (from 0). *)
Fixpoint afterLaunch (n : nat) (events : list Event) : option (list Event) :=
  match events with
  | [] => None
  | EvLaunch _ _ _ :: rest =>
      match n with
      | O => Some rest
      | S n' => afterLaunch n' rest
      end
  | EvDelay _ :: rest => afterLaunch n rest
  end.

(** The attempt numbers handed to [launch], in order. *)
Definition attempts (events : list Event) : list Z :=
  omap (fun e => match e with EvLaunch a _ _ => Some a | _ => None end) events.

(** The retry arithmetic as the specification words it: the [k]-th
    inter-attempt delay is [min(k * factor * minTimeout, maxTimeout)], the
    three parameters defaulting to 2, 1000 and 30000. *)
Definition specDelay (r : Types.Retry) (k : Z) : Z :=
  Z.min (k * nullish (Types.factor r) 2 * nullish (Types.minTimeout r) 1000)
        (nullish (Types.maxTimeout r) 30000).




(** "For [retries >= 0], [retriesLeft] is never negative, so the
    expectation error is unreachable", as worded: for any number
    [retries >= 0]. *)
Definition expectationUnreachable : Prop :=
  forall (template : Types.TaskTemplate) (first signalAborted : bool) (env : Environment)
         (fuel : nat),
    Types.persistent template = false ->
    (0 <= Types.retries (Types.retry template))%Q ->
    (runTask template first env signalAborted fuel).2 <> RejectedExpectation.

(** "The wait is cancellation-aware", as far as a trace shows it: when the
    signal is aborted while the loop waits its [k]-th delay, no [launch]
    follows that wait. *)
Definition cancellationAwareDelay : Prop :=
  forall (template : Types.TaskTemplate) (first : bool) (env : Environment)
         (fuel k : nat) (d : Z) (after : list Event),
    abortDuringDelay env k = true ->
    afterDelay k (runTask template first env false fuel).1 = Some (d, after) ->
    launches after = 0%nat.

(** "A persistent task is re-launched immediately", as far as a trace
    shows it: when the [n]-th launch of a persistent template resolves, the
    loop does not wait before its next launch, that is, what follows that
    launch in the trace does not begin with a delay. *)
Definition immediateRelaunch : Prop :=
  forall (template : Types.TaskTemplate) (first : bool) (env : Environment)
         (fuel n : nat) (e : Event) (rest : list Event),
    Types.persistent template = true ->
    launchOutcome env n = LaunchResolves ->
    afterLaunch n (runTask template first env false fuel).1 = Some (e :: rest) ->
    isLaunch e = true.

End Trace.

(** The observations of a manager. *)
Module ManagerTrace.

Import Manager.

(** How many times [queued] of task [taskId] was set to true. *)
Definition setsQueued (taskId : nat) (o : Obs) : bool :=
  match o with
  | ObsQueued i => Nat.eqb i taskId
  | _ => false
  end.

Fixpoint queuedCount (taskId : nat) (obs : list Obs) : nat :=
  match obs with
  | [] => O
  | o :: rest => if setsQueued taskId o then S (queuedCount taskId rest) else queuedCount taskId rest
  end.

(** Whether an observation starts a task, awaits one or sets a flag. *)
Definition startsOrAwaits (o : Obs) : bool :=
  match o with
  | ObsTask _ _ _ _ | ObsAwait _ | ObsQueued _ => true
  | ObsAbort _ | ObsTeardownHook => false
  end.

(** What holds of the closure variables of a manager whatever happened to
    it: the active task is in the store, and on an interruptible template
    its [queued] flag is only set once its controller is aborted. *)
Definition consistent (template : Types.TaskTemplate) (st : State) : Prop :=
  forall t, outerActiveTask st = Some t ->
    (id t < length (tasks st))%nat /\
    (queued t = true -> Types.interruptible template = true -> isAborted (id t) st = true).

(** The same with the observations made so far: a flag is set at most once,
    never for an id that is not handed out yet, and not yet for an active
    task whose flag is false. *)
Definition consistentWith (template : Types.TaskTemplate) (st : State) (obs : list Obs) : Prop :=
  consistent template st /\
  (forall i, (queuedCount i obs <= 1)%nat) /\
  (forall i, (length (tasks st) <= i)%nat -> queuedCount i obs = O) /\
  (forall t, outerActiveTask st = Some t -> queued t = false -> queuedCount (id t) obs = O).

End ManagerTrace.

(** The observations of a pool. *)
Module PoolTrace.

Import Pool.

Definition isAwait (o : Obs) : bool :=
  match o with
  | AtSlot _ (Manager.ObsAwait _) => true
  | _ => false
  end.

(** Every record of the map has the [activeTask] field it was built with. *)
Definition builtByPool (ms : ManagerMap) : Prop :=
  Forall (fun km => Manager.activeTask km.2 = None) ms.

(** The supervisor's [ready] handler (mod/watch): unless the supervisor is
    terminating it triggers the pool with the parsed data. *)
Definition onReady (template : Types.TaskTemplate) (terminating : bool)
  (data : list (option nat)) (ms : ManagerMap) : ManagerMap * list Obs :=
  if terminating then (ms, []) else trigger template data ms.

End PoolTrace.

(** Concrete templates and environments. *)
Module Examples.

Definition retryOf (R : Z) : Types.Retry :=
  {| Types.factor := None; Types.maxTimeout := None; Types.minTimeout := None;
     Types.retries := inject_Z R |}.

(** The template [watch] builds from a task that sets nothing but the
    given flags: [interruptible] true and three retries. *)
Definition templateOf (initialRun persistent : bool) : Types.TaskTemplate :=
  {| Types.initialRun := initialRun; Types.interruptible := true;
     Types.persistent := persistent; Types.retry := retryOf 3;
     Types.teardown := Some Types.TeardownResolves |}.

Definition withRetries (R : Z) : Types.TaskTemplate :=
  {| Types.initialRun := true; Types.interruptible := true;
     Types.persistent := false; Types.retry := retryOf R;
     Types.teardown := None |}.

(** Every launch resolves; nobody aborts. *)
Definition resolving : RunTask.Environment :=
  {| RunTask.launchOutcome := fun _ => RunTask.LaunchResolves;
     RunTask.abortDuringLaunch := fun _ => false;
     RunTask.abortDuringDelay := fun _ => false |}.

(** Every launch rejects with an error of its own; nobody aborts. *)
Definition rejecting : RunTask.Environment :=
  {| RunTask.launchOutcome := fun n => RunTask.LaunchRejects n;
     RunTask.abortDuringLaunch := fun _ => false;
     RunTask.abortDuringDelay := fun _ => false |}.

(** Every launch rejects; the signal is aborted while the first launch is
    pending. *)
Definition rejectingAbortedInLaunch : RunTask.Environment :=
  {| RunTask.launchOutcome := fun n => RunTask.LaunchRejects n;
     RunTask.abortDuringLaunch := fun n => Nat.eqb n 0;
     RunTask.abortDuringDelay := fun _ => false |}.

(** [retries: 1.5]. *)
Definition oneAndAHalfRetries : Types.TaskTemplate :=
  {| Types.initialRun := true; Types.interruptible := true;
     Types.persistent := false;
     Types.retry := {| Types.factor := None; Types.maxTimeout := None;
                       Types.minTimeout := None; Types.retries := (3 # 2)%Q |};
     Types.teardown := None |}.

(** Every launch rejects; the signal is aborted during the first wait. *)
Definition rejectingThenAborted : RunTask.Environment :=
  {| RunTask.launchOutcome := fun n => RunTask.LaunchRejects n;
     RunTask.abortDuringLaunch := fun _ => false;
     RunTask.abortDuringDelay := fun n => Nat.eqb n 0 |}.

(** A burst of two updates on a fresh manager of an interruptible
    template: the first starts task 0, the second aborts it and queues. *)
Definition burst : list Manager.Action :=
  [Manager.CallUpdateConfig 1; Manager.CallUpdateConfig 2].

Definition afterBurst : Manager.State :=
  {| Manager.entryId := 0;
     Manager.outerTeardownInitiated := false;
     Manager.outerActiveTask := Some {| Manager.id := 0; Manager.queued := true |};
     Manager.outerFirstEvent := false;
     Manager.tasks := [{| Manager.signalAborted := true; Manager.settled := false |}];
     Manager.updaters := [{| Manager.awaited := 0; Manager.payload := 2; Manager.first := false |}];
     Manager.parentAborted := false |}.

(** A template whose updates wait for the running task. *)
Definition waiting : Types.TaskTemplate :=
  {| Types.initialRun := true; Types.interruptible := false;
     Types.persistent := false; Types.retry := retryOf 3;
     Types.teardown := None |}.

Definition afterBurstWaiting : Manager.State :=
  {| Manager.entryId := 0;
     Manager.outerTeardownInitiated := false;
     Manager.outerActiveTask := Some {| Manager.id := 0; Manager.queued := true |};
     Manager.outerFirstEvent := false;
     Manager.tasks := [{| Manager.signalAborted := false; Manager.settled := false |}];
     Manager.updaters := [{| Manager.awaited := 0; Manager.payload := 2; Manager.first := false |}];
     Manager.parentAborted := false |}.

(** A pool whose [trigger([config, [7]])] is suspended at
    [await manager.updateConfig(config, 7)]: slot 0 holds a manager whose
    task 0 is launched and has not settled. *)
Definition inflight : Pool.ManagerMap :=
  (Pool.slotEnter (templateOf true false) [Some 7] 0 Pool.empty).1.1.

(** The same pool once [shutdown] has aborted the parent signal. *)
Definition shuttingDown : Pool.ManagerMap := Pool.parentAborts inflight.

(** The pool after [trigger([config, [7, undefined, 9]])]. *)
Definition sparse : Pool.ManagerMap :=
  (Pool.trigger (templateOf true false) [Some 7; None; Some 9] Pool.empty).1.

(** Configuration objects without and with a [Watcher]. *)
Definition plainInput : gmap string Config.Value :=
  {[ "configPath"%string := Config.VOther 1 ]}.

Definition chokidarInput : gmap string Config.Value :=
  <[ "Watcher"%string := Config.VWatcher Config.ChokidarWatcher ]> plainInput.

End Examples.

(** The shape of the traces of the retry loop. *)
Module Pacing.

Import RunTask.

Local Open Scope Z_scope.

(** A trace made of passes of the loop: a launch with attempt 0 and no wait
    before it, or, for an attempt [a >= 1], the wait of
    [min(a * factor * minTimeout, maxTimeout)] and then the launch with that
    attempt; every launch is handed the same [first]. *)
Fixpoint paced (r : Types.Retry) (first : bool) (events : list Event) : bool :=
  match events with
  | [] => true
  | EvLaunch a f _ :: rest => (a =? 0) && Bool.eqb f first && paced r first rest
  | EvDelay d :: EvLaunch a f _ :: rest =>
      (1 <=? a) && (d =? Trace.specDelay r a) && Bool.eqb f first && paced r first rest
  | EvDelay _ :: _ => false
  end.

(** The attempts of a run that counts up from [from]. *)
Definition countingFrom (from count : nat) : list Z := Z.of_nat <$> seq from count.

(** Whether a completion is a rejection. *)
Definition rejected (c : Completion) : bool :=
  match c with
  | RejectedWith _ | RejectedExpectation | RejectedTypeError => true
  | Resolved | Pending => false
  end.

End Pacing.

(** What a manager keeps true, and what is counted in its observations. *)
Module ManagerInv.

Import Manager.

Definition isStart (o : Obs) : bool :=
  match o with ObsTask _ _ _ _ => true | _ => false end.

Definition isHook (o : Obs) : bool :=
  match o with ObsTeardownHook => true | _ => false end.

Definition isAbortCall (o : Obs) : bool :=
  match o with ObsAbort _ => true | _ => false end.

(** A task started with [first = true], and the id of a started task. *)
Definition isFirstStart (o : Obs) : bool :=
  match o with
  | ObsTask _ _ _ (RunTask.EvLaunch _ true _) => true
  | _ => false
  end.

Definition startedId (o : Obs) : option nat :=
  match o with ObsTask _ taskId _ _ => Some taskId | _ => None end.

Definition count (p : Obs -> bool) (obs : list Obs) : nat :=
  length (filter (fun o => p o = true) obs).

Arguments count : simpl never.

Definition isCallTeardown (a : Action) : bool :=
  match a with CallTeardown => true | _ => false end.

Definition isParentAborts (a : Action) : bool :=
  match a with ParentAborts => true | _ => false end.

(** The closure variables of a manager, whatever happened to it:
    - the active task is in the store and its promise has not settled;
    - a suspended updater waits for a task of the store, is not the first
      event, and if it waits for the active task that task is flagged
      [queued];
    - as long as [outerFirstEvent] holds nothing was started or suspended. *)
Definition sound (st : State) : Prop :=
  (forall t, outerActiveTask st = Some t ->
     isSettled (id t) st = false /\ id t < length (tasks st)) /\
  (forall u, u ∈ updaters st ->
     awaited u < length (tasks st) /\ first u = false /\
     (forall t, outerActiveTask st = Some t -> awaited u = id t -> queued t = true)) /\
  (outerFirstEvent st = true ->
     outerActiveTask st = None /\ tasks st = [] /\ updaters st = []).

(** The same with what was observed so far: at most one task was started
    with [first = true], it has id 0, and none yet while [outerFirstEvent]
    holds; the teardown handler ran at most once, and not yet while
    [outerTeardownInitiated] is false. *)
Definition soundWith (st : State) (obs : list Obs) : Prop :=
  sound st /\
  count isFirstStart obs <= 1 /\
  (outerFirstEvent st = true -> count isFirstStart obs = 0) /\
  Forall (fun o => isFirstStart o = true -> startedId o = Some 0) obs /\
  count isHook obs <= 1 /\
  (outerTeardownInitiated st = false -> count isHook obs = 0).

End ManagerInv.

(** What a pool keeps true, and what is read off its observations. *)
Module PoolInv.

Import Pool.

(** Several [trigger] calls, each one run to its end before the next. *)
Fixpoint triggerAll (template : Types.TaskTemplate) (calls : list (list (option nat)))
  (ms : ManagerMap) : ManagerMap * list Obs :=
  match calls with
  | [] => (ms, [])
  | data :: rest =>
      let '(ms1, obs1) := trigger template data ms in
      let '(ms2, obs2) := triggerAll template rest ms1 in
      (ms2, obs1 ++ obs2)
  end.

(** [data] without [undefined] entries. *)
Definition noHoles (data : list (option nat)) : bool :=
  forallb (fun d => match d with Some _ => true | None => false end) data.

(** The slots of the observations, in order, and whether they ascend. *)
Definition slotOf (o : Obs) : nat := match o with AtSlot i _ => i end.

Fixpoint ascendingFrom (low : nat) (slots : list nat) : bool :=
  match slots with
  | [] => true
  | i :: rest => (low <=? i) && ascendingFrom i rest
  end.

(** A launch observed at slot [i] carries the entry id [i]. *)
Definition entryMatches (o : Obs) : bool :=
  match o with
  | AtSlot i (Manager.ObsTask entry _ _ _) => Nat.eqb entry i
  | _ => true
  end.

Definition isStartAt (o : Obs) : bool :=
  match o with AtSlot _ m => ManagerInv.isStart m end.

(** A task a manager starts carries the entry id [entry]. *)
Definition carries (entry : nat) (o : Manager.Obs) : Prop :=
  match o with
  | Manager.ObsTask e _ _ _ => e = entry
  | _ => True
  end.

(** Every manager is stored under its entry id. *)
Definition keyed (ms : ManagerMap) : Prop :=
  Forall (fun km => Manager.entryId (Manager.closure km.2) = km.1) ms.

(** Every manager has its teardown latch set. *)
Definition allLatched (ms : ManagerMap) : Prop :=
  Forall (fun km => Manager.outerTeardownInitiated (Manager.closure km.2) = true) ms.

End PoolInv.

(** ** The supervisor: [watch] (mod/watch) *)

Module Watch.

(** [TaskTemplateInput]: what a configuration says about its task. *)
Record TaskTemplateInput := {
  initialRun : option bool;
  interruptible : option bool;
  persistent : option bool;
  retry : option Types.Retry;
  teardown : option Types.TeardownOutcome
}.

(** The template [watch] hands to [ManagerPool]; [None] stands for the
    throw of 'Persistent triggers must have initialRun set to true.'
    [{ retries: 3, ...task.retry }] is [task.retry] when there is one, its
    [retries] being required. *)
Definition template (task : TaskTemplateInput) : option Types.TaskTemplate :=
  let initialRun' := nullish (initialRun task) true in
  let persistent' := nullish (persistent task) false in
  if persistent' && negb initialRun' then None
  else
    Some {| Types.initialRun := initialRun';
            Types.interruptible := nullish (interruptible task) true;
            Types.persistent := persistent';
            Types.retry :=
              match retry task with
              | Some r => r
              | None => {| Types.factor := None; Types.maxTimeout := None;
                           Types.minTimeout := None; Types.retries := inject_Z 3 |}
              end;
            Types.teardown := teardown task |}.

(** The variables of [watch] and the promise it returns. *)
Record State := {
  ready : bool;
  terminating : bool;
  rootAborted : bool;                   (* abortController.signal.aborted *)
  promise : option bool;                (* Some true: resolved; Some false: rejected *)
  managers : Pool.ManagerMap
}.

Inductive Obs :=
| WatcherClose                          (* watcher.close() *)
| RootAbort                             (* abortController.abort() takes effect, listeners included *)
| PoolObs (o : Pool.Obs)
| Resolves                              (* resolve({ shutdown }) *)
| Rejects.                              (* reject(error) *)

(** What happens to a supervisor. [parsed] is the data vector read from
    the configuration file, [None] when reading or parsing throws. *)
Inductive Event :=
| WatcherReady (parsed : option (list (option nat)))
| WatcherChange (parsed : option (list (option nat)))   (* after the debounce *)
| WatcherError
| AbortSignalled                        (* the owner of the controller aborts it *)
| ShutdownCalled.                       (* shutdown() of the returned controller *)

Section WithTemplate.

Variable tpl : Types.TaskTemplate.

Definition initial : State :=
  {| ready := false; terminating := false; rootAborted := false; promise := None;
     managers := Pool.empty |}.

(** [abortController.abort()]: once; the listeners of the tasks abort
    their controllers. *)
Definition abortRoot (st : State) : State * list Obs :=
  if rootAborted st then (st, [])
  else ({| ready := ready st; terminating := terminating st; rootAborted := true;
           promise := promise st; managers := Pool.parentAborts (managers st) |},
        [RootAbort]).

(** [shutdown()], its awaited promises being taken to settle: the latch,
    [watcher.close()], the abort of the root signal, the teardown of the
    pool. *)
Definition shutdown (st : State) : State * list Obs :=
  if terminating st then (st, [])
  else
    let st1 := {| ready := ready st; terminating := true; rootAborted := rootAborted st;
                  promise := promise st; managers := managers st |} in
    let '(st2, aborts) := abortRoot st1 in
    let '(ms, obs) := Pool.teardown tpl (managers st2) in
    ({| ready := ready st2; terminating := terminating st2; rootAborted := rootAborted st2;
        promise := promise st2; managers := ms |},
     WatcherClose :: aborts ++ (PoolObs <$> obs)).

(** [void managerPool.trigger([config, data])] after a successful read;
    the call is taken to run to its end before the next event. *)
Definition emit (parsed : option (list (option nat))) (st : State) : State * list Obs :=
  match parsed with
  | Some data =>
      let '(ms, obs) := Pool.trigger tpl data (managers st) in
      ({| ready := ready st; terminating := terminating st; rootAborted := rootAborted st;
          promise := promise st; managers := ms |},
       PoolObs <$> obs)
  | None => (st, [])
  end.

(** A promise settles once. *)
Definition settle (result : bool) (st : State) : State * list Obs :=
  match promise st with
  | Some _ => (st, [])
  | None =>
      ({| ready := ready st; terminating := terminating st; rootAborted := rootAborted st;
          promise := Some result; managers := managers st |},
       [if result then Resolves else Rejects])
  end.

Definition handle (e : Event) (st : State) : State * list Obs :=
  match e with
  | WatcherChange parsed =>
      if ready st then emit parsed st else (st, [])
  | WatcherReady parsed =>
      let st1 := {| ready := true; terminating := terminating st;
                    rootAborted := rootAborted st; promise := promise st;
                    managers := managers st |} in
      let '(st2, obs2) := if terminating st1 then (st1, []) else emit parsed st1 in
      let '(st3, obs3) := settle true st2 in
      (st3, obs2 ++ obs3)
  | WatcherError =>
      if ready st then shutdown st else settle false st
  | AbortSignalled =>
      (* the listener of [shutdown] was added first, the tasks' after it *)
      if rootAborted st then (st, [])
      else
        let '(st1, obs1) := abortRoot st in
        let '(st2, obs2) := shutdown st1 in
        (st2, obs1 ++ obs2)
  | ShutdownCalled => shutdown st
  end.

Fixpoint handleAll (events : list Event) (st : State) : State * list Obs :=
  match events with
  | [] => (st, [])
  | e :: rest =>
      let '(st1, obs1) := handle e st in
      let '(st2, obs2) := handleAll rest st1 in
      (st2, obs1 ++ obs2)
  end.

End WithTemplate.

Definition isReady (e : Event) : bool :=
  match e with WatcherReady _ => true | _ => false end.

Definition isClose (o : Obs) : bool :=
  match o with WatcherClose => true | _ => false end.

Definition isPoolObs (o : Obs) : bool :=
  match o with PoolObs _ => true | _ => false end.

Definition isHookObs (o : Obs) : bool :=
  match o with PoolObs (Pool.AtSlot _ Manager.ObsTeardownHook) => true | _ => false end.

Definition countObs (p : Obs -> bool) (obs : list Obs) : nat :=
  length (filter (fun o => p o = true) obs).

End Watch.

(** ** The command line (bin/eirenewatch) *)

Module Cli.

Import Stdlib.Strings.Ascii.

Local Open Scope string_scope.

Section Find.

(** [path.resolve(process.cwd(), _)], [path.extname] and [existsSync]. *)
Variable resolve : string -> string.
Variable extname : string -> string.
Variable existsSync : string -> bool.

Definition possiblePaths (inputPath : string) : list string :=
  let providedPath := resolve inputPath in
  providedPath ::
    (if String.eqb (extname providedPath) ""
     then [String.append providedPath ".ts"; String.append providedPath ".js"]
     else []).

(** [for (const possiblePath of possiblePaths) if (existsSync(possiblePath))
    resolvedPath = possiblePath]. *)
Definition findEirenewatchScript (inputPath : string) : option string :=
  fold_left
    (fun resolvedPath possiblePath =>
       if existsSync possiblePath then Some possiblePath else resolvedPath)
    (possiblePaths inputPath) None.

(** [pattern.includes('*')]. *)
Fixpoint includesStar (pattern : string) : bool :=
  match pattern with
  | String.EmptyString => false
  | String.String c rest => Ascii.eqb c "*"%char || includesStar rest
  end.

(** [glob], the module loader ([None]: no default export; it is taken to
    return), the outcome of [await watch(...)] for a script ([false]: it
    throws or rejects; its promise is taken to settle). *)
Variable glob : string -> list string.
Variable load : string -> option (gmap string Config.Value).
Variable watchResolves : string -> bool.

Definition scriptPaths (patterns : list string) : list string :=
  flat_map (fun pattern => if includesStar pattern then glob pattern else [pattern]) patterns.

(** The first loop of [main]: [None] when a script is not found.
    [!resolvedPath] holds of [null] and of the empty string. *)
Fixpoint resolveAll (paths : list string) : option (list string) :=
  match paths with
  | [] => Some []
  | scriptPath :: rest =>
      match findEirenewatchScript scriptPath with
      | None => None
      | Some resolvedPath =>
          if String.eqb resolvedPath "" then None
          else
            match resolveAll rest with
            | Some resolved => Some (resolvedPath :: resolved)
            | None => None
            end
      end
  end.

(** [typeof eirenewatchConfiguration?.Watcher !== 'function'], negated. *)
Definition hasWatcher (configuration : option (gmap string Config.Value)) : bool :=
  match configuration with
  | Some c =>
      match c !! "Watcher" with
      | Some (Config.VWatcher _) => true
      | _ => false
      end
  | None => false
  end.

(** How [main] ends. *)
Record Outcome := {
  exitCode : option nat;          (* process.exitCode, when set *)
  watched : list string;          (* the scripts [watch] was called for *)
  rejected : bool                 (* the promise of [main] rejected *)
}.

(** The second loop of [main]. *)
Fixpoint watchAll (resolved : list string) : Outcome :=
  match resolved with
  | [] => {| exitCode := None; watched := []; rejected := false |}
  | resolvedPath :: rest =>
      if hasWatcher (load resolvedPath) then
        if watchResolves resolvedPath then
          let r := watchAll rest in
          {| exitCode := exitCode r; watched := resolvedPath :: watched r;
             rejected := rejected r |}
        else {| exitCode := None; watched := [resolvedPath]; rejected := true |}
      else {| exitCode := Some 1; watched := []; rejected := false |}
  end.

Definition main (patterns : list string) : Outcome :=
  match resolveAll (scriptPaths patterns) with
  | None => {| exitCode := Some 1; watched := []; rejected := false |}
  | Some resolved => watchAll resolved
  end.

End Find.







End Cli.

(** ** The earlier supervisor: one subscription per process *)

Module Subscriptions.

(** A subscription is a manager with its own template; its [trigger] is
    [handleSubscriptionEvent], the [updateConfig] of the manager, under a
    [try]. *)
Definition Subscription : Type := Types.TaskTemplate * Manager.State.

Inductive Obs :=
| At (process : nat) (o : Manager.Obs).

Definition subscribe (process : nat) (template : Types.TaskTemplate) : Subscription :=
  (template, Manager.initial process).

Fixpoint subscribeAll (from : nat) (processes : list Types.TaskTemplate)
  : list Subscription :=
  match processes with
  | [] => []
  | template :: rest => subscribe from template :: subscribeAll (S from) rest
  end.

Definition trigger (data : nat) (process : nat) (s : Subscription)
  : Subscription * list Obs :=
  let '(st, obs, _) := Manager.updateConfig s.1 data s.2 in
  ((s.1, st), At process <$> obs).

(** The [ready] handler: [if (subscription.initialRun) void
    subscription.trigger(config)]. *)
Fixpoint onReady (data : nat) (from : nat) (subscriptions : list Subscription)
  : list Subscription * list Obs :=
  match subscriptions with
  | [] => ([], [])
  | s :: rest =>
      let '(s', obs1) :=
        if Types.initialRun s.1 then trigger data from s else (s, []) in
      let '(rest', obs2) := onReady data (S from) rest in
      (s' :: rest', obs1 ++ obs2)
  end.

(** The [change] handler: every subscription is triggered. *)
Fixpoint onChange (data : nat) (from : nat) (subscriptions : list Subscription)
  : list Subscription * list Obs :=
  match subscriptions with
  | [] => ([], [])
  | s :: rest =>
      let '(s', obs1) := trigger data from s in
      let '(rest', obs2) := onChange data (S from) rest in
      (s' :: rest', obs1 ++ obs2)
  end.

(** The processes a list of observations launches, in order. *)
Definition launched (obs : list Obs) : list (nat * bool) :=
  omap (fun o => match o with
                 | At p (Manager.ObsTask _ _ _ (RunTask.EvLaunch _ first _)) => Some (p, first)
                 | _ => None
                 end) obs.

(** The processes of a list of templates that have [initialRun], numbered
    from [from]. *)
Fixpoint withInitialRun (from : nat) (processes : list Types.TaskTemplate) : list nat :=
  match processes with
  | [] => []
  | template :: rest =>
      if Types.initialRun template then from :: withInitialRun (S from) rest
      else withInitialRun (S from) rest
  end.

Fixpoint withoutInitialRun (from : nat) (processes : list Types.TaskTemplate) : list nat :=
  match processes with
  | [] => []
  | template :: rest =>
      if Types.initialRun template then withoutInitialRun (S from) rest
      else from :: withoutInitialRun (S from) rest
  end.

End Subscriptions.

(** More concrete inputs. *)
Module Samples.

Local Open Scope string_scope.

(** The first two launches reject, the third resolves; nobody aborts. *)
Definition flaky : RunTask.Environment :=
  {| RunTask.launchOutcome :=
       fun n => if Nat.ltb n 2 then RunTask.LaunchRejects n else RunTask.LaunchResolves;
     RunTask.abortDuringLaunch := fun _ => false;
     RunTask.abortDuringDelay := fun _ => false |}.

(** The first launch rejects with an error, the second with [undefined]. *)
Definition nullishSecond : RunTask.Environment :=
  {| RunTask.launchOutcome :=
       fun n => if Nat.eqb n 0 then RunTask.LaunchRejects 0 else RunTask.LaunchRejectsNullish;
     RunTask.abortDuringLaunch := fun _ => false;
     RunTask.abortDuringDelay := fun _ => false |}.

(** The first launch rejects, the second is aborted and says so. *)
Definition abortedSecond : RunTask.Environment :=
  {| RunTask.launchOutcome :=
       fun n => if Nat.eqb n 0 then RunTask.LaunchRejects 0 else RunTask.LaunchAbortError;
     RunTask.abortDuringLaunch := fun n => Nat.eqb n 1;
     RunTask.abortDuringDelay := fun _ => false |}.

(** What follows a teardown in the middle of a burst: the task settles,
    the queued update resumes, another update arrives. *)
Definition afterTeardown : list Manager.Action :=
  [Manager.TaskSettles 0; Manager.UpdaterResumes 0; Manager.CallUpdateConfig 5].

Definition tornDown : Manager.State :=
  (Manager.teardown (Examples.templateOf true false) Examples.afterBurst).1.

Definition afterTeardownState : Manager.State :=
  Eval vm_compute in
    match Manager.run (Examples.templateOf true false) afterTeardown tornDown with
    | Some (st, _) => st
    | None => tornDown
    end.

Definition afterTeardownObs : list Manager.Obs :=
  Eval vm_compute in
    match Manager.run (Examples.templateOf true false) afterTeardown tornDown with
    | Some (_, obs) => obs
    | None => []
    end.

(** A whole life: an update, a second one that queues, the drain, two
    teardowns. *)
Definition life : list Manager.Action :=
  [Manager.CallUpdateConfig 1; Manager.CallUpdateConfig 2; Manager.TaskSettles 0;
   Manager.UpdaterResumes 0; Manager.CallTeardown; Manager.CallTeardown].

Definition lifeState : Manager.State :=
  Eval vm_compute in
    match Manager.run (Examples.templateOf true false) life (Manager.initial 0) with
    | Some (st, _) => st
    | None => Manager.initial 0
    end.

Definition lifeObs : list Manager.Obs :=
  Eval vm_compute in
    match Manager.run (Examples.templateOf true false) life (Manager.initial 0) with
    | Some (_, obs) => obs
    | None => []
    end.

(** A manager with a running task and nothing queued. *)
Definition running : Manager.State :=
  Eval vm_compute in
    (Manager.updateConfig (Examples.templateOf true false) 1 (Manager.initial 0)).1.1.

Definition runningObs : list Manager.Obs :=
  Eval vm_compute in
    (Manager.updateConfig (Examples.templateOf true false) 1 (Manager.initial 0)).1.2.

(** Updates on a template that waits. *)
Definition waitingLife : list Manager.Action :=
  [Manager.CallUpdateConfig 1; Manager.CallUpdateConfig 2; Manager.CallUpdateConfig 3;
   Manager.TaskSettles 0; Manager.UpdaterResumes 0].

Definition waitingState : Manager.State :=
  Eval vm_compute in
    match Manager.run Examples.waiting waitingLife (Manager.initial 0) with
    | Some (st, _) => st
    | None => Manager.initial 0
    end.

Definition waitingObs : list Manager.Obs :=
  Eval vm_compute in
    match Manager.run Examples.waiting waitingLife (Manager.initial 0) with
    | Some (_, obs) => obs
    | None => []
    end.

(** The pool after [trigger([config, [7, 8, 9]])]. *)
Definition three : Pool.ManagerMap :=
  (Pool.trigger (Examples.templateOf true false) [Some 7; Some 8; Some 9] Pool.empty).1.

(** A task that asks for persistence without an initial run, and one that
    sets nothing. *)
Definition contradictory : Watch.TaskTemplateInput :=
  {| Watch.initialRun := Some false; Watch.interruptible := None;
     Watch.persistent := Some true; Watch.retry := None; Watch.teardown := None |}.

Definition bare : Watch.TaskTemplateInput :=
  {| Watch.initialRun := None; Watch.interruptible := None;
     Watch.persistent := None; Watch.retry := None; Watch.teardown := None |}.

(** A working directory [/w] that holds [a.ts], [b.ts] and [b.js]. *)
Definition resolve (inputPath : string) : string := String.append "/w/" inputPath.

Definition extname (path : string) : string :=
  if String.eqb path "/w/a.ts" then ".ts" else "".

Definition existsSync (path : string) : bool :=
  String.eqb path "/w/a.ts" || String.eqb path "/w/b.ts" || String.eqb path "/w/b.js".

Definition glob (pattern : string) : list string := ["a.ts"; "b"].

Definition load (path : string) : option (gmap string Config.Value) :=
  if String.eqb path "/w/a.ts" then Some (Config.defineConfigWatcher Examples.plainInput)
  else Some Examples.plainInput.

Definition watchResolves (path : string) : bool := true.

End Samples.

(** ** The retry loop: properties *)

Section Numbers.

Lemma lessThan_spec (x y : Q) : reflect (x < y)%Q (Number.lessThan x y).
Proof.
  unfold Number.lessThan. destruct (Qle_bool y x) eqn:E; constructor.
  - apply Qle_bool_iff in E. apply Qle_not_lt. exact E.
  - apply Qnot_le_lt. intros H. apply Qle_bool_iff in H. congruence.
Qed.

Lemma strictEquals_spec (x y : Q) : reflect (x == y)%Q (Number.strictEquals x y).
Proof.
  unfold Number.strictEquals. destruct (Qeq_bool x y) eqn:E; constructor.
  - apply Qeq_bool_iff. exact E.
  - intros H. apply Qeq_bool_iff in H. congruence.
Qed.

(** [retries - failedAttempts] when [retries] is the integer [R]. *)
Lemma retriesLeft_integer (r : Q) (R a : Z) :
  (r == inject_Z R)%Q -> (r - inject_Z a == inject_Z (R - a))%Q.
Proof.
  intros H. rewrite H. unfold Z.sub, Qminus.
  rewrite inject_Z_plus, inject_Z_opp. reflexivity.
Qed.

(** The three tests on [retriesLeft] in that case. *)
Lemma retriesLeft_tests (r : Q) (R a : Z) :
  (r == inject_Z R)%Q ->
  Number.lessThan (r - inject_Z a) 0 = (R - a <? 0)%Z /\
  Number.strictEquals (r - inject_Z a) 0 = (R - a =? 0)%Z /\
  Number.lessThan 0 (r - inject_Z a) = (0 <? R - a)%Z.
Proof.
  intros H. pose proof (retriesLeft_integer r R a H) as E.
  change 0%Q with (inject_Z 0).
  split; [|split].
  - destruct (lessThan_spec (r - inject_Z a) (inject_Z 0)) as [Hq|Hq];
      destruct (Z.ltb_spec (R - a) 0) as [Hz|Hz]; try reflexivity; exfalso.
    + rewrite E, <- Zlt_Qlt in Hq. lia.
    + apply Hq. rewrite E, <- Zlt_Qlt. exact Hz.
  - destruct (strictEquals_spec (r - inject_Z a) (inject_Z 0)) as [Hq|Hq];
      destruct (Z.eqb_spec (R - a) 0) as [Hz|Hz]; try reflexivity; exfalso.
    + rewrite E in Hq. apply -> inject_Z_injective in Hq. lia.
    + apply Hq. rewrite E, Hz. reflexivity.
  - destruct (lessThan_spec (inject_Z 0) (r - inject_Z a)) as [Hq|Hq];
      destruct (Z.ltb_spec 0 (R - a)) as [Hz|Hz]; try reflexivity; exfalso.
    + rewrite E, <- Zlt_Qlt in Hq. lia.
    + apply Hq. rewrite E, <- Zlt_Qlt. exact Hz.
Qed.

End Numbers.

Section RunTaskFacts.

Import RunTask.

Local Open Scope Z_scope.

Variable template : Types.TaskTemplate.
Variable firstEvent : bool.
Variable env : Environment.

Lemma loop_unfold fuel st :
  loop template firstEvent env (S fuel) st =
    if aborted st then ([], Resolved)
    else
      match iteration template firstEvent env st with
      | (events, Settle c) => (events, c)
      | (events, Continue st') =>
          let '(rest, c) := loop template firstEvent env fuel st' in (events ++ rest, c)
      end.
Proof. reflexivity. Qed.

(** A pass hands [failedAttempts + 1] to [launch]. *)
Lemma iteration_attempts st :
  Trace.attempts (iteration template firstEvent env st).1 = [failedAttempts st + 1].
Proof.
  unfold iteration.
  destruct (0 <? failedAttempts st + 1);
    destruct (launchOutcome env (launched st)); simpl;
    repeat (match goal with |- context [if ?b then _ else _] => destruct b end; simpl);
    reflexivity.
Qed.

Lemma attempts_app xs ys : Trace.attempts (xs ++ ys) = Trace.attempts xs ++ Trace.attempts ys.
Proof. unfold Trace.attempts. apply omap_app. Qed.

Variable R : Z.

Hypothesis integer_retries : (Types.retries (Types.retry template) == inject_Z R)%Q.

(** Without persistence and with an integer [retries], a pass that goes on
    leaves [failedAttempts] below [retries], and a pass that starts below
    [retries] does not end in the expectation error. *)
Lemma iteration_bounded st :
  Types.persistent template = false ->
  failedAttempts st + 1 <= R ->
  match (iteration template firstEvent env st).2 with
  | Continue st' => failedAttempts st' + 1 <= R
  | Settle c => c <> RejectedExpectation
  end.
Proof.
  intros Hp Hle. unfold iteration. rewrite Hp.
  destruct (retriesLeft_tests _ R (failedAttempts st + 1) integer_retries) as (E1 & E2 & E3).
  rewrite E1, E2, E3.
  destruct (0 <? failedAttempts st + 1);
    destruct (launchOutcome env (launched st)); simpl; try discriminate.
  all: destruct (Z.ltb_spec (R - (failedAttempts st + 1)) 0); [lia|].
  all: destruct (Z.eqb_spec (R - (failedAttempts st + 1)) 0); simpl; [discriminate|].
  all: destruct (Z.ltb_spec 0 (R - (failedAttempts st + 1))); simpl; lia.
Qed.

Lemma loop_bounded fuel : forall st,
  Types.persistent template = false ->
  failedAttempts st + 1 <= R ->
  (loop template firstEvent env fuel st).2 <> RejectedExpectation /\
  Forall (fun a => 0 <= R - a)
         (Trace.attempts (loop template firstEvent env fuel st).1).
Proof.
  induction fuel as [|fuel IH]; intros st Hp Hle.
  - simpl. split; [discriminate | constructor].
  - rewrite loop_unfold. destruct (aborted st).
    { simpl. split; [discriminate | constructor]. }
    pose proof (iteration_bounded st Hp Hle) as Hb.
    pose proof (iteration_attempts st) as Ha.
    destruct (iteration template firstEvent env st) as [events [st'|c]]; simpl in *.
    + destruct (IH st' Hp Hb) as [Hc Hf].
      destruct (loop template firstEvent env fuel st') as [rest c]. simpl in *.
      split; [exact Hc|].
      rewrite attempts_app, Ha. constructor; [lia | exact Hf].
    + split; [exact Hb|]. rewrite Ha. constructor; [lia | constructor].
Qed.

End RunTaskFacts.

(** C9, for an integer [retries]. In [runTask], for a template with
    [persistent = false] whose [retry.retries] is an integer [R >= 0],
    whatever [launch] does and whenever the signal is aborted, every
    attempt number [a] handed to [launch] satisfies [retries - a >= 0],
    which is the value of [retriesLeft] computed when that launch fails,
    and the promise of [runTask] never rejects with the 'Expected retries
    left to be greater than or equal to 0' error. *)
Theorem retriesLeft_never_negative
  (template : Types.TaskTemplate) (firstEvent signalAborted : bool)
  (env : RunTask.Environment) (fuel : nat) (R : Z) :
  Types.persistent template = false ->
  (Types.retries (Types.retry template) == inject_Z R)%Q ->
  (0 <= R)%Z ->
  (RunTask.runTask template firstEvent env signalAborted fuel).2 <> RunTask.RejectedExpectation /\
  Forall (fun a => (0 <= Types.retries (Types.retry template) - inject_Z a)%Q)
         (Trace.attempts (RunTask.runTask template firstEvent env signalAborted fuel).1).
Proof.
  intros Hp HR H0. unfold RunTask.runTask.
  destruct (loop_bounded template firstEvent env R HR fuel (RunTask.enter signalAborted) Hp)
    as [Hc Hf]; [simpl; lia|].
  split; [exact Hc|].
  eapply Forall_impl; [exact Hf|]. intros a Ha. cbn beta in Ha.
  rewrite (retriesLeft_integer _ R a HR).
  change 0%Q with (inject_Z 0). rewrite <- Zle_Qle. exact Ha.
Qed.

(** C9, as worded: refuted. With [retries: 1.5] and launches that all
    reject, [retriesLeft] is 1.5, then 0.5, then -0.5: it never is 0, the
    third launch finds it negative and the promise rejects with the
    expectation error. *)
Lemma expectationUnreachable_refuted : ~ Trace.expectationUnreachable.
Proof.
  intros H.
  apply (H Examples.oneAndAHalfRetries true false Examples.rejecting 3%nat eq_refl).
  - discriminate.
  - reflexivity.
Qed.

Section RetryArithmetic.

Import RunTask.

Local Open Scope Z_scope.

Variable template : Types.TaskTemplate.
Variable firstEvent : bool.
Variable env : Environment.
Variable error : nat -> nat.
Variable R : Z.

Hypothesis not_persistent : Types.persistent template = false.
Hypothesis integer_retries : (Types.retries (Types.retry template) == inject_Z R)%Q.
Hypothesis always_rejects : forall n, launchOutcome env n = LaunchRejects (error n).
Hypothesis no_abort_in_launch : forall n, abortDuringLaunch env n = false.
Hypothesis no_abort_in_delay : forall n, abortDuringDelay env n = false.

Lemma backoffDelay_spec k :
  backoffDelay template k = Trace.specDelay (Types.retry template) k.
Proof.
  unfold backoffDelay, Trace.specDelay.
  destruct (Types.maxTimeout (Types.retry template)); reflexivity.
Qed.



End RetryArithmetic.





Example retry_aborted_in_first_launch :
  RunTask.runTask (Examples.withRetries 3) true Examples.rejectingAbortedInLaunch false 10 =
    ([RunTask.EvLaunch 0 true false], RunTask.Resolved).
Proof. reflexivity. Qed.

Section Cancellation.

Import RunTask.

Local Open Scope Z_scope.

Variable template : Types.TaskTemplate.
Variable firstEvent : bool.
Variable env : Environment.

(** The events of a pass: the wait when [failedAttempts] has become
    positive, then the launch, which is handed the signal as the wait left it. *)
Lemma iteration_events st :
  (iteration template firstEvent env st).1 =
    if 0 <? failedAttempts st + 1
    then [EvDelay (backoffDelay template (failedAttempts st + 1));
          EvLaunch (failedAttempts st + 1) firstEvent
                   (aborted st || abortDuringDelay env (delayed st))]
    else [EvLaunch (failedAttempts st + 1) firstEvent (aborted st)].
Proof.
  unfold iteration.
  destruct (0 <? failedAttempts st + 1);
    destruct (launchOutcome env (launched st)); simpl;
    repeat (match goal with |- context [if ?b then _ else _] => destruct b end; simpl);
    reflexivity.
Qed.

(** The state a pass leaves when the loop goes on. *)
Lemma iteration_continue st st' :
  (iteration template firstEvent env st).2 = Continue st' ->
  if 0 <? failedAttempts st + 1
  then delayed st' = S (delayed st) /\
       aborted st' = aborted st || abortDuringDelay env (delayed st)
                     || abortDuringLaunch env (launched st)
  else delayed st' = delayed st /\
       aborted st' = aborted st || abortDuringLaunch env (launched st).
Proof.
  unfold iteration.
  destruct (0 <? failedAttempts st + 1);
    destruct (launchOutcome env (launched st)); simpl;
    repeat (match goal with |- context [if ?b then _ else _] => destruct b end; simpl);
    intros H; inversion H; subst; simpl; split; reflexivity.
Qed.

Lemma loop_aborted fuel st :
  aborted st = true -> (loop template firstEvent env fuel st).1 = [].
Proof. intros H. destruct fuel; simpl; [reflexivity|]. rewrite H. reflexivity. Qed.

Lemma cancelled_wait (k : nat) (fuel : nat) : forall st (k' : nat) d after,
  abortDuringDelay env k = true ->
  (delayed st + k')%nat = k ->
  Trace.afterDelay k' (loop template firstEvent env fuel st).1 = Some (d, after) ->
  exists a, d = backoffDelay template a /\ after = [EvLaunch a firstEvent true].
Proof.
  induction fuel as [|fuel IH]; intros st k' d after Hk Hd Hafter.
  - simpl in Hafter. discriminate.
  - rewrite loop_unfold in Hafter.
    destruct (aborted st) eqn:Hab; [simpl in Hafter; discriminate|].
    pose proof (iteration_events st) as Hev.
    pose proof (iteration_continue st) as Hnext.
    destruct (iteration template firstEvent env st) as [events next]. simpl in Hev, Hnext.
    assert (Hrest : exists rest,
      Trace.afterDelay k' (events ++ rest) = Some (d, after) /\
      match next with
      | Continue st' => rest = (loop template firstEvent env fuel st').1
      | Settle _ => rest = []
      end).
    { destruct next as [st'|c].
      - destruct (loop template firstEvent env fuel st') as [rest c] eqn:E.
        exists rest. split; [exact Hafter | reflexivity].
      - exists []. rewrite app_nil_r. split; [exact Hafter | reflexivity]. }
    clear Hafter. destruct Hrest as (rest & Hafter & Hrest). subst events.
    destruct (0 <? failedAttempts st + 1).
    + destruct k' as [|k'']; simpl in Hafter.
      * inversion Hafter; subst d after; clear Hafter.
        replace (delayed st) with k in * by lia. rewrite Hk, Hab in *. simpl in *.
        exists (failedAttempts st + 1). split; [reflexivity|].
        destruct next as [st'|c]; [|subst rest; reflexivity].
        destruct (Hnext st' eq_refl) as [_ Hab'].
        rewrite Hrest, (loop_aborted fuel st' Hab'). reflexivity.
      * destruct next as [st'|c]; [|subst rest; simpl in Hafter; discriminate].
        destruct (Hnext st' eq_refl) as [Hd' _]. subst rest.
        apply (IH st' k'' d after Hk); [lia | exact Hafter].
    + simpl in Hafter.
      destruct next as [st'|c]; [|subst rest; simpl in Hafter; discriminate].
      destruct (Hnext st' eq_refl) as [Hd' _]. subst rest.
      apply (IH st' k' d after Hk); [lia | exact Hafter].
Qed.

End Cancellation.

(** C6, as the code has it. The backoff wait takes no abort signal: when
    the signal is aborted while the loop waits its [k]-th delay, the wait
    still is the whole [min(attempt * factor * minTimeout, maxTimeout)], and
    after it [launch] is invoked once more, with the aborted signal;
    nothing follows that launch. *)
Theorem cancelled_delay_launches_once_more
  (template : Types.TaskTemplate) (firstEvent : bool) (env : RunTask.Environment)
  (fuel k : nat) (d : Z) (after : list RunTask.Event) :
  RunTask.abortDuringDelay env k = true ->
  Trace.afterDelay k (RunTask.runTask template firstEvent env false fuel).1 = Some (d, after) ->
  exists a, d = Trace.specDelay (Types.retry template) a /\
            after = [RunTask.EvLaunch a firstEvent true] /\
            RunTask.launches after = 1%nat.
Proof.
  intros Hk Hafter.
  destruct (cancelled_wait template firstEvent env k fuel (RunTask.enter false) k d after
              Hk (Nat.add_0_l k) Hafter)
    as (a & Hd & Ha).
  exists a. subst after. split; [|split; reflexivity].
  rewrite Hd. unfold RunTask.backoffDelay, Trace.specDelay.
  destruct (Types.maxTimeout (Types.retry template)); reflexivity.
Qed.

(** C6, as worded: refuted. With the defaults, a first launch that rejects
    and an abort during the first wait, the loop waits the 2000 ms and
    invokes [launch] again. *)
Lemma cancellationAwareDelay_refuted : ~ Trace.cancellationAwareDelay.
Proof.
  intros H.
  specialize (H (Examples.templateOf true false) true Examples.rejectingThenAborted
                2%nat 0%nat 2000%Z [RunTask.EvLaunch 1 true true] eq_refl eq_refl).
  discriminate H.
Qed.

Section PersistentRelaunch.

Import RunTask.

Local Open Scope Z_scope.

Variable template : Types.TaskTemplate.
Variable firstEvent : bool.
Variable env : Environment.

Hypothesis is_persistent : Types.persistent template = true.

(** A pass keeps count of the launches. *)
Lemma iteration_launched st st' :
  (iteration template firstEvent env st).2 = Continue st' ->
  launched st' = S (launched st).
Proof.
  unfold iteration.
  destruct (0 <? failedAttempts st + 1);
    destruct (launchOutcome env (launched st)); simpl;
    repeat (match goal with |- context [if ?b then _ else _] => destruct b end; simpl);
    intros H; inversion H; subst; reflexivity.
Qed.

(** After a launch that resolved, the loop goes on with [failedAttempts = 0]. *)
Lemma iteration_resolved st :
  launchOutcome env (launched st) = LaunchResolves ->
  exists st', (iteration template firstEvent env st).2 = Continue st' /\
              failedAttempts st' = 0.
Proof.
  intros Hok. unfold iteration. rewrite Hok, is_persistent.
  destruct (0 <? failedAttempts st + 1); simpl; eexists; split; reflexivity.
Qed.

(** What a loop entered with [failedAttempts = 0] begins with. *)
Lemma loop_after_success fuel st :
  failedAttempts st = 0 ->
  (loop template firstEvent env fuel st).1 = [] \/
  exists s rest,
    (loop template firstEvent env fuel st).1 =
      EvDelay (Trace.specDelay (Types.retry template) 1) :: EvLaunch 1 firstEvent s :: rest.
Proof.
  intros Hfa. destruct fuel as [|fuel]; [left; reflexivity|].
  rewrite loop_unfold. destruct (aborted st); [left; reflexivity|]. right.
  pose proof (iteration_events template firstEvent env st) as Hev.
  rewrite Hfa in Hev. change (0 <? 0 + 1) with true in Hev. cbv iota in Hev.
  change (0 + 1) with 1 in Hev.
  assert (Hd : backoffDelay template 1 = Trace.specDelay (Types.retry template) 1).
  { unfold backoffDelay, Trace.specDelay.
    destruct (Types.maxTimeout (Types.retry template)); reflexivity. }
  rewrite Hd in Hev.
  destruct (iteration template firstEvent env st) as [events [st'|c]];
    simpl in Hev; subst events.
  - destruct (loop template firstEvent env fuel st') as [rest c].
    eexists _, rest. reflexivity.
  - eexists _, []. reflexivity.
Qed.

Lemma relaunch_after_success (n : nat) (fuel : nat) : forall st (n' : nat) after,
  launchOutcome env n = LaunchResolves ->
  (launched st + n')%nat = n ->
  Trace.afterLaunch n' (loop template firstEvent env fuel st).1 = Some after ->
  after = [] \/
  exists s rest,
    after = EvDelay (Trace.specDelay (Types.retry template) 1)
            :: EvLaunch 1 firstEvent s :: rest.
Proof.
  induction fuel as [|fuel IH]; intros st n' after Hok Hn Hafter.
  - simpl in Hafter. discriminate.
  - rewrite loop_unfold in Hafter.
    destruct (aborted st) eqn:Hab; [simpl in Hafter; discriminate|].
    pose proof (iteration_events template firstEvent env st) as Hev.
    pose proof (iteration_launched st) as Hl.
    pose proof (iteration_resolved st) as Hres.
    destruct (iteration template firstEvent env st) as [events next]. simpl in Hev, Hl, Hres.
    assert (Hskip : forall rest,
              Trace.afterLaunch n' (events ++ rest) =
                match n' with O => Some rest | S n'' => Trace.afterLaunch n'' rest end).
    { intros rest. subst events. destruct (0 <? failedAttempts st + 1); reflexivity. }
    destruct next as [st'|c].
    + specialize (Hl st' eq_refl).
      destruct (loop template firstEvent env fuel st') as [rest c] eqn:E.
      simpl in Hafter. rewrite Hskip in Hafter.
      destruct n' as [|n''].
      * inversion Hafter; subst after; clear Hafter.
        replace (launched st) with n in Hres by lia.
        destruct (Hres Hok) as (st'' & Hst'' & Hfa). inversion Hst''; subst st''.
        pose proof (loop_after_success fuel st' Hfa) as H. rewrite E in H. exact H.
      * apply (IH st' n'' after Hok); [lia|]. rewrite E. exact Hafter.
    + simpl in Hafter. rewrite <- (app_nil_r events), Hskip in Hafter.
      destruct n' as [|n'']; [|simpl in Hafter; discriminate].
      inversion Hafter. left. reflexivity.
Qed.

End PersistentRelaunch.

(** C2, as the code has it. For a persistent template, when a launch
    resolves the loop sets [failedAttempts] to 0 and goes on; the next pass
    increments it before it looks at it. So, unless the run ends there
    (the signal is aborted), what follows a launch that resolved is the
    wait of [min(1 * factor * minTimeout, maxTimeout)] and then the next
    launch, with [attempt = 1]. *)
Theorem persistent_relaunch_is_delayed
  (template : Types.TaskTemplate) (firstEvent : bool) (env : RunTask.Environment)
  (fuel n : nat) (after : list RunTask.Event) :
  Types.persistent template = true ->
  RunTask.launchOutcome env n = RunTask.LaunchResolves ->
  Trace.afterLaunch n (RunTask.runTask template firstEvent env false fuel).1 = Some after ->
  after = [] \/
  exists s rest,
    after = RunTask.EvDelay (Trace.specDelay (Types.retry template) 1)
            :: RunTask.EvLaunch 1 firstEvent s :: rest.
Proof.
  intros Hp Hok Hafter.
  apply (relaunch_after_success template firstEvent env Hp n fuel
           (RunTask.enter false) n after Hok (Nat.add_0_l n) Hafter).
Qed.

(** C2, as worded: refuted. With the defaults and launches that resolve,
    what follows the first launch is a wait of 2000 ms. *)
Lemma immediateRelaunch_refuted : ~ Trace.immediateRelaunch.
Proof.
  intros H.
  specialize (H (Examples.templateOf true true) true Examples.resolving 2%nat 0%nat
                (RunTask.EvDelay 2000) [RunTask.EvLaunch 1 true false]
                eq_refl eq_refl eq_refl).
  discriminate H.
Qed.

(** ** The manager: properties *)

Section ManagerFacts.

Import Manager ManagerTrace.

Variable template : Types.TaskTemplate.

Lemma queuedCount_app i xs ys :
  queuedCount i (xs ++ ys) = queuedCount i xs + queuedCount i ys.
Proof.
  induction xs as [|o xs IH]; simpl; [reflexivity|].
  destruct (setsQueued i o); simpl; rewrite IH; reflexivity.
Qed.

Lemma isAborted_abort_same i st :
  i < length (tasks st) -> isAborted i (abort i st) = true.
Proof.
  intros Hi. unfold isAborted, abort. simpl.
  rewrite list_lookup_alter_eq.
  destruct (lookup_lt_is_Some_2 _ _ Hi) as [c Hc]. rewrite Hc. reflexivity.
Qed.

Lemma isAborted_abort_mono i j st :
  isAborted j st = true -> isAborted j (abort i st) = true.
Proof.
  unfold isAborted, abort. simpl. intros H.
  destruct (decide (i = j)) as [->|Hne].
  - rewrite list_lookup_alter_eq. destruct (tasks st !! j); [reflexivity | discriminate].
  - rewrite list_lookup_alter_ne by exact Hne. exact H.
Qed.

(** [abort()] on a controller that is aborted already changes nothing. *)
Lemma abort_aborted i st : isAborted i st = true -> abort i st = st.
Proof.
  unfold isAborted, abort. intros H.
  assert (Ht : alter abortCell i (tasks st) = tasks st).
  { apply list_eq. intros j. destruct (decide (i = j)) as [->|Hne].
    - rewrite list_lookup_alter_eq. destruct (tasks st !! j) as [[a s]|]; [|reflexivity].
      simpl in H. subst a. reflexivity.
    - apply list_lookup_alter_ne. exact Hne. }
  rewrite Ht. destruct st; reflexivity.
Qed.

Lemma consistentWith_preserved st st' obs :
  length (tasks st') = length (tasks st) ->
  (forall j, isAborted j st = true -> isAborted j st' = true) ->
  (outerActiveTask st' = outerActiveTask st \/ outerActiveTask st' = None) ->
  consistentWith template st obs -> consistentWith template st' obs.
Proof.
  intros Hlen Hmono Hact (Hc & H1 & H2 & H3).
  assert (Hsub : forall t, outerActiveTask st' = Some t -> outerActiveTask st = Some t).
  { intros t Ht. destruct Hact as [E|E]; rewrite E in Ht; [exact Ht | discriminate]. }
  repeat split.
  - rewrite Hlen. apply (Hc t). auto.
  - intros Hq Hi. apply Hmono. apply (Hc t); auto.
  - exact H1.
  - intros i Hi. apply H2. rewrite <- Hlen. exact Hi.
  - intros t Ht Hq. apply H3; auto.
Qed.

Lemma consistentWith_quiet st pre obs :
  (forall i, queuedCount i obs = 0) ->
  consistentWith template st pre -> consistentWith template st (pre ++ obs).
Proof.
  intros Hq (Hc & H1 & H2 & H3). repeat split; try apply Hc; auto.
  - intros i. rewrite queuedCount_app, Hq, Nat.add_0_r. apply H1.
  - intros i Hi. rewrite queuedCount_app, Hq, Nat.add_0_r. apply H2, Hi.
  - intros t Ht Hqf. rewrite queuedCount_app, Hq, Nat.add_0_r. apply H3; auto.
Qed.

Lemma startTask_consistent data fe st st' pre obs out :
  consistentWith template st pre ->
  startTask template data fe st = (st', obs, out) ->
  consistentWith template st' (pre ++ obs).
Proof.
  intros (Hc & H1 & H2 & H3) Hs. unfold startTask in Hs.
  destruct (outerTeardownInitiated st).
  { inversion Hs; subst. rewrite app_nil_r. repeat split; try apply Hc; auto. }
  inversion Hs; subst; clear Hs.
  assert (Hq : forall i, queuedCount i
             match RunTask.firstAwait template fe (RunTask.enter false) with
             | Some e => [ObsTask (entryId st) (length (tasks st)) data e]
             | None => []
             end = 0).
  { intros i. destruct (RunTask.firstAwait _ _ _); reflexivity. }
  apply consistentWith_quiet; [exact Hq|]. clear Hq.
  split; [|split; [|split]].
  - intros t Ht. cbn in Ht. inversion Ht; subst; cbn.
    split; [rewrite length_app; simpl; lia | discriminate].
  - exact H1.
  - intros i Hi. cbn in Hi. apply H2. rewrite length_app in Hi. simpl in Hi. lia.
  - intros t Ht _. cbn in Ht. inversion Ht; subst; cbn. apply H2. lia.
Qed.

Lemma enqueue_consistent st pre t data fe obs :
  consistentWith template st pre ->
  outerActiveTask st = Some t ->
  queued t = false ->
  (Types.interruptible template = true -> isAborted (id t) st = true) ->
  (forall i, queuedCount i obs = if Nat.eqb (id t) i then 1 else 0) ->
  consistentWith template (enqueue t data fe st) (pre ++ obs).
Proof.
  intros (Hc & H1 & H2 & H3) Ht Hqf Hab Hobs.
  destruct (Hc t Ht) as [Hlt _].
  repeat split; simpl in *.
  - inversion H; subst; simpl. exact Hlt.
  - inversion H; subst; simpl. intros _ Hi. apply Hab, Hi.
  - intros i. rewrite queuedCount_app, Hobs.
    destruct (Nat.eqb_spec (id t) i) as [<-|Hne].
    + rewrite (H3 t Ht Hqf). lia.
    + pose proof (H1 i). lia.
  - intros i Hi. rewrite queuedCount_app, Hobs, (H2 i Hi).
    destruct (Nat.eqb_spec (id t) i); [lia | reflexivity].
  - intros t' Ht' Hq'. inversion Ht'; subst; simpl in Hq'. discriminate.
Qed.

Lemma setsQueued_eqb i j : setsQueued i (ObsQueued j) = Nat.eqb j i.
Proof. reflexivity. Qed.

Lemma updateConfig_consistent data st st' pre obs out :
  consistentWith template st pre ->
  updateConfig template data st = (st', obs, out) ->
  consistentWith template st' (pre ++ obs).
Proof.
  intros Hinv Hu. unfold updateConfig in Hu.
  assert (Hinv0 : consistentWith template (withFirstEvent false st) pre).
  { apply (consistentWith_preserved st); auto. }
  remember (withFirstEvent false st) as st0 eqn:Est0.
  assert (Hact : outerActiveTask st0 = outerActiveTask st) by (subst; reflexivity).
  destruct (outerActiveTask st0) as [t|] eqn:Ht.
  2:{ eapply startTask_consistent; eauto. }
  destruct Hinv0 as (Hc & H123). destruct (Hc t Ht) as [Hlt Hq].
  assert (Hinv0 : consistentWith template st0 pre) by (split; assumption).
  assert (Hinv1 : consistentWith template (abort (id t) st0) pre).
  { apply (consistentWith_preserved st0); auto.
    - unfold abort. simpl. apply length_alter.
    - intros j. apply isAborted_abort_mono. }
  destruct (Types.interruptible template) eqn:Hint.
  - destruct (queued t) eqn:Hqt.
    + inversion Hu; subst st' obs out. apply consistentWith_quiet; [|exact Hinv1].
      intros i. reflexivity.
    + inversion Hu; subst st' obs out. apply enqueue_consistent; auto.
      intros _. apply isAborted_abort_same. exact Hlt.
  - destruct (Types.persistent template).
    { inversion Hu; subst st' obs out. rewrite app_nil_r. exact Hinv0. }
    destruct (queued t) eqn:Hqt.
    + inversion Hu; subst st' obs out. rewrite app_nil_r. exact Hinv0.
    + inversion Hu; subst st' obs out. apply enqueue_consistent; auto.
      rewrite Hint. discriminate.
Qed.

Lemma taskSettles_tasks taskId st :
  tasks (taskSettles taskId st) = alter settleCell taskId (tasks st).
Proof.
  unfold taskSettles. simpl. destruct (outerActiveTask st) as [t|]; simpl;
    [destruct (Nat.eqb taskId (id t))|]; reflexivity.
Qed.

Lemma taskSettles_active taskId st :
  outerActiveTask (taskSettles taskId st) = outerActiveTask st \/
  outerActiveTask (taskSettles taskId st) = None.
Proof.
  unfold taskSettles. simpl. destruct (outerActiveTask st) as [t|] eqn:E; simpl;
    [destruct (Nat.eqb taskId (id t))|]; simpl; rewrite ?E; auto.
Qed.

Lemma taskSettles_consistent taskId st pre :
  consistentWith template st pre ->
  consistentWith template (taskSettles taskId st) pre.
Proof.
  intros Hinv. apply (consistentWith_preserved st); auto.
  - rewrite taskSettles_tasks. apply length_alter.
  - intros j Hj. unfold isAborted in *. rewrite taskSettles_tasks.
    destruct (decide (taskId = j)) as [->|Hne].
    + rewrite list_lookup_alter_eq. destruct (tasks st !! j); [exact Hj | discriminate].
    + rewrite list_lookup_alter_ne by exact Hne. exact Hj.
  - apply taskSettles_active.
Qed.

Lemma teardown_consistent st st' pre obs :
  consistentWith template st pre ->
  teardown template st = (st', obs) ->
  consistentWith template st' (pre ++ obs).
Proof.
  intros Hinv Ht. unfold teardown in Ht.
  destruct (outerTeardownInitiated st).
  { inversion Ht; subst. rewrite app_nil_r. exact Hinv. }
  assert (Hq : forall i, queuedCount i obs = 0).
  { intros i. simpl in Ht. destruct (outerActiveTask st), (Types.teardown template);
      inversion Ht; subst; reflexivity. }
  apply consistentWith_quiet; [exact Hq|].
  assert (Hinv1 : consistentWith template (withTeardownInitiated true st) pre).
  { apply (consistentWith_preserved st); auto. }
  assert (Hst : st' = match outerActiveTask st with
                      | Some t => abort (id t) (withTeardownInitiated true st)
                      | None => withTeardownInitiated true st
                      end).
  { simpl in Ht. destruct (outerActiveTask st), (Types.teardown template);
      inversion Ht; subst; reflexivity. }
  rewrite Hst. destruct (outerActiveTask st) as [t|]; [|exact Hinv1].
  apply (consistentWith_preserved (withTeardownInitiated true st)); auto.
  - unfold abort. simpl. apply length_alter.
  - intros j. apply isAborted_abort_mono.
Qed.

Lemma parentAborts_consistent st pre :
  consistentWith template st pre -> consistentWith template (parentAborts st) pre.
Proof.
  intros Hinv. unfold parentAborts. destruct (parentAborted st); [exact Hinv|].
  apply (consistentWith_preserved st); auto.
  - simpl. apply length_fmap.
  - intros j. unfold isAborted. simpl. rewrite list_lookup_fmap.
    destruct (tasks st !! j); [reflexivity | discriminate].
Qed.

Lemma parentAbortCalls_queued i st : queuedCount i (parentAbortCalls st) = 0.
Proof.
  unfold parentAbortCalls. destruct (parentAborted st); [reflexivity|].
  induction (seq 0 (length (tasks st))) as [|k ids IH]; [reflexivity | exact IH].
Qed.

Lemma step_consistent a st st' pre obs :
  consistentWith template st pre ->
  step template a st = Some (st', obs) ->
  consistentWith template st' (pre ++ obs).
Proof.
  intros Hinv Hs. destruct a as [data| |taskId|taskId|]; simpl in Hs.
  - destruct (updateConfig template data st) as [[st1 obs1] out] eqn:E.
    inversion Hs; subst. eapply updateConfig_consistent; eauto.
  - inversion Hs. eapply teardown_consistent; eauto.
  - destruct (tasks st !! taskId) as [c|]; [|discriminate].
    destruct (settled c); [discriminate|]. inversion Hs; subst.
    rewrite app_nil_r. apply taskSettles_consistent, Hinv.
  - unfold updaterResumes in Hs. destruct (isSettled taskId st); [|discriminate].
    destruct (takeUpdater taskId (updaters st)) as [[u rest]|]; [|discriminate].
    destruct (startTask template (payload u) (first u) (withUpdaters rest st))
      as [[st1 obs1] out] eqn:E.
    inversion Hs; subst. eapply startTask_consistent; [|exact E].
    apply (consistentWith_preserved st); auto.
  - inversion Hs; subst.
    apply consistentWith_quiet; [intros i; apply parentAbortCalls_queued|].
    apply parentAborts_consistent, Hinv.
Qed.

Lemma run_consistent actions : forall st st' pre obs,
  consistentWith template st pre ->
  run template actions st = Some (st', obs) ->
  consistentWith template st' (pre ++ obs).
Proof.
  induction actions as [|a rest IH]; intros st st' pre obs Hinv Hr; simpl in Hr.
  - inversion Hr; subst. rewrite app_nil_r. exact Hinv.
  - destruct (step template a st) as [[st1 obs1]|] eqn:Es; [|discriminate].
    destruct (run template rest st1) as [[st2 obs2]|] eqn:Er; [|discriminate].
    inversion Hr; subst. rewrite app_assoc.
    eapply IH; [|exact Er]. eapply step_consistent; eauto.
Qed.

Lemma initial_consistent entry : consistentWith template (initial entry) [].
Proof.
  repeat split; simpl; try discriminate; auto.
Qed.

End ManagerFacts.

(** C4. In every state a manager can reach, when the active task has its
    [queued] flag set, a further [updateConfig] returns [undefined] at once:
    it starts no task, awaits nothing, sets no flag, and leaves the manager
    as it was but for [outerFirstEvent], which becomes false (in the
    interruptible branch it calls [abort()] again on the controller, which
    is aborted already). And in every run of a manager, the [queued] flag of
    a task is set at most once, whichever branch sets it. *)
Theorem queued_update_is_dropped
  (template : Types.TaskTemplate) (entry : nat) (actions : list Manager.Action)
  (st : Manager.State) (obs : list Manager.Obs) (t : Manager.ActiveTask) (data : nat) :
  Manager.run template actions (Manager.initial entry) = Some (st, obs) ->
  Manager.outerActiveTask st = Some t ->
  Manager.queued t = true ->
  Manager.updateConfig template data st =
    (Manager.withFirstEvent false st,
     if Types.interruptible template then [Manager.ObsAbort (Manager.id t)] else [],
     Manager.ReturnsUndefined) /\
  Forall (fun o => ManagerTrace.startsOrAwaits o = false)
         (Manager.updateConfig template data st).1.2 /\
  (forall taskId, ManagerTrace.queuedCount taskId obs <= 1).
Proof.
  intros Hrun Hact Hq.
  pose proof (run_consistent template actions _ _ [] obs
                (initial_consistent template entry) Hrun) as (Hc & H1 & _).
  simpl in H1.
  assert (Hu : Manager.updateConfig template data st =
    (Manager.withFirstEvent false st,
     if Types.interruptible template then [Manager.ObsAbort (Manager.id t)] else [],
     Manager.ReturnsUndefined)).
  { unfold Manager.updateConfig.
    change (Manager.outerActiveTask (Manager.withFirstEvent false st))
      with (Manager.outerActiveTask st).
    rewrite Hact, Hq.
    destruct (Types.interruptible template) eqn:Hint.
    - rewrite abort_aborted; [reflexivity|].
      change (Manager.isAborted (Manager.id t) st = true).
      apply (Hc t Hact); assumption.
    - destruct (Types.persistent template); reflexivity. }
  split; [exact Hu|]. split; [|exact H1].
  rewrite Hu. simpl. destruct (Types.interruptible template); repeat constructor.
Qed.

(** C7, on the code. Whatever [initialRun] is, the first [updateConfig] of
    a manager starts a task whose retry loop invokes [launch] at once, with
    [attempt = 0] and [first = true]; and the [ready] handler of the
    supervisor, which triggers the pool without looking at the flag, makes
    that call for every defined entry. *)
Theorem first_event_launches
  (template : Types.TaskTemplate) (entry data : nat) :
  (Manager.updateConfig template data (Manager.initial entry)).1.2 =
    [Manager.ObsTask entry 0 data (RunTask.EvLaunch 0 true false)] /\
  (PoolTrace.onReady template false [Some data] Pool.empty).2 =
    [Pool.AtSlot 0 (Manager.ObsTask 0 0 data (RunTask.EvLaunch 0 true false))].
Proof. split; reflexivity. Qed.

Lemma manager_teardown_latched template st :
  Manager.outerTeardownInitiated (Manager.teardown template st).1 = true.
Proof.
  unfold Manager.teardown.
  destruct (Manager.outerTeardownInitiated st) eqn:E; [exact E|].
  simpl. destruct (Manager.outerActiveTask st), (Types.teardown template); reflexivity.
Qed.

Lemma manager_teardown_again template st :
  Manager.teardown template (Manager.teardown template st).1 =
    ((Manager.teardown template st).1, []).
Proof.
  pose proof (manager_teardown_latched template st) as H.
  unfold Manager.teardown at 1. rewrite H. reflexivity.
Qed.

(** ** The pool: properties *)

Section PoolFacts.

Import Pool PoolTrace.

Variable template : Types.TaskTemplate.

Lemma builtByPool_mapSet i m ms :
  Manager.activeTask m = None -> builtByPool ms -> builtByPool (mapSet i m ms).
Proof.
  intros Hm. unfold builtByPool. induction ms as [|[k m'] rest IH]; intros H; simpl.
  - repeat constructor. exact Hm.
  - inversion H; subst. destruct (Nat.eqb k i); constructor; auto.
Qed.

Lemma builtByPool_mapDelete i ms : builtByPool ms -> builtByPool (mapDelete i ms).
Proof.
  unfold builtByPool. induction ms as [|[k m'] rest IH]; intros H; simpl; [constructor|].
  inversion H; subst. destruct (Nat.eqb k i); [assumption | constructor; auto].
Qed.

Lemma builtByPool_mapGet i m ms :
  builtByPool ms -> mapGet i ms = Some m -> Manager.activeTask m = None.
Proof.
  unfold builtByPool. induction ms as [|[k m'] rest IH]; intros H Hg; simpl in Hg;
    [discriminate|].
  inversion H; subst. destruct (Nat.eqb k i); [|auto].
  inversion Hg; subst. assumption.
Qed.

Lemma builtByPool_slotEnter data i ms :
  builtByPool ms -> builtByPool (slotEnter template data i ms).1.1.
Proof.
  intros H. unfold slotEnter.
  destruct (entryAt data i) as [d|]; destruct (mapGet i ms) as [m|] eqn:Hg.
  - destruct (Manager.updateConfig template d (Manager.closure m)) as [[st obs] out].
    simpl. apply builtByPool_mapSet; [|exact H]. simpl. eapply builtByPool_mapGet; eauto.
  - destruct (Manager.updateConfig template d _) as [[st obs] out].
    simpl. apply builtByPool_mapSet; [reflexivity|].
    apply builtByPool_mapSet; [reflexivity | exact H].
  - destruct (Manager.teardown template (Manager.closure m)) as [st obs].
    simpl. apply builtByPool_mapSet; [|exact H]. simpl. eapply builtByPool_mapGet; eauto.
  - exact H.
Qed.

Lemma builtByPool_slotLeave i s ms :
  builtByPool ms -> builtByPool (slotLeave template i s ms).1.
Proof.
  intros H. destruct s as [| |out]; simpl.
  - exact H.
  - apply builtByPool_mapDelete, H.
  - destruct (mapGet i ms) as [m|] eqn:Hg; [|exact H].
    destruct (Manager.finishUpdateConfig template out (Manager.closure m)) as [st obs].
    simpl. apply builtByPool_mapSet; [|exact H]. simpl. eapply builtByPool_mapGet; eauto.
Qed.

Lemma builtByPool_reconcile data todo : forall i ms,
  builtByPool ms -> builtByPool (reconcile template data i todo ms).1.
Proof.
  induction todo as [|todo IH]; intros i ms H; simpl; [exact H|].
  pose proof (builtByPool_slotEnter data i ms H) as H1.
  destruct (slotEnter template data i ms) as [[ms1 obs1] s]. simpl in H1.
  pose proof (builtByPool_slotLeave i s ms1 H1) as H2.
  destruct (slotLeave template i s ms1) as [ms2 obs2]. simpl in H2.
  pose proof (IH (S i) ms2 H2) as H3.
  destruct (reconcile template data (S i) todo ms2) as [ms3 obs3]. exact H3.
Qed.

(** The pool only ever holds records whose [activeTask] field is [null]. *)
Lemma builtByPool_empty : builtByPool Pool.empty.
Proof. constructor. Qed.

Lemma builtByPool_trigger data ms :
  builtByPool ms -> builtByPool (trigger template data ms).1.
Proof. apply builtByPool_reconcile. Qed.

Lemma builtByPool_parentAborts ms :
  builtByPool ms -> builtByPool (parentAborts ms).
Proof.
  unfold builtByPool, parentAborts. intros H. apply Forall_fmap.
  eapply Forall_impl; [exact H|]. intros [k m] Hm. exact Hm.
Qed.

Lemma teardownEach_cons i m rest :
  Manager.activeTask m = None ->
  teardownEach template ((i, m) :: rest) =
    ((i, Manager.onClosure (Manager.teardown template (Manager.closure m)).1 m)
       :: (teardownEach template rest).1,
     (AtSlot i <$> (Manager.teardown template (Manager.closure m)).2)
       ++ (teardownEach template rest).2).
Proof.
  intros Hm. simpl. rewrite Hm.
  destruct (Manager.teardown template (Manager.closure m)) as [st2 obs2].
  destruct (teardownEach template rest) as [rest' obs3]. reflexivity.
Qed.

Lemma builtByPool_teardown ms :
  builtByPool ms -> builtByPool (Pool.teardown template ms).1.
Proof.
  unfold Pool.teardown, builtByPool.
  induction ms as [|[i m] rest IH]; intros H; [constructor|].
  inversion H; subst. rewrite teardownEach_cons by assumption.
  constructor; [assumption | apply IH; assumption].
Qed.

Lemma teardown_awaits_nothing ms :
  builtByPool ms -> Forall (fun o => isAwait o = false) (Pool.teardown template ms).2.
Proof.
  unfold Pool.teardown, builtByPool.
  induction ms as [|[i m] rest IH]; intros H; [constructor|].
  inversion H; subst. rewrite teardownEach_cons by assumption. simpl.
  apply Forall_app. split; [|apply IH; assumption].
  apply Forall_fmap. unfold Manager.teardown.
  destruct (Manager.outerTeardownInitiated (Manager.closure m)); [constructor|].
  simpl. destruct (Manager.outerActiveTask (Manager.closure m)), (Types.teardown template);
    simpl; repeat constructor.
Qed.

Lemma teardown_again ms :
  builtByPool ms ->
  Pool.teardown template (Pool.teardown template ms).1 =
    ((Pool.teardown template ms).1, []).
Proof.
  unfold Pool.teardown, builtByPool.
  induction ms as [|[i m] rest IH]; intros H; [reflexivity|].
  inversion H; subst. rewrite teardownEach_cons by assumption. simpl fst.
  rewrite teardownEach_cons by assumption. simpl Manager.closure.
  rewrite manager_teardown_again, IH by assumption. reflexivity.
Qed.

End PoolFacts.

(** C1, on the code. The record a pool holds for a manager has the
    [activeTask] field it was built with, [null]; so [teardown()] of the
    pool awaits the promise of no task and calls [teardown()] of each
    manager straight away, whether or not the task that manager started
    last has settled. *)
Theorem pool_teardown_awaits_nothing
  (template : Types.TaskTemplate) (ms : Pool.ManagerMap) :
  PoolTrace.builtByPool ms ->
  Forall (fun o => PoolTrace.isAwait o = false) (Pool.teardown template ms).2.
Proof. apply teardown_awaits_nothing. Qed.

(** C8. A second [teardown()] of a manager, in whatever state the first
    was called, observes nothing (no [abort()], no teardown handler) and
    changes nothing; and so does a second [teardown()] of a pool. *)
Theorem teardown_idempotent (template : Types.TaskTemplate) :
  (forall st : Manager.State,
     Manager.teardown template (Manager.teardown template st).1 =
       ((Manager.teardown template st).1, [])) /\
  (forall ms : Pool.ManagerMap,
     PoolTrace.builtByPool ms ->
     Pool.teardown template (Pool.teardown template ms).1 =
       ((Pool.teardown template ms).1, [])).
Proof.
  split; [apply manager_teardown_again | apply teardown_again].
Qed.

Section Reconciliation.

Import Pool PoolTrace.

Variable template : Types.TaskTemplate.

Lemma mapGet_mapSet i j m ms :
  mapGet j (mapSet i m ms) = if Nat.eqb i j then Some m else mapGet j ms.
Proof.
  induction ms as [|[k m'] rest IH]; simpl.
  - reflexivity.
  - destruct (Nat.eqb_spec k i) as [->|Hki]; simpl.
    + destruct (Nat.eqb i j); reflexivity.
    + rewrite IH. destruct (Nat.eqb_spec k j) as [->|Hkj]; [|reflexivity].
      destruct (Nat.eqb_spec i j); [lia | reflexivity].
Qed.

Lemma mapHas_mapSet i j m ms :
  mapHas j (mapSet i m ms) = Nat.eqb i j || mapHas j ms.
Proof. unfold mapHas. rewrite mapGet_mapSet. destruct (Nat.eqb i j); reflexivity. Qed.

Lemma mapGet_fresh k ms : k ∉ mapKeys ms -> mapGet k ms = None.
Proof.
  induction ms as [|[k' m] rest IH]; simpl; intros H; [reflexivity|].
  apply not_elem_of_cons in H as [Hne Hin].
  destruct (Nat.eqb_spec k' k); [congruence | auto].
Qed.

Lemma mapHas_mapDelete i j ms :
  NoDup (mapKeys ms) ->
  mapHas j (mapDelete i ms) = negb (Nat.eqb i j) && mapHas j ms.
Proof.
  unfold mapHas. induction ms as [|[k m] rest IH]; simpl; intros Hnd.
  - rewrite andb_false_r. reflexivity.
  - apply NoDup_cons in Hnd as [Hk Hnd].
    destruct (Nat.eqb_spec k i) as [->|Hki].
    + destruct (Nat.eqb_spec i j) as [->|Hij]; simpl; [|reflexivity].
      rewrite (mapGet_fresh j rest Hk). reflexivity.
    + simpl. destruct (Nat.eqb_spec k j) as [->|Hkj].
      * destruct (Nat.eqb_spec i j); [lia | reflexivity].
      * apply IH, Hnd.
Qed.

Lemma mapKeys_mapSet i m ms :
  mapKeys (mapSet i m ms) = if mapHas i ms then mapKeys ms else mapKeys ms ++ [i].
Proof.
  unfold mapHas. induction ms as [|[k m'] rest IH]; simpl; [reflexivity|].
  destruct (Nat.eqb_spec k i) as [->|Hki]; simpl; [reflexivity|].
  unfold mapKeys in *. rewrite IH. destruct (mapGet i rest); reflexivity.
Qed.

Lemma mapHas_elem i ms : mapHas i ms = true <-> i ∈ mapKeys ms.
Proof.
  unfold mapHas. induction ms as [|[k m] rest IH]; simpl.
  - split; [discriminate | intros H; inversion H].
  - rewrite elem_of_cons. destruct (Nat.eqb_spec k i) as [->|Hki].
    + split; auto.
    + rewrite IH. split; [auto | intros [E|H]; [congruence | exact H]].
Qed.

Lemma NoDup_mapSet i m ms : NoDup (mapKeys ms) -> NoDup (mapKeys (mapSet i m ms)).
Proof.
  intros Hnd. rewrite mapKeys_mapSet. destruct (mapHas i ms) eqn:E; [exact Hnd|].
  apply NoDup_app. split; [exact Hnd|]. split; [|apply NoDup_singleton].
  intros x Hx Hx'. apply list_elem_of_singleton in Hx'. subst x.
  apply mapHas_elem in Hx. congruence.
Qed.

Lemma NoDup_mapDelete i ms : NoDup (mapKeys ms) -> NoDup (mapKeys (mapDelete i ms)).
Proof.
  induction ms as [|[k m] rest IH]; simpl; intros Hnd; [constructor|].
  apply NoDup_cons in Hnd as [Hk Hnd].
  destruct (Nat.eqb_spec k i); simpl; [exact Hnd|].
  apply NoDup_cons. split; [|apply IH, Hnd].
  intros Hin. apply mapHas_elem in Hin.
  rewrite mapHas_mapDelete in Hin by exact Hnd.
  apply andb_true_iff in Hin as [_ Hin]. apply mapHas_elem in Hin. contradiction.
Qed.

(** One pass of the loop at index [i]: afterwards the map has a manager at
    [i] exactly when [data[i]] is defined, and the other indices are as
    they were. *)
Lemma slot_reconciles data i ms :
  NoDup (mapKeys ms) ->
  let ms1 := (slotEnter template data i ms).1.1 in
  let ms2 := (slotLeave template i (slotEnter template data i ms).2 ms1).1 in
  NoDup (mapKeys ms2) /\
  forall j, mapHas j ms2 = if Nat.eqb i j then definedAt data i else mapHas j ms.
Proof.
  intros Hnd. unfold slotEnter, definedAt.
  destruct (entryAt data i) as [d|]; destruct (mapGet i ms) as [m|] eqn:Hg.
  - destruct (Manager.updateConfig template d (Manager.closure m)) as [[st obs] out].
    simpl. rewrite mapGet_mapSet, Nat.eqb_refl.
    destruct (Manager.finishUpdateConfig template out _) as [st' obs']. simpl.
    split; [auto using NoDup_mapSet|].
    intros j. rewrite !mapHas_mapSet. destruct (Nat.eqb i j); reflexivity.
  - destruct (Manager.updateConfig template d _) as [[st obs] out].
    simpl. rewrite mapGet_mapSet, Nat.eqb_refl.
    destruct (Manager.finishUpdateConfig template out _) as [st' obs']. simpl.
    split; [auto using NoDup_mapSet|].
    intros j. rewrite !mapHas_mapSet. destruct (Nat.eqb i j); reflexivity.
  - destruct (Manager.teardown template (Manager.closure m)) as [st obs]. simpl.
    split; [auto using NoDup_mapSet, NoDup_mapDelete|].
    intros j. rewrite mapHas_mapDelete by auto using NoDup_mapSet.
    rewrite mapHas_mapSet. destruct (Nat.eqb i j); reflexivity.
  - simpl. split; [exact Hnd|]. intros j.
    destruct (Nat.eqb_spec i j) as [<-|]; [|reflexivity].
    unfold mapHas. rewrite Hg. reflexivity.
Qed.

Lemma reconcile_reconciles data todo : forall i ms,
  NoDup (mapKeys ms) ->
  NoDup (mapKeys (reconcile template data i todo ms).1) /\
  forall j, mapHas j (reconcile template data i todo ms).1 =
            if (i <=? j) && (j <? i + todo) then definedAt data j else mapHas j ms.
Proof.
  induction todo as [|todo IH]; intros i ms Hnd; simpl.
  - split; [exact Hnd|]. intros j.
    destruct (Nat.leb_spec i j), (Nat.ltb_spec j (i + 0)); simpl; try reflexivity; lia.
  - destruct (slot_reconciles data i ms Hnd) as [Hnd2 Hhas2].
    destruct (slotEnter template data i ms) as [[ms1 obs1] s]. simpl in Hnd2, Hhas2.
    destruct (slotLeave template i s ms1) as [ms2 obs2]. simpl in Hnd2, Hhas2.
    destruct (IH (S i) ms2 Hnd2) as [Hnd3 Hhas3].
    destruct (reconcile template data (S i) todo ms2) as [ms3 obs3]. cbn [fst] in *.
    split; [exact Hnd3|]. intros j. rewrite Hhas3, Hhas2.
    destruct (Nat.eqb_spec i j) as [<-|Hne].
    + destruct (Nat.leb_spec (S i) i); [lia|]. simpl.
      rewrite Nat.leb_refl. destruct (Nat.ltb_spec i (i + S todo)); [reflexivity | lia].
    + destruct (Nat.leb_spec (S i) j), (Nat.leb_spec i j); try lia; simpl;
        destruct (Nat.ltb_spec j (S (i + todo))), (Nat.ltb_spec j (i + S todo));
        try lia; reflexivity.
Qed.

End Reconciliation.

(** The keys of a map stay distinct under [trigger]. *)
Lemma trigger_keys_NoDup
  (template : Types.TaskTemplate) (data : list (option nat)) (ms : Pool.ManagerMap) :
  NoDup (Pool.mapKeys ms) -> NoDup (Pool.mapKeys (Pool.trigger template data ms).1).
Proof.
  intros Hnd. unfold Pool.trigger.
  apply (reconcile_reconciles template data _ 0 ms Hnd).
Qed.

(** C5, on the code. [trigger] visits the indices below
    [max(data.length, managers.size)]: after it, each of them holds a
    manager exactly when [data] has a defined entry there, and every index
    from that bound on is left as it was. The bound is the number of
    managers, not their largest index, so a manager behind a hole can lie
    beyond it and survive. *)
Theorem trigger_reconciles_below_bound
  (template : Types.TaskTemplate) (data : list (option nat)) (ms : Pool.ManagerMap) (j : nat) :
  NoDup (Pool.mapKeys ms) ->
  Pool.mapHas j (Pool.trigger template data ms).1 =
    if j <? Nat.max (length data) (Pool.mapSize ms)
    then Pool.definedAt data j
    else Pool.mapHas j ms.
Proof.
  intros Hnd. unfold Pool.trigger.
  destruct (reconcile_reconciles template data (Nat.max (length data) (Pool.mapSize ms))
              0 ms Hnd) as [_ H].
  rewrite H. reflexivity.
Qed.

(** C10. [defineConfigWatcher(input)] has every property of [input] with
    the value [input] gives it, and no other property but [Watcher]; its
    [Watcher] is [TurboWatcher] when [input] has no such property, and the
    value of [input] when it has one. *)
Theorem defineConfigWatcher_spread (input : gmap string Config.Value) :
  (forall k : string, k <> "Watcher"%string ->
     Config.defineConfigWatcher input !! k = input !! k) /\
  (input !! "Watcher"%string = None ->
     Config.defineConfigWatcher input !! "Watcher"%string
       = Some (Config.VWatcher Config.TurboWatcher)) /\
  (forall v, input !! "Watcher"%string = Some v ->
     Config.defineConfigWatcher input !! "Watcher"%string = Some v).
Proof.
  unfold Config.defineConfigWatcher. repeat split.
  - intros k Hk. rewrite lookup_union, lookup_singleton_ne by congruence.
    destruct (input !! k); reflexivity.
  - intros Hn. rewrite lookup_union, Hn, lookup_singleton_eq. reflexivity.
  - intros v Hv. rewrite lookup_union, Hv, lookup_singleton_eq. reflexivity.
Qed.

(** ** The statements at concrete inputs *)

(** Two retries, the defaults, every launch rejecting. *)
Lemma retriesLeft_never_negative_witness :
  Types.persistent (Examples.withRetries 2) = false /\
  (Types.retries (Types.retry (Examples.withRetries 2)) == inject_Z 2)%Q /\
  (0 <= 2)%Z /\
  (RunTask.runTask (Examples.withRetries 2) true Examples.rejecting false 10).2
    <> RunTask.RejectedExpectation /\
  Forall (fun a => (0 <= Types.retries (Types.retry (Examples.withRetries 2)) - inject_Z a)%Q)
         (Trace.attempts
            (RunTask.runTask (Examples.withRetries 2) true Examples.rejecting false 10).1).
Proof.
  split; [reflexivity|]. split; [reflexivity|]. split; [lia|].
  apply (retriesLeft_never_negative (Examples.withRetries 2) true false Examples.rejecting 10 2).
  - reflexivity.
  - reflexivity.
  - lia.
Defined.


(** No retry: one launch, no wait, the promise rejects. *)
Example no_retry_single_launch :
  RunTask.runTask (Examples.withRetries 0) true Examples.rejecting false 5 =
    ([RunTask.EvLaunch 0 true false], RunTask.RejectedWith 0).
Proof. reflexivity. Qed.

(** A first launch that rejects, and an abort during the wait that follows. *)
Lemma cancelled_delay_launches_once_more_witness :
  RunTask.abortDuringDelay Examples.rejectingThenAborted 0 = true /\
  Trace.afterDelay 0
    (RunTask.runTask (Examples.templateOf true false) true
       Examples.rejectingThenAborted false 5).1
    = Some (2000%Z, [RunTask.EvLaunch 1 true true]) /\
  exists a, 2000%Z = Trace.specDelay (Types.retry (Examples.templateOf true false)) a /\
            [RunTask.EvLaunch 1 true true] = [RunTask.EvLaunch a true true] /\
            RunTask.launches [RunTask.EvLaunch 1 true true] = 1.
Proof.
  split; [reflexivity|]. split; [reflexivity|].
  apply (cancelled_delay_launches_once_more (Examples.templateOf true false) true
           Examples.rejectingThenAborted 5 0 2000%Z [RunTask.EvLaunch 1 true true]);
    reflexivity.
Defined.

(** A persistent template with the defaults whose launches resolve: 2000 ms
    pass between the second launch and the third, which gets attempt 1. *)
Lemma persistent_relaunch_is_delayed_witness :
  Types.persistent (Examples.templateOf true true) = true /\
  RunTask.launchOutcome Examples.resolving 1 = RunTask.LaunchResolves /\
  Trace.afterLaunch 1
    (RunTask.runTask (Examples.templateOf true true) true Examples.resolving false 3).1
    = Some [RunTask.EvDelay 2000; RunTask.EvLaunch 1 true false] /\
  ([RunTask.EvDelay 2000; RunTask.EvLaunch 1 true false] = [] \/
   exists s rest,
     [RunTask.EvDelay 2000; RunTask.EvLaunch 1 true false] =
       RunTask.EvDelay (Trace.specDelay (Types.retry (Examples.templateOf true true)) 1)
       :: RunTask.EvLaunch 1 true s :: rest).
Proof.
  split; [reflexivity|]. split; [reflexivity|]. split; [reflexivity|].
  apply (persistent_relaunch_is_delayed (Examples.templateOf true true) true
           Examples.resolving 3 1 [RunTask.EvDelay 2000; RunTask.EvLaunch 1 true false]);
    reflexivity.
Defined.

(** A third update while the second is queued behind task 0. *)
Lemma queued_update_is_dropped_witness :
  Manager.run (Examples.templateOf true false) Examples.burst (Manager.initial 0) =
    Some (Examples.afterBurst,
          [Manager.ObsTask 0 0 1 (RunTask.EvLaunch 0 true false);
           Manager.ObsAbort 0; Manager.ObsQueued 0; Manager.ObsAwait 0]) /\
  Manager.updateConfig (Examples.templateOf true false) 3 Examples.afterBurst =
    (Examples.afterBurst, [Manager.ObsAbort 0], Manager.ReturnsUndefined).
Proof.
  split; [reflexivity|].
  apply (queued_update_is_dropped (Examples.templateOf true false) 0 Examples.burst
           Examples.afterBurst
           [Manager.ObsTask 0 0 1 (RunTask.EvLaunch 0 true false);
            Manager.ObsAbort 0; Manager.ObsQueued 0; Manager.ObsAwait 0]
           {| Manager.id := 0; Manager.queued := true |} 3);
    reflexivity.
Defined.

(** The same burst on a template that is not interruptible: the third
    update is dropped without any call of [abort()]; once task 0 has
    settled, the queued update goes on and launches with its own data. *)
Example queued_update_is_dropped_waiting :
  Manager.run Examples.waiting Examples.burst (Manager.initial 0) =
    Some (Examples.afterBurstWaiting,
          [Manager.ObsTask 0 0 1 (RunTask.EvLaunch 0 true false);
           Manager.ObsQueued 0; Manager.ObsAwait 0]) /\
  Manager.updateConfig Examples.waiting 3 Examples.afterBurstWaiting =
    (Examples.afterBurstWaiting, [], Manager.ReturnsUndefined) /\
  snd <$> Manager.run Examples.waiting
            [Manager.CallUpdateConfig 3; Manager.TaskSettles 0; Manager.UpdaterResumes 0]
            Examples.afterBurstWaiting =
    Some [Manager.ObsTask 0 1 2 (RunTask.EvLaunch 0 false false)].
Proof. repeat split; reflexivity. Qed.

(** Shutdown while the task of slot 0 is running: the pool calls the
    manager's [teardown()], which aborts the task and runs the handler,
    and awaits no promise; the task has not settled. *)
Lemma pool_teardown_awaits_nothing_witness :
  PoolTrace.builtByPool Examples.shuttingDown /\
  Forall (fun o => PoolTrace.isAwait o = false)
         (Pool.teardown (Examples.templateOf true false) Examples.shuttingDown).2.
Proof.
  assert (H : PoolTrace.builtByPool Examples.shuttingDown) by (repeat constructor).
  split; [exact H|].
  apply (pool_teardown_awaits_nothing (Examples.templateOf true false)
           Examples.shuttingDown H).
Defined.

Example pool_teardown_before_task_settles :
  (exists m, Pool.mapGet 0 Examples.shuttingDown = Some m /\
     Manager.outerActiveTask (Manager.closure m)
       = Some {| Manager.id := 0; Manager.queued := false |} /\
     Manager.isSettled 0 (Manager.closure m) = false /\
     Manager.activeTask m = None) /\
  (Pool.teardown (Examples.templateOf true false) Examples.shuttingDown).2 =
    [Pool.AtSlot 0 (Manager.ObsAbort 0); Pool.AtSlot 0 Manager.ObsTeardownHook] /\
  (exists m, Pool.mapGet 0
       (Pool.teardown (Examples.templateOf true false) Examples.shuttingDown).1 = Some m /\
     Manager.isSettled 0 (Manager.closure m) = false).
Proof.
  split; [|split; [reflexivity|]]; eexists; repeat split; reflexivity.
Qed.

(** A second teardown of the pool that is shutting down. *)
Lemma teardown_idempotent_witness :
  PoolTrace.builtByPool Examples.shuttingDown /\
  Pool.teardown (Examples.templateOf true false)
    (Pool.teardown (Examples.templateOf true false) Examples.shuttingDown).1 =
    ((Pool.teardown (Examples.templateOf true false) Examples.shuttingDown).1, []) /\
  Manager.teardown (Examples.templateOf true false)
    (Manager.teardown (Examples.templateOf true false) Examples.afterBurst).1 =
    ((Manager.teardown (Examples.templateOf true false) Examples.afterBurst).1, []).
Proof.
  assert (H : PoolTrace.builtByPool Examples.shuttingDown) by (repeat constructor).
  split; [exact H|]. split.
  - apply (proj2 (teardown_idempotent (Examples.templateOf true false))
             Examples.shuttingDown H).
  - apply (proj1 (teardown_idempotent (Examples.templateOf true false))
             Examples.afterBurst).
Defined.

(** After data [7, undefined, 9] the pool holds managers 0 and 2; data [7]
    then gives the bound [max(1, 2) = 2], index 2 is not visited, and its
    manager stays although [data[2]] is undefined. *)
Lemma trigger_reconciles_below_bound_witness :
  NoDup (Pool.mapKeys Examples.sparse) /\
  Pool.definedAt [Some 7] 2 = false /\
  Pool.mapHas 2 (Pool.trigger (Examples.templateOf true false) [Some 7] Examples.sparse).1
    = true.
Proof.
  assert (H : NoDup (Pool.mapKeys Examples.sparse)).
  { apply (bool_decide_unpack _). vm_compute. exact I. }
  split; [exact H|]. split; [reflexivity|].
  exact (trigger_reconciles_below_bound (Examples.templateOf true false) [Some 7]
           Examples.sparse 2 H).
Defined.

Example trigger_leaves_manager_behind_hole :
  Pool.mapKeys Examples.sparse = [0; 2] /\
  Pool.mapKeys (Pool.trigger (Examples.templateOf true false) [Some 7] Examples.sparse).1
    = [0; 2].
Proof. split; reflexivity. Qed.

(** Without holes the same shrinking leaves slot 0 alone. *)
Example trigger_shrinks_dense_data :
  Pool.mapKeys
    (Pool.trigger (Examples.templateOf true false) [Some 7]
       (Pool.trigger (Examples.templateOf true false) [Some 7; Some 8; Some 9] Pool.empty).1).1
    = [0].
Proof. reflexivity. Qed.

(** With [initialRun = false] the first event launches all the same. *)
Example first_event_launches_without_initialRun :
  Types.initialRun (Examples.templateOf false false) = false /\
  (PoolTrace.onReady (Examples.templateOf false false) false [Some 7] Pool.empty).2 =
    [Pool.AtSlot 0 (Manager.ObsTask 0 0 7 (RunTask.EvLaunch 0 true false))].
Proof. split; reflexivity. Qed.

(** An input without [Watcher], and one that names another watcher. *)
Lemma defineConfigWatcher_spread_witness :
  ("configPath"%string <> "Watcher"%string /\
   Config.defineConfigWatcher Examples.plainInput !! "configPath"%string
     = Examples.plainInput !! "configPath"%string) /\
  (Examples.plainInput !! "Watcher"%string = None /\
   Config.defineConfigWatcher Examples.plainInput !! "Watcher"%string
     = Some (Config.VWatcher Config.TurboWatcher)) /\
  (Examples.chokidarInput !! "Watcher"%string
     = Some (Config.VWatcher Config.ChokidarWatcher) /\
   Config.defineConfigWatcher Examples.chokidarInput !! "Watcher"%string
     = Some (Config.VWatcher Config.ChokidarWatcher)).
Proof.
  assert (H1 : "configPath"%string <> "Watcher"%string) by discriminate.
  assert (H2 : Examples.plainInput !! "Watcher"%string = None) by reflexivity.
  assert (H3 : Examples.chokidarInput !! "Watcher"%string
               = Some (Config.VWatcher Config.ChokidarWatcher)) by reflexivity.
  split; [split; [exact H1|]|split; [split; [exact H2|]|split; [exact H3|]]].
  - apply (proj1 (defineConfigWatcher_spread Examples.plainInput) _ H1).
  - apply (proj1 (proj2 (defineConfigWatcher_spread Examples.plainInput)) H2).
  - apply (proj2 (proj2 (defineConfigWatcher_spread Examples.chokidarInput)) _ H3).
Defined.

(** A property that is present with the value [undefined] counts as
    present: the spread copies it over the default. *)
Example defineConfigWatcher_explicit_undefined :
  Config.defineConfigWatcher {[ "Watcher"%string := Config.VUndefined ]} !! "Watcher"%string
    = Some Config.VUndefined.
Proof. reflexivity. Qed.

(** ** More on the retry loop *)

Section LoopShape.

Import RunTask.

Local Open Scope Z_scope.

Variable template : Types.TaskTemplate.
Variable firstEvent : bool.
Variable env : Environment.

(** A pass never lets [failedAttempts] fall below 0. *)
Lemma iteration_counter st st' :
  -1 <= failedAttempts st ->
  (iteration template firstEvent env st).2 = Continue st' ->
  0 <= failedAttempts st'.
Proof.
  intros Hfa. unfold iteration.
  destruct (0 <? failedAttempts st + 1);
    destruct (launchOutcome env (launched st)); simpl;
    repeat (match goal with |- context [if ?b then _ else _] => destruct b end; simpl);
    intros H; inversion H; subst; simpl; lia.
Qed.

Lemma paced_pass st rest :
  -1 <= failedAttempts st ->
  Pacing.paced (Types.retry template) firstEvent
    ((iteration template firstEvent env st).1 ++ rest) =
  Pacing.paced (Types.retry template) firstEvent rest.
Proof.
  intros Hfa. rewrite iteration_events.
  destruct (Z.ltb_spec 0 (failedAttempts st + 1)) as [Hpos|Hzero].
  - cbn [app Pacing.paced].
    rewrite (backoffDelay_spec template), Z.eqb_refl, Bool.eqb_reflx.
    destruct (Z.leb_spec 1 (failedAttempts st + 1)); [reflexivity | lia].
  - cbn [app Pacing.paced].
    replace (failedAttempts st + 1) with 0 by lia. rewrite Bool.eqb_reflx. reflexivity.
Qed.

Lemma loop_paced fuel : forall st,
  -1 <= failedAttempts st ->
  Pacing.paced (Types.retry template) firstEvent
    (loop template firstEvent env fuel st).1 = true.
Proof.
  induction fuel as [|fuel IH]; intros st Hfa; [reflexivity|].
  rewrite loop_unfold. destruct (aborted st); [reflexivity|].
  pose proof (paced_pass st) as Hp. pose proof (iteration_counter st) as Hc.
  destruct (iteration template firstEvent env st) as [events [st'|c]]; simpl in *.
  - specialize (IH st' ltac:(specialize (Hc st' Hfa eq_refl); lia)).
    destruct (loop template firstEvent env fuel st') as [rest c]. simpl in *.
    rewrite Hp by exact Hfa. exact IH.
  - specialize (Hp [] Hfa). rewrite app_nil_r in Hp. rewrite Hp. reflexivity.
Qed.

Lemma delays_app xs ys : delays (xs ++ ys) = delays xs ++ delays ys.
Proof. unfold delays. apply omap_app. Qed.

Lemma loop_delays_capped fuel : forall st,
  Forall (fun d => d <= nullish (Types.maxTimeout (Types.retry template)) 30000)
         (delays (loop template firstEvent env fuel st).1).
Proof.
  induction fuel as [|fuel IH]; intros st; [constructor|].
  rewrite loop_unfold. destruct (aborted st); [constructor|].
  pose proof (iteration_events template firstEvent env st) as Hev.
  assert (Hpass : Forall (fun d => d <= nullish (Types.maxTimeout (Types.retry template)) 30000)
                         (delays (iteration template firstEvent env st).1)).
  { rewrite Hev. destruct (0 <? failedAttempts st + 1); cbn; repeat constructor.
    rewrite (backoffDelay_spec template). unfold Trace.specDelay. apply Z.le_min_r. }
  destruct (iteration template firstEvent env st) as [events [st'|c]]; simpl in *.
  - specialize (IH st'). destruct (loop template firstEvent env fuel st') as [rest c].
    simpl in *. rewrite delays_app. apply Forall_app. split; assumption.
  - exact Hpass.
Qed.

End LoopShape.

(** X1. Whatever [launch] does and whenever the signal is aborted, the
    events of [runTask] come in passes: a launch with attempt 0 has no wait
    before it, a launch with attempt [a >= 1] comes right after a wait of
    [min(a * factor * minTimeout, maxTimeout)], every launch is handed the
    same [first], and no wait is longer than [maxTimeout] (30000 if unset). *)
Theorem runTask_paced
  (template : Types.TaskTemplate) (firstEvent signalAborted : bool)
  (env : RunTask.Environment) (fuel : nat) :
  Pacing.paced (Types.retry template) firstEvent
    (RunTask.runTask template firstEvent env signalAborted fuel).1 = true /\
  Forall (fun d => (d <= nullish (Types.maxTimeout (Types.retry template)) 30000)%Z)
         (RunTask.delays (RunTask.runTask template firstEvent env signalAborted fuel).1).
Proof.
  unfold RunTask.runTask. split.
  - apply loop_paced. simpl. lia.
  - apply loop_delays_capped.
Qed.

Section LaunchCount.

Import RunTask.

Local Open Scope Z_scope.

Variable template : Types.TaskTemplate.
Variable firstEvent : bool.
Variable env : Environment.

Lemma launches_attempts events : launches events = length (Trace.attempts events).
Proof.
  unfold launches, Trace.attempts.
  induction events as [|[d|a f s] events IH]; simpl; [reflexivity | exact IH |].
  f_equal. exact IH.
Qed.

(** Without persistence the loop only goes on after a failure, with the
    counter one higher. *)
Lemma iteration_counts_up st st' :
  Types.persistent template = false ->
  (iteration template firstEvent env st).2 = Continue st' ->
  failedAttempts st' = failedAttempts st + 1.
Proof.
  intros Hp. unfold iteration. rewrite Hp.
  destruct (0 <? failedAttempts st + 1);
    destruct (launchOutcome env (launched st)); simpl;
    repeat (match goal with |- context [if ?b then _ else _] => destruct b end; simpl);
    intros H; inversion H; subst; reflexivity.
Qed.

Lemma loop_attempts_count_up fuel : forall st (j : nat),
  Types.persistent template = false ->
  failedAttempts st = Z.of_nat j - 1 ->
  Trace.attempts (loop template firstEvent env fuel st).1 =
    Pacing.countingFrom j (launches (loop template firstEvent env fuel st).1).
Proof.
  induction fuel as [|fuel IH]; intros st j Hp Hfa; [reflexivity|].
  rewrite loop_unfold. destruct (aborted st); [reflexivity|].
  pose proof (iteration_attempts template firstEvent env st) as Ha.
  pose proof (iteration_counts_up st) as Hc.
  destruct (iteration template firstEvent env st) as [events [st'|c]]; simpl in *.
  - specialize (Hc st' Hp eq_refl).
    specialize (IH st' (S j) Hp ltac:(lia)).
    destruct (loop template firstEvent env fuel st') as [rest c]. simpl in *.
    rewrite attempts_app, Ha, IH, !launches_attempts, attempts_app, Ha, length_app.
    simpl. rewrite <- launches_attempts. unfold Pacing.countingFrom. simpl.
    f_equal. lia.
  - rewrite Ha, launches_attempts, Ha. simpl. unfold Pacing.countingFrom. simpl.
    f_equal. lia.
Qed.

Lemma countingFrom_last (n : nat) R :
  0 <= R ->
  Forall (fun a => 0 <= R - a) (Pacing.countingFrom 0 n) -> Z.of_nat n <= R + 1.
Proof.
  intros HR H. destruct n as [|n]; [simpl; lia|].
  rewrite Forall_forall in H.
  specialize (H (Z.of_nat n)).
  assert (Hin : Z.of_nat n ∈ Pacing.countingFrom 0 (S n)).
  { unfold Pacing.countingFrom. apply list_elem_of_fmap. exists n. split; [reflexivity|].
    apply elem_of_seq. lia. }
  specialize (H Hin). lia.
Qed.

End LaunchCount.

(** X2. Without persistence and with [retries] an integer [R >= 0],
    whatever [launch] does and whenever the signal is aborted, [runTask]
    invokes [launch] at most [R + 1] times, with the attempts 0, 1, 2, ...
    in order. *)
Theorem runTask_launches_bounded
  (template : Types.TaskTemplate) (firstEvent signalAborted : bool)
  (env : RunTask.Environment) (fuel : nat) (R : Z) :
  Types.persistent template = false ->
  (Types.retries (Types.retry template) == inject_Z R)%Q ->
  (0 <= R)%Z ->
  (Z.of_nat (RunTask.launches (RunTask.runTask template firstEvent env signalAborted fuel).1)
     <= R + 1)%Z /\
  Trace.attempts (RunTask.runTask template firstEvent env signalAborted fuel).1 =
    Pacing.countingFrom 0
      (RunTask.launches (RunTask.runTask template firstEvent env signalAborted fuel).1).
Proof.
  intros Hp HR H0. unfold RunTask.runTask.
  pose proof (loop_attempts_count_up template firstEvent env fuel
                (RunTask.enter signalAborted) 0 Hp eq_refl) as Hcount.
  split; [|exact Hcount].
  apply countingFrom_last; [exact H0|]. rewrite <- Hcount.
  apply (loop_bounded template firstEvent env R HR); [exact Hp | simpl; lia].
Qed.

(** With [retries: 1.5] the bound does not hold: three launches. *)
Example fractional_retries_launch_thrice :
  RunTask.runTask Examples.oneAndAHalfRetries true Examples.rejecting false 10 =
    ([RunTask.EvLaunch 0 true false; RunTask.EvDelay 2000; RunTask.EvLaunch 1 true false;
      RunTask.EvDelay 4000; RunTask.EvLaunch 2 true false],
     RunTask.RejectedExpectation).
Proof. reflexivity. Qed.

Section Persistent.

Import RunTask.

Local Open Scope Z_scope.

Variable template : Types.TaskTemplate.
Variable firstEvent : bool.
Variable env : Environment.

Hypothesis is_persistent : Types.persistent template = true.

(** A pass of a persistent task only ends the loop on an [AbortError] and
    on a rejection with [null] or [undefined]. *)
Lemma iteration_persistent st :
  match (iteration template firstEvent env st).2 with
  | Settle c =>
      (c = Resolved /\ launchOutcome env (launched st) = LaunchAbortError) \/
      (c = RejectedTypeError /\ launchOutcome env (launched st) = LaunchRejectsNullish)
  | Continue st' =>
      launched st' = S (launched st) /\
      aborted st' = aborted st
                    || (if 0 <? failedAttempts st + 1 then abortDuringDelay env (delayed st)
                        else false)
                    || abortDuringLaunch env (launched st) /\
      (forall e, launchOutcome env (launched st) = LaunchRejects e ->
                 failedAttempts st' = failedAttempts st + 1)
  end.
Proof.
  unfold iteration. rewrite is_persistent.
  destruct (0 <? failedAttempts st + 1);
    destruct (launchOutcome env (launched st)); simpl;
    try (left; split; reflexivity); try (right; split; reflexivity);
    repeat split; try reflexivity; try discriminate;
    rewrite ?orb_false_r; reflexivity.
Qed.

(** The promise of a persistent task rejects with nothing but the
    [TypeError], and with it only when a launch rejected with [null] or
    [undefined]. *)
Lemma loop_persistent_settles fuel : forall st,
  match (loop template firstEvent env fuel st).2 with
  | RejectedWith _ | RejectedExpectation => False
  | RejectedTypeError => exists n, launchOutcome env n = LaunchRejectsNullish
  | Resolved | Pending => True
  end.
Proof.
  induction fuel as [|fuel IH]; intros st; [exact I|].
  rewrite loop_unfold. destruct (aborted st); [exact I|].
  pose proof (iteration_persistent st) as Hit.
  destruct (iteration template firstEvent env st) as [events [st'|c]]; simpl in *.
  - specialize (IH st'). destruct (loop template firstEvent env fuel st'). exact IH.
  - destruct Hit as [[-> _]|[-> Hn]]; [exact I|]. exists (launched st). exact Hn.
Qed.

Lemma launches_app xs ys : launches (xs ++ ys) = (launches xs + launches ys)%nat.
Proof. rewrite !launches_attempts, attempts_app, length_app. reflexivity. Qed.

Lemma iteration_launches st : launches (iteration template firstEvent env st).1 = 1%nat.
Proof.
  rewrite launches_attempts, (iteration_attempts template firstEvent env st). reflexivity.
Qed.

Hypothesis no_abort_error : forall n, launchOutcome env n <> LaunchAbortError.
Hypothesis no_nullish : forall n, launchOutcome env n <> LaunchRejectsNullish.
Hypothesis no_abort_in_launch : forall n, abortDuringLaunch env n = false.
Hypothesis no_abort_in_delay : forall n, abortDuringDelay env n = false.

Lemma loop_persistent_runs fuel : forall st,
  aborted st = false ->
  (loop template firstEvent env fuel st).2 = Pending /\
  launches (loop template firstEvent env fuel st).1 = fuel.
Proof.
  induction fuel as [|fuel IH]; intros st Hab; [split; reflexivity|].
  rewrite loop_unfold, Hab.
  pose proof (iteration_persistent st) as Hit.
  pose proof (iteration_launches st) as Hl.
  destruct (iteration template firstEvent env st) as [events [st'|c]]; simpl in *.
  - destruct Hit as (_ & Hab' & _).
    rewrite Hab, no_abort_in_launch, no_abort_in_delay in Hab'.
    assert (Hst' : aborted st' = false).
    { rewrite Hab'. destruct (0 <? failedAttempts st + 1); reflexivity. }
    destruct (IH st' Hst') as [Hc Hn].
    destruct (loop template firstEvent env fuel st') as [rest c]. simpl in *.
    split; [exact Hc|]. rewrite launches_app, Hl, Hn. reflexivity.
  - exfalso. destruct Hit as [[_ Hae]|[_ Hn]];
      [exact (no_abort_error _ Hae) | exact (no_nullish _ Hn)].
Qed.

Hypothesis always_rejects : forall n, exists e, launchOutcome env n = LaunchRejects e.

Lemma loop_persistent_backoff fuel : forall st (j : nat),
  aborted st = false ->
  failedAttempts st = Z.of_nat j - 1 ->
  Trace.attempts (loop template firstEvent env fuel st).1 = Pacing.countingFrom j fuel.
Proof.
  induction fuel as [|fuel IH]; intros st j Hab Hfa; [reflexivity|].
  rewrite loop_unfold, Hab.
  pose proof (iteration_persistent st) as Hit.
  pose proof (iteration_attempts template firstEvent env st) as Ha.
  destruct (iteration template firstEvent env st) as [events [st'|c]]; simpl in *.
  - destruct Hit as (_ & Hab' & Hfa').
    rewrite Hab, no_abort_in_launch, no_abort_in_delay in Hab'.
    assert (Hst' : aborted st' = false).
    { rewrite Hab'. destruct (0 <? failedAttempts st + 1); reflexivity. }
    destruct (always_rejects (launched st)) as [e He].
    specialize (Hfa' e He).
    specialize (IH st' (S j) Hst' ltac:(lia)).
    destruct (loop template firstEvent env fuel st') as [rest c]. simpl in *.
    rewrite attempts_app, Ha, IH. unfold Pacing.countingFrom. simpl. f_equal. lia.
  - exfalso. destruct Hit as [[_ Hae]|[_ Hn]];
      [exact (no_abort_error _ Hae) | exact (no_nullish _ Hn)].
Qed.

End Persistent.

(** X3. The promise of [runTask] for a persistent template never rejects
    with an error of [launch] nor with the expectation error, whatever
    [launch] does: errors of [launch] are retried, [retries] is not looked
    at. The one rejection left is the [TypeError] of reading [error.name]
    when a launch rejects with [null] or [undefined]; when no launch does,
    the promise does not reject at all. *)
Theorem runTask_persistent_never_rejects
  (template : Types.TaskTemplate) (firstEvent signalAborted : bool)
  (env : RunTask.Environment) (fuel : nat) :
  Types.persistent template = true ->
  ((RunTask.runTask template firstEvent env signalAborted fuel).2
     <> RunTask.RejectedExpectation /\
   forall e, (RunTask.runTask template firstEvent env signalAborted fuel).2
               <> RunTask.RejectedWith e) /\
  ((RunTask.runTask template firstEvent env signalAborted fuel).2 = RunTask.RejectedTypeError ->
   exists n, RunTask.launchOutcome env n = RunTask.LaunchRejectsNullish) /\
  ((forall n, RunTask.launchOutcome env n <> RunTask.LaunchRejectsNullish) ->
   Pacing.rejected (RunTask.runTask template firstEvent env signalAborted fuel).2 = false).
Proof.
  intros Hp. unfold RunTask.runTask.
  pose proof (loop_persistent_settles template firstEvent env Hp fuel
                (RunTask.enter signalAborted)) as H.
  destruct (RunTask.loop template firstEvent env fuel (RunTask.enter signalAborted)).2
    eqn:E; cbn [Pacing.rejected].
  all: repeat split; try discriminate; try (intros; discriminate); try contradiction;
    try reflexivity.
  - intros _. exact H.
  - intros Hn. destruct H as [n H]. exfalso. exact (Hn n H).
Qed.

(** X4. A persistent task ends by cancellation or by a launch that rejects
    with [null] or [undefined], and by nothing else: while nobody aborts
    the signal and no [launch] rejects with an [AbortError] or with [null]
    or [undefined], the loop keeps launching, one launch per pass, and its
    promise stays pending. *)
Theorem runTask_persistent_runs_until_cancelled
  (template : Types.TaskTemplate) (firstEvent : bool)
  (env : RunTask.Environment) (fuel : nat) :
  Types.persistent template = true ->
  (forall n, RunTask.launchOutcome env n <> RunTask.LaunchAbortError) ->
  (forall n, RunTask.launchOutcome env n <> RunTask.LaunchRejectsNullish) ->
  (forall n, RunTask.abortDuringLaunch env n = false) ->
  (forall n, RunTask.abortDuringDelay env n = false) ->
  (RunTask.runTask template firstEvent env false fuel).2 = RunTask.Pending /\
  RunTask.launches (RunTask.runTask template firstEvent env false fuel).1 = fuel.
Proof.
  intros Hp Hae Hnn Hal Had. unfold RunTask.runTask.
  apply loop_persistent_runs; auto.
Qed.

(** X5. A persistent task whose launches all reject is retried for ever
    with a growing backoff: the attempts are 0, 1, 2, ... without end,
    whatever [retries] is (each attempt [a >= 1] after its wait of
    [min(a * factor * minTimeout, maxTimeout)]). *)
Theorem runTask_persistent_backoff_grows
  (template : Types.TaskTemplate) (firstEvent : bool)
  (env : RunTask.Environment) (fuel : nat) :
  Types.persistent template = true ->
  (forall n, exists e, RunTask.launchOutcome env n = RunTask.LaunchRejects e) ->
  (forall n, RunTask.abortDuringLaunch env n = false) ->
  (forall n, RunTask.abortDuringDelay env n = false) ->
  Trace.attempts (RunTask.runTask template firstEvent env false fuel).1 =
    Pacing.countingFrom 0 fuel.
Proof.
  intros Hp Hrej Hal Had. unfold RunTask.runTask.
  apply (loop_persistent_backoff template firstEvent env Hp); auto.
  - intros n Hae. destruct (Hrej n) as [e He]. congruence.
  - intros n Hn. destruct (Hrej n) as [e He]. congruence.
Qed.

Section Stops.

Import RunTask.

Local Open Scope Z_scope.

Variable template : Types.TaskTemplate.
Variable firstEvent : bool.
Variable env : Environment.

Lemma iteration_launched_any st st' :
  (iteration template firstEvent env st).2 = Continue st' ->
  launched st' = S (launched st).
Proof.
  unfold iteration.
  destruct (0 <? failedAttempts st + 1);
    destruct (launchOutcome env (launched st)); simpl;
    repeat (match goal with |- context [if ?b then _ else _] => destruct b end; simpl);
    intros H; inversion H; subst; reflexivity.
Qed.

(** The launches after which the loop returns: one that rejects with an
    [AbortError], and, without persistence, one that resolves. *)
Lemma iteration_stops st :
  launchOutcome env (launched st) = LaunchAbortError \/
  (launchOutcome env (launched st) = LaunchResolves /\ Types.persistent template = false) ->
  (iteration template firstEvent env st).2 = Settle Resolved.
Proof.
  unfold iteration. intros [H|[H Hp]]; rewrite H, ?Hp;
    destruct (0 <? failedAttempts st + 1); reflexivity.
Qed.

Lemma afterLaunch_pass st (n' : nat) rest :
  Trace.afterLaunch n' ((iteration template firstEvent env st).1 ++ rest) =
    match n' with O => Some rest | S n'' => Trace.afterLaunch n'' rest end.
Proof.
  rewrite iteration_events. destruct (0 <? failedAttempts st + 1); reflexivity.
Qed.

Lemma loop_stops (n : nat) (fuel : nat) : forall st (n' : nat) after,
  launchOutcome env n = LaunchAbortError \/
  (launchOutcome env n = LaunchResolves /\ Types.persistent template = false) ->
  (launched st + n')%nat = n ->
  Trace.afterLaunch n' (loop template firstEvent env fuel st).1 = Some after ->
  after = [] /\ (loop template firstEvent env fuel st).2 = Resolved.
Proof.
  induction fuel as [|fuel IH]; intros st n' after Hout Hn Hafter.
  - simpl in Hafter. discriminate.
  - rewrite loop_unfold in Hafter |- *.
    destruct (aborted st) eqn:Hab; [simpl in Hafter; discriminate|].
    pose proof (afterLaunch_pass st n') as Hskip.
    pose proof (iteration_stops st) as Hstop.
    pose proof (iteration_launched_any st) as Hl.
    destruct (iteration template firstEvent env st) as [events [st'|c]]; simpl in *.
    + specialize (Hl st' eq_refl).
      destruct (loop template firstEvent env fuel st') as [rest c] eqn:E.
      simpl in Hafter. rewrite Hskip in Hafter.
      destruct n' as [|n''].
      * replace (launched st) with n in Hstop by lia.
        specialize (Hstop Hout). discriminate.
      * pose proof (IH st' n'' after Hout ltac:(lia)) as H. rewrite E in H.
        apply H. exact Hafter.
    + rewrite <- (app_nil_r events), Hskip in Hafter.
      destruct n' as [|n'']; [|simpl in Hafter; discriminate].
      inversion Hafter; subst after.
      replace (launched st) with n in Hstop by lia.
      specialize (Hstop Hout). inversion Hstop. split; reflexivity.
Qed.

End Stops.

(** X6. [runTask] returns after a launch that rejects with an [AbortError]
    and, without persistence, after a launch that resolves: nothing follows
    that launch (no wait, no retry) and the promise resolves. *)
Theorem runTask_stops
  (template : Types.TaskTemplate) (firstEvent : bool) (env : RunTask.Environment)
  (fuel n : nat) (after : list RunTask.Event) :
  RunTask.launchOutcome env n = RunTask.LaunchAbortError \/
  (RunTask.launchOutcome env n = RunTask.LaunchResolves /\
   Types.persistent template = false) ->
  Trace.afterLaunch n (RunTask.runTask template firstEvent env false fuel).1 = Some after ->
  after = [] /\
  (RunTask.runTask template firstEvent env false fuel).2 = RunTask.Resolved.
Proof.
  intros Hout Hafter. unfold RunTask.runTask in *.
  apply (loop_stops template firstEvent env n fuel (RunTask.enter false) n after Hout
           (Nat.add_0_l n) Hafter).
Qed.

(** ** More on the manager *)

Section ManagerSound.

Import Manager ManagerInv.

Variable template : Types.TaskTemplate.

Lemma count_app p xs ys : count p (xs ++ ys) = count p xs + count p ys.
Proof. unfold count. rewrite filter_app, length_app. reflexivity. Qed.

Lemma count_cons p o obs :
  count p (o :: obs) = (if p o then 1 else 0) + count p obs.
Proof.
  unfold count. destruct (p o) eqn:E.
  - rewrite filter_cons_True by exact E. reflexivity.
  - rewrite filter_cons_False by congruence. reflexivity.
Qed.

Lemma count_nil p : count p [] = 0.
Proof. reflexivity. Qed.

Lemma count_zero p obs : Forall (fun o => p o = false) obs -> count p obs = 0.
Proof.
  unfold count. induction 1 as [|o obs Ho _ IH]; [reflexivity|].
  rewrite filter_cons_False by congruence. exact IH.
Qed.

(** What [startTask] does. *)
Lemma startTask_eq data fe st :
  startTask template data fe st =
    if outerTeardownInitiated st then (st, [], ReturnsUndefined)
    else
      (withActiveTask (Some {| id := length (tasks st); queued := false |})
         (withTasks (tasks st ++ [{| signalAborted := false; settled := false |}]) st),
       [ObsTask (entryId st) (length (tasks st)) data (RunTask.EvLaunch 0 fe false)],
       ReturnsPromise (length (tasks st))).
Proof. reflexivity. Qed.

Lemma isSettled_app_l j st cells :
  j < length (tasks st) ->
  isSettled j (withTasks (tasks st ++ cells) st) = isSettled j st.
Proof. intros Hj. unfold isSettled. simpl. rewrite lookup_app_l by exact Hj. reflexivity. Qed.

Lemma sound_frame st st' :
  length (tasks st') = length (tasks st) ->
  (forall j, isSettled j st' = isSettled j st) ->
  (outerActiveTask st' = outerActiveTask st \/ outerActiveTask st' = None) ->
  (forall u, u ∈ updaters st' -> u ∈ updaters st) ->
  (outerFirstEvent st' = outerFirstEvent st \/ outerFirstEvent st' = false) ->
  sound st -> sound st'.
Proof.
  intros Hlen Hset Hact Hupd Hfe (HA & HB & HC).
  assert (Hsub : forall t, outerActiveTask st' = Some t -> outerActiveTask st = Some t).
  { intros t Ht. destruct Hact as [E|E]; rewrite E in Ht; [exact Ht | discriminate]. }
  split; [|split].
  - intros t Ht. rewrite Hset, Hlen. apply HA, Hsub, Ht.
  - intros u Hu. destruct (HB u (Hupd u Hu)) as (H1 & H2 & H3).
    rewrite Hlen. repeat split; auto.
  - intros Htrue.
    assert (Hst : outerFirstEvent st = true).
    { destruct Hfe as [E|E]; rewrite E in Htrue; [exact Htrue | discriminate]. }
    destruct (HC Hst) as (H1 & H2 & H3). repeat split.
    + destruct Hact as [E|E]; rewrite E; auto.
    + apply length_zero_iff_nil. rewrite Hlen, H2. reflexivity.
    + destruct (updaters st') as [|u us] eqn:E; [reflexivity|].
      specialize (Hupd u ltac:(left)). rewrite H3 in Hupd. inversion Hupd.
Qed.

Lemma sound_startTask data fe st :
  outerFirstEvent st = false ->
  sound st -> sound (startTask template data fe st).1.1.
Proof.
  intros Hfe (HA & HB & HC). rewrite startTask_eq.
  destruct (outerTeardownInitiated st); cbn [fst]; [exact (conj HA (conj HB HC))|].
  split; [|split].
  - intros t Ht. cbn in Ht. inversion Ht; subst t; clear Ht. cbn [id].
    split.
    + unfold isSettled. cbn. rewrite lookup_app_r by lia.
      rewrite Nat.sub_diag. reflexivity.
    + cbn. rewrite length_app. simpl. lia.
  - intros u Hu. cbn in Hu. destruct (HB u Hu) as (H1 & H2 & H3).
    cbn. rewrite length_app. simpl. split; [lia|]. split; [exact H2|].
    intros t Ht Heq. inversion Ht; subst t. cbn in Heq. lia.
  - cbn. rewrite Hfe. discriminate.
Qed.

Lemma isSettled_abort i j st : isSettled j (abort i st) = isSettled j st.
Proof.
  unfold isSettled, abort. cbn. destruct (decide (i = j)) as [->|Hne].
  - rewrite list_lookup_alter_eq. destruct (tasks st !! j); reflexivity.
  - rewrite list_lookup_alter_ne by exact Hne. reflexivity.
Qed.

Lemma sound_abort i st : sound st -> sound (abort i st).
Proof.
  apply sound_frame; auto.
  - unfold abort. cbn. apply length_alter.
  - intros j. apply isSettled_abort.
Qed.

Lemma sound_enqueue t data st :
  outerFirstEvent st = false ->
  outerActiveTask st = Some t ->
  sound st -> sound (enqueue t data false st).
Proof.
  intros Hfe Ht (HA & HB & HC). destruct (HA t Ht) as [Hs Hl].
  split; [|split].
  - intros t' Ht'. cbn in Ht'. inversion Ht'; subst t'. cbn. split; assumption.
  - intros u Hu. cbn in Hu. apply elem_of_app in Hu as [Hu|Hu].
    + destruct (HB u Hu) as (H1 & H2 & H3). cbn. repeat split; auto.
      intros t' Ht' _. inversion Ht'; subst t'. reflexivity.
    + apply list_elem_of_singleton in Hu. subst u. cbn. repeat split; auto.
      intros t' Ht' _. inversion Ht'; subst t'. reflexivity.
  - cbn. rewrite Hfe. discriminate.
Qed.

Lemma sound_active_not_first st t :
  sound st -> outerActiveTask st = Some t -> outerFirstEvent st = false.
Proof.
  intros (_ & _ & HC) Ht. destruct (outerFirstEvent st); [|reflexivity].
  destruct (HC eq_refl) as [Hn _]. congruence.
Qed.

Lemma sound_updateConfig data st :
  sound st -> sound (updateConfig template data st).1.1.
Proof.
  intros Hs.
  assert (Hs0 : sound (withFirstEvent false st)).
  { revert Hs. apply sound_frame; auto. }
  unfold updateConfig.
  change (outerActiveTask (withFirstEvent false st)) with (outerActiveTask st).
  destruct (outerActiveTask st) as [t|] eqn:Ht.
  2:{ apply sound_startTask; [reflexivity | exact Hs0]. }
  rewrite (sound_active_not_first st t Hs Ht).
  destruct (Types.interruptible template).
  - destruct (queued t); cbn [fst].
    + apply sound_abort, Hs0.
    + apply sound_enqueue; [reflexivity | exact Ht | apply sound_abort, Hs0].
  - destruct (Types.persistent template); [exact Hs0|].
    destruct (queued t); cbn [fst]; [exact Hs0|].
    apply sound_enqueue; [reflexivity | exact Ht | exact Hs0].
Qed.

Lemma isSettled_taskSettles i j st :
  isSettled j (taskSettles i st) = if decide (i = j) then
                                     match tasks st !! j with Some _ => true | None => false end
                                   else isSettled j st.
Proof.
  unfold isSettled. rewrite taskSettles_tasks. destruct (decide (i = j)) as [->|Hne].
  - rewrite list_lookup_alter_eq. destruct (tasks st !! j); reflexivity.
  - rewrite list_lookup_alter_ne by exact Hne. reflexivity.
Qed.

Lemma taskSettles_fields i st :
  updaters (taskSettles i st) = updaters st /\
  outerFirstEvent (taskSettles i st) = outerFirstEvent st /\
  outerTeardownInitiated (taskSettles i st) = outerTeardownInitiated st /\
  entryId (taskSettles i st) = entryId st /\
  outerActiveTask (taskSettles i st) =
    match outerActiveTask st with
    | Some t => if Nat.eqb i (id t) then None else Some t
    | None => None
    end.
Proof.
  unfold taskSettles. cbn. destruct (outerActiveTask st) as [t|] eqn:E; cbn;
    [destruct (Nat.eqb i (id t))|]; cbn; rewrite ?E; repeat split; reflexivity.
Qed.

Lemma sound_taskSettles i st : sound st -> sound (taskSettles i st).
Proof.
  intros (HA & HB & HC).
  destruct (taskSettles_fields i st) as (Hu & Hf & _ & _ & Ha).
  split; [|split].
  - intros t Ht. rewrite Ha in Ht.
    destruct (outerActiveTask st) as [t0|] eqn:E; [|discriminate].
    destruct (Nat.eqb_spec i (id t0)) as [|Hne]; [discriminate|].
    inversion Ht; subst t0. destruct (HA t eq_refl) as [Hs Hl].
    rewrite isSettled_taskSettles, taskSettles_tasks, length_alter.
    destruct (decide (i = id t)); [contradiction|]. split; assumption.
  - intros u Hin. rewrite Hu in Hin. destruct (HB u Hin) as (H1 & H2 & H3).
    rewrite taskSettles_tasks, length_alter. repeat split; auto.
    intros t Ht Heq. rewrite Ha in Ht.
    destruct (outerActiveTask st) as [t0|] eqn:E; [|discriminate].
    destruct (Nat.eqb i (id t0)); [discriminate|]. inversion Ht; subst t0.
    apply H3; auto.
  - rewrite Hf. intros Htrue. destruct (HC Htrue) as (H1 & H2 & H3).
    rewrite Ha, H1, Hu, taskSettles_tasks, H2. repeat split; auto.
Qed.

Lemma takeUpdater_elem i us u rest :
  takeUpdater i us = Some (u, rest) ->
  u ∈ us /\ awaited u = i /\ forall v, v ∈ rest -> v ∈ us.
Proof.
  revert u rest. induction us as [|w us IH]; intros u rest H; simpl in H; [discriminate|].
  destruct (Nat.eqb_spec (awaited w) i) as [Hw|Hw].
  - inversion H; subst. split; [left | split; [reflexivity | intros v Hv; right; exact Hv]].
  - destruct (takeUpdater i us) as [[v rest']|]; [|discriminate].
    inversion H; subst. destruct (IH u rest' eq_refl) as (H1 & H2 & H3).
    split; [right; exact H1 | split; [exact H2|]].
    intros x Hx. apply elem_of_cons in Hx as [->|Hx]; [left | right; auto].
Qed.

Lemma sound_updaterResumes i st st' obs out :
  sound st -> updaterResumes template i st = Some (st', obs, out) -> sound st'.
Proof.
  intros Hs Hr. unfold updaterResumes in Hr.
  destruct (isSettled i st); [|discriminate].
  destruct (takeUpdater i (updaters st)) as [[u rest]|] eqn:Et; [|discriminate].
  destruct (takeUpdater_elem _ _ _ _ Et) as (Hu & _ & Hrest).
  assert (Hfe : outerFirstEvent st = false).
  { destruct Hs as (_ & _ & HC). destruct (outerFirstEvent st); [|reflexivity].
    destruct (HC eq_refl) as (_ & _ & Hnil). rewrite Hnil in Hu. inversion Hu. }
  assert (Hs1 : sound (withUpdaters rest st)).
  { revert Hs. apply sound_frame; auto. }
  pose proof (sound_startTask (payload u) (first u) (withUpdaters rest st) Hfe Hs1) as H.
  inversion Hr as [E]. rewrite E in H. exact H.
Qed.

Lemma isSettled_parentAborts j st : isSettled j (parentAborts st) = isSettled j st.
Proof.
  unfold parentAborts, isSettled. destruct (parentAborted st); [reflexivity|].
  cbn. rewrite list_lookup_fmap. destruct (tasks st !! j); reflexivity.
Qed.

Lemma sound_parentAborts st : sound st -> sound (parentAborts st).
Proof.
  apply sound_frame; auto using isSettled_parentAborts;
    unfold parentAborts; destruct (parentAborted st); cbn; auto using length_fmap.
Qed.

(** What [teardown] does to the closure. *)
Lemma teardown_state st :
  (teardown template st).1 =
    if outerTeardownInitiated st then st
    else match outerActiveTask st with
         | Some t => abort (id t) (withTeardownInitiated true st)
         | None => withTeardownInitiated true st
         end.
Proof.
  unfold teardown. destruct (outerTeardownInitiated st); [reflexivity|].
  cbn. destruct (outerActiveTask st), (Types.teardown template); reflexivity.
Qed.

Lemma teardown_obs st :
  (teardown template st).2 =
    if outerTeardownInitiated st then []
    else match outerActiveTask st with Some t => [ObsAbort (id t)] | None => [] end
         ++ match Types.teardown template with Some _ => [ObsTeardownHook] | None => [] end.
Proof.
  unfold teardown. destruct (outerTeardownInitiated st); [reflexivity|].
  cbn. destruct (outerActiveTask st), (Types.teardown template); reflexivity.
Qed.

Lemma sound_teardown st : sound st -> sound (teardown template st).1.
Proof.
  intros Hs. rewrite teardown_state.
  destruct (outerTeardownInitiated st); [exact Hs|].
  assert (Hs1 : sound (withTeardownInitiated true st)).
  { revert Hs. apply sound_frame; auto. }
  destruct (outerActiveTask st); [apply sound_abort|]; exact Hs1.
Qed.

Lemma sound_step a st st' obs :
  sound st -> step template a st = Some (st', obs) -> sound st'.
Proof.
  intros Hs Hstep. destruct a as [data| |i|i|]; simpl in Hstep.
  - pose proof (sound_updateConfig data st Hs) as H.
    destruct (updateConfig template data st) as [[st1 obs1] out].
    inversion Hstep; subst. exact H.
  - pose proof (sound_teardown st Hs) as H. inversion Hstep as [E].
    rewrite E in H. exact H.
  - destruct (tasks st !! i) as [c|]; [|discriminate].
    destruct (settled c); [discriminate|]. inversion Hstep; subst.
    apply sound_taskSettles, Hs.
  - destruct (updaterResumes template i st) as [[[st1 obs1] out]|] eqn:E; [|discriminate].
    inversion Hstep; subst. eapply sound_updaterResumes; eauto.
  - inversion Hstep; subst. apply sound_parentAborts, Hs.
Qed.

Lemma sound_run actions : forall st st' obs,
  sound st -> run template actions st = Some (st', obs) -> sound st'.
Proof.
  induction actions as [|a rest IH]; intros st st' obs Hs Hr; simpl in Hr.
  - inversion Hr; subst. exact Hs.
  - destruct (step template a st) as [[st1 obs1]|] eqn:Es; [|discriminate].
    destruct (run template rest st1) as [[st2 obs2]|] eqn:Er; [|discriminate].
    inversion Hr; subst. eapply IH; [|exact Er]. eapply sound_step; eauto.
Qed.

Lemma sound_initial entry : sound (initial entry).
Proof.
  split; [|split]; cbn; try discriminate; auto.
  intros u Hu. inversion Hu.
Qed.

End ManagerSound.

Section ManagerCounts.

Import Manager ManagerInv.

Variable template : Types.TaskTemplate.

Ltac counts := rewrite ?count_cons, ?count_nil; cbn.

Ltac iflia :=
  rewrite ?count_nil;
  repeat match goal with |- context [if ?b then _ else _] => destruct b end; lia.

Ltac update_cases st :=
  unfold updateConfig;
  change (outerActiveTask (withFirstEvent false st)) with (outerActiveTask st);
  destruct (outerActiveTask st) as [?t|] eqn:?Hact;
  [ destruct (Types.interruptible template) eqn:?Hint;
    [ destruct (queued _) eqn:?Hq
    | destruct (Types.persistent template) eqn:?Hper; [|destruct (queued _) eqn:?Hq] ]
  | rewrite startTask_eq;
    change (outerTeardownInitiated (withFirstEvent false st))
      with (outerTeardownInitiated st);
    destruct (outerTeardownInitiated st) eqn:?Hlatch ].

(** [updateConfig] consumes the first event and leaves the latch alone. *)
Lemma updateConfig_fields data st :
  outerFirstEvent (updateConfig template data st).1.1 = false /\
  outerTeardownInitiated (updateConfig template data st).1.1 = outerTeardownInitiated st /\
  entryId (updateConfig template data st).1.1 = entryId st.
Proof. update_cases st; cbn; auto. Qed.

(** It never calls the teardown handler, and starts at most one task, with
    the [first] it found in [outerFirstEvent]; none when the latch is set. *)
Lemma updateConfig_obs data st :
  sound st ->
  count isHook (updateConfig template data st).1.2 = 0 /\
  count isFirstStart (updateConfig template data st).1.2
    <= (if outerFirstEvent st then 1 else 0) /\
  Forall (fun o => isFirstStart o = true -> startedId o = Some 0)
         (updateConfig template data st).1.2 /\
  (outerTeardownInitiated st = true -> count isStart (updateConfig template data st).1.2 = 0).
Proof.
  intros (_ & _ & HC). update_cases st; cbn; counts;
    try (repeat split; try lia; try reflexivity; repeat constructor; discriminate).
  destruct (outerFirstEvent st) eqn:Hfe.
  - destruct (HC eq_refl) as (_ & Hnil & _). rewrite Hnil. cbn.
    repeat split; try lia; try reflexivity; try discriminate. repeat constructor.
  - cbn. repeat split; try lia; try reflexivity; try discriminate.
    repeat constructor. discriminate.
Qed.

Lemma updaterResumes_fields i st st' obs out :
  sound st ->
  updaterResumes template i st = Some (st', obs, out) ->
  outerFirstEvent st = false /\ outerFirstEvent st' = false /\
  outerTeardownInitiated st' = outerTeardownInitiated st /\
  count isHook obs = 0 /\ count isFirstStart obs = 0 /\
  (outerTeardownInitiated st = true -> count isStart obs = 0).
Proof.
  intros (_ & HB & HC) Hr. unfold updaterResumes in Hr.
  destruct (isSettled i st); [|discriminate].
  destruct (takeUpdater i (updaters st)) as [[u rest]|] eqn:Et; [|discriminate].
  destruct (takeUpdater_elem _ _ _ _ Et) as (Hu & _ & _).
  destruct (HB u Hu) as (_ & Hfirst & _).
  assert (Hfe : outerFirstEvent st = false).
  { destruct (outerFirstEvent st); [|reflexivity].
    destruct (HC eq_refl) as (_ & _ & Hnil). rewrite Hnil in Hu. inversion Hu. }
  rewrite startTask_eq, Hfirst in Hr.
  change (outerTeardownInitiated (withUpdaters rest st))
    with (outerTeardownInitiated st) in Hr.
  destruct (outerTeardownInitiated st) eqn:Hl; inversion Hr; subst; cbn;
    rewrite ?Hfe, ?Hl; repeat split; auto; discriminate.
Qed.

Lemma teardown_fields st :
  outerTeardownInitiated (teardown template st).1 = true /\
  outerFirstEvent (teardown template st).1 = outerFirstEvent st /\
  count isStart (teardown template st).2 = 0 /\
  count isFirstStart (teardown template st).2 = 0 /\
  count isHook (teardown template st).2 <= 1 /\
  (outerTeardownInitiated st = true -> count isHook (teardown template st).2 = 0).
Proof.
  rewrite teardown_state, teardown_obs.
  destruct (outerTeardownInitiated st) eqn:Hl.
  - cbn. repeat split; auto.
  - destruct (outerActiveTask st), (Types.teardown template); cbn;
      repeat split; auto; discriminate.
Qed.

Lemma soundWith_extend st st' pre obs :
  soundWith st pre ->
  sound st' ->
  count isFirstStart obs <= (if outerFirstEvent st then 1 else 0) ->
  (outerFirstEvent st' = true ->
     outerFirstEvent st = true /\ count isFirstStart obs = 0) ->
  Forall (fun o => isFirstStart o = true -> startedId o = Some 0) obs ->
  count isHook obs <= (if outerTeardownInitiated st then 0 else 1) ->
  (outerTeardownInitiated st' = false ->
     outerTeardownInitiated st = false /\ count isHook obs = 0) ->
  soundWith st' (pre ++ obs).
Proof.
  intros (Hs & H1 & H2 & H3 & H4 & H5) Hs' F1 F2 F3 K1 K2.
  split; [exact Hs'|]. rewrite !count_app, Forall_app.
  split; [|split; [|split; [|split]]].
  - destruct (outerFirstEvent st); [rewrite H2 by reflexivity|]; lia.
  - intros Ht. destruct (F2 Ht) as [E Z]. rewrite (H2 E), Z. reflexivity.
  - split; assumption.
  - destruct (outerTeardownInitiated st); [|rewrite H5 by reflexivity]; lia.
  - intros Ht. destruct (K2 Ht) as [E Z]. rewrite (H5 E), Z. reflexivity.
Qed.

Lemma count_zero_Forall p (q : Obs -> Prop) obs :
  count p obs = 0 -> Forall (fun o => p o = true -> q o) obs.
Proof.
  intros Hz. apply Forall_forall. intros o Ho Hp. exfalso.
  unfold count in Hz. apply length_zero_iff_nil in Hz.
  assert (Hin : o ∈ filter (fun o => p o = true) obs).
  { apply list_elem_of_filter. split; assumption. }
  rewrite Hz in Hin. inversion Hin.
Qed.

(** The listeners of the parent signal start nothing and call no handler. *)
Lemma parentAbortCalls_quiet (p : Obs -> bool) st :
  (forall k, p (ObsAbort k) = false) -> count p (parentAbortCalls st) = 0.
Proof.
  intros Hp. apply count_zero. unfold parentAbortCalls.
  destruct (parentAborted st); [constructor|].
  apply Forall_fmap, Forall_forall. intros k _. apply Hp.
Qed.

Lemma soundWith_step a st st' pre obs :
  soundWith st pre ->
  step template a st = Some (st', obs) ->
  soundWith st' (pre ++ obs).
Proof.
  intros Hinv Hstep. pose proof Hinv as (Hs & _).
  pose proof (sound_step template a st st' obs Hs Hstep) as Hs'.
  apply (soundWith_extend st st' pre obs Hinv Hs');
    destruct a as [data| |i|i|]; simpl in Hstep.
  (* count of first starts *)
  - pose proof (updateConfig_obs data st Hs) as (_ & O2 & _).
    destruct (updateConfig template data st) as [[st1 obs1] out].
    inversion Hstep; subst. exact O2.
  - pose proof (teardown_fields st) as (_ & _ & _ & O2 & _).
    inversion Hstep as [E]. rewrite E in O2. cbn in O2. rewrite O2. iflia.
  - destruct (tasks st !! i) as [c|]; [|discriminate].
    destruct (settled c); [discriminate|]. inversion Hstep; subst. cbn. iflia.
  - destruct (updaterResumes template i st) as [[[st1 obs1] out]|] eqn:E; [|discriminate].
    inversion Hstep; subst.
    destruct (updaterResumes_fields i st st' obs out Hs E) as (_ & _ & _ & _ & O2 & _).
    rewrite O2. iflia.
  - inversion Hstep; subst.
    rewrite parentAbortCalls_quiet by (intros k; reflexivity). iflia.
  (* the first event afterwards *)
  - pose proof (updateConfig_fields data st) as (F1 & _).
    destruct (updateConfig template data st) as [[st1 obs1] out].
    inversion Hstep; subst. cbn in F1. rewrite F1. discriminate.
  - pose proof (teardown_fields st) as (_ & F2 & _ & O2 & _).
    inversion Hstep as [E]. rewrite E in F2, O2. cbn in F2, O2. rewrite F2. auto.
  - destruct (tasks st !! i) as [c|]; [|discriminate].
    destruct (settled c); [discriminate|]. inversion Hstep; subst.
    destruct (taskSettles_fields i st) as (_ & F1 & _). rewrite F1. auto.
  - destruct (updaterResumes template i st) as [[[st1 obs1] out]|] eqn:E; [|discriminate].
    inversion Hstep; subst.
    destruct (updaterResumes_fields i st st' obs out Hs E) as (_ & F1 & _).
    rewrite F1. discriminate.
  - inversion Hstep; subst.
    rewrite parentAbortCalls_quiet by (intros k; reflexivity).
    unfold parentAborts. destruct (parentAborted st); auto.
  (* the first start has id 0 *)
  - pose proof (updateConfig_obs data st Hs) as (_ & _ & O3 & _).
    destruct (updateConfig template data st) as [[st1 obs1] out].
    inversion Hstep; subst. exact O3.
  - pose proof (teardown_fields st) as (_ & _ & _ & O2 & _).
    inversion Hstep as [E]. rewrite E in O2. cbn in O2.
    apply count_zero_Forall. exact O2.
  - destruct (tasks st !! i) as [c|]; [|discriminate].
    destruct (settled c); [discriminate|]. inversion Hstep; subst. constructor.
  - destruct (updaterResumes template i st) as [[[st1 obs1] out]|] eqn:E; [|discriminate].
    inversion Hstep; subst.
    destruct (updaterResumes_fields i st st' obs out Hs E) as (_ & _ & _ & _ & O2 & _).
    apply count_zero_Forall. exact O2.
  - inversion Hstep; subst.
    apply count_zero_Forall, parentAbortCalls_quiet. intros k; reflexivity.
  (* count of handler calls *)
  - pose proof (updateConfig_obs data st Hs) as (O1 & _).
    destruct (updateConfig template data st) as [[st1 obs1] out].
    inversion Hstep; subst. cbn in O1. rewrite O1. iflia.
  - pose proof (teardown_fields st) as (_ & _ & _ & _ & O3 & O4).
    inversion Hstep as [E]. rewrite E in O3, O4. cbn in O3, O4.
    destruct (outerTeardownInitiated st); [rewrite O4 by reflexivity; lia | exact O3].
  - destruct (tasks st !! i) as [c|]; [|discriminate].
    destruct (settled c); [discriminate|]. inversion Hstep; subst. cbn. iflia.
  - destruct (updaterResumes template i st) as [[[st1 obs1] out]|] eqn:E; [|discriminate].
    inversion Hstep; subst.
    destruct (updaterResumes_fields i st st' obs out Hs E) as (_ & _ & _ & O1 & _).
    rewrite O1. iflia.
  - inversion Hstep; subst.
    rewrite parentAbortCalls_quiet by (intros k; reflexivity). iflia.
  (* the latch afterwards *)
  - pose proof (updateConfig_fields data st) as (_ & F2 & _).
    pose proof (updateConfig_obs data st Hs) as (O1 & _).
    destruct (updateConfig template data st) as [[st1 obs1] out].
    inversion Hstep; subst. cbn in F2, O1. rewrite F2. auto.
  - pose proof (teardown_fields st) as (F1 & _).
    inversion Hstep as [E]. rewrite E in F1. cbn in F1. rewrite F1. discriminate.
  - destruct (tasks st !! i) as [c|]; [|discriminate].
    destruct (settled c); [discriminate|]. inversion Hstep; subst.
    destruct (taskSettles_fields i st) as (_ & _ & F2 & _). rewrite F2. auto.
  - destruct (updaterResumes template i st) as [[[st1 obs1] out]|] eqn:E; [|discriminate].
    inversion Hstep; subst.
    destruct (updaterResumes_fields i st st' obs out Hs E) as (_ & _ & F2 & O1 & _).
    rewrite F2. auto.
  - inversion Hstep; subst.
    rewrite parentAbortCalls_quiet by (intros k; reflexivity).
    unfold parentAborts. destruct (parentAborted st); auto.
Qed.

Lemma soundWith_run actions : forall st st' pre obs,
  soundWith st pre ->
  run template actions st = Some (st', obs) ->
  soundWith st' (pre ++ obs).
Proof.
  induction actions as [|a rest IH]; intros st st' pre obs Hinv Hr; simpl in Hr.
  - inversion Hr; subst. rewrite app_nil_r. exact Hinv.
  - destruct (step template a st) as [[st1 obs1]|] eqn:Es; [|discriminate].
    destruct (run template rest st1) as [[st2 obs2]|] eqn:Er; [|discriminate].
    inversion Hr; subst. rewrite app_assoc.
    eapply IH; [|exact Er]. eapply soundWith_step; eauto.
Qed.

Lemma soundWith_initial entry : soundWith (initial entry) [].
Proof.
  split; [apply sound_initial|]. cbn. repeat split; auto. 
Qed.

(** Once the latch is set it stays set, and no step starts a task or calls
    the teardown handler. *)
Lemma latched_step a st st' obs :
  outerTeardownInitiated st = true ->
  step template a st = Some (st', obs) ->
  outerTeardownInitiated st' = true /\ count isStart obs = 0 /\ count isHook obs = 0.
Proof.
  intros Hl Hstep. destruct a as [data| |i|i|]; simpl in Hstep.
  - assert (H : outerTeardownInitiated (updateConfig template data st).1.1 = true /\
                count isStart (updateConfig template data st).1.2 = 0 /\
                count isHook (updateConfig template data st).1.2 = 0).
    { update_cases st; cbn; auto; congruence. }
    destruct (updateConfig template data st) as [[st1 obs1] out].
    inversion Hstep; subst. exact H.
  - pose proof (teardown_fields st) as (F1 & _ & O1 & _ & _ & O4).
    inversion Hstep as [E]. rewrite E in *. cbn in *. auto.
  - destruct (tasks st !! i) as [c|]; [|discriminate].
    destruct (settled c); [discriminate|]. inversion Hstep; subst.
    destruct (taskSettles_fields i st) as (_ & _ & F2 & _). rewrite F2. auto.
  - unfold updaterResumes in Hstep. destruct (isSettled i st); [|discriminate].
    destruct (takeUpdater i (updaters st)) as [[u rest]|]; [|discriminate].
    rewrite startTask_eq in Hstep.
    change (outerTeardownInitiated (withUpdaters rest st))
      with (outerTeardownInitiated st) in Hstep.
    rewrite Hl in Hstep. inversion Hstep; subst. auto.
  - inversion Hstep; subst.
    rewrite !parentAbortCalls_quiet by (intros k; reflexivity).
    unfold parentAborts. destruct (parentAborted st); auto.
Qed.

Lemma latched_run actions : forall st st' obs,
  outerTeardownInitiated st = true ->
  run template actions st = Some (st', obs) ->
  outerTeardownInitiated st' = true /\ count isStart obs = 0 /\ count isHook obs = 0.
Proof.
  induction actions as [|a rest IH]; intros st st' obs Hl Hr; simpl in Hr.
  - inversion Hr; subst. auto.
  - destruct (step template a st) as [[st1 obs1]|] eqn:Es; [|discriminate].
    destruct (run template rest st1) as [[st2 obs2]|] eqn:Er; [|discriminate].
    inversion Hr; subst.
    destruct (latched_step a st st1 obs1 Hl Es) as (L1 & S1 & K1).
    destruct (IH st1 st' obs2 L1 Er) as (L2 & S2 & K2).
    rewrite !count_app, S1, S2, K1, K2. auto.
Qed.

(** Without interruption, only [teardown] and the listeners of the parent
    signal call [abort()]. *)
Lemma waiting_step a st st' obs :
  Types.interruptible template = false ->
  isCallTeardown a = false ->
  isParentAborts a = false ->
  step template a st = Some (st', obs) ->
  count isAbortCall obs = 0.
Proof.
  intros Hni Ha Hpa Hstep. destruct a as [data| |i|i|]; simpl in Hstep; try discriminate.
  - assert (H : count isAbortCall (updateConfig template data st).1.2 = 0).
    { update_cases st; cbn; auto; congruence. }
    destruct (updateConfig template data st) as [[st1 obs1] out].
    inversion Hstep; subst. exact H.
  - destruct (tasks st !! i) as [c|]; [|discriminate].
    destruct (settled c); [discriminate|]. inversion Hstep; subst. reflexivity.
  - unfold updaterResumes in Hstep. destruct (isSettled i st); [|discriminate].
    destruct (takeUpdater i (updaters st)) as [[u rest]|]; [|discriminate].
    rewrite startTask_eq in Hstep.
    destruct (outerTeardownInitiated (withUpdaters rest st));
      inversion Hstep; subst; reflexivity.
Qed.

Lemma waiting_run actions : forall st st' obs,
  Types.interruptible template = false ->
  forallb (fun a => negb (isCallTeardown a) && negb (isParentAborts a)) actions = true ->
  run template actions st = Some (st', obs) ->
  count isAbortCall obs = 0.
Proof.
  induction actions as [|a rest IH]; intros st st' obs Hni Hall Hr; simpl in Hr.
  - inversion Hr; subst. reflexivity.
  - simpl in Hall. apply andb_true_iff in Hall as [Ha Hrest].
    apply andb_true_iff in Ha as [Ha Hpa].
    apply negb_true_iff in Ha. apply negb_true_iff in Hpa.
    destruct (step template a st) as [[st1 obs1]|] eqn:Es; [|discriminate].
    destruct (run template rest st1) as [[st2 obs2]|] eqn:Er; [|discriminate].
    inversion Hr; subst. rewrite count_app.
    rewrite (waiting_step a st st1 obs1 Hni Ha Hpa Es), (IH st1 st' obs2 Hni Hrest Er).
    reflexivity.
Qed.

End ManagerCounts.

Section Drain.

Import Manager ManagerInv.

Variable template : Types.TaskTemplate.

Lemma unsettled_lookup j st :
  isSettled j st = false -> j < length (tasks st) ->
  exists c, tasks st !! j = Some c /\ settled c = false.
Proof.
  unfold isSettled. intros Hs Hl.
  destruct (lookup_lt_is_Some_2 _ _ Hl) as [c Hc]. rewrite Hc in Hs. eauto.
Qed.

Lemma takeUpdater_last i us v :
  (forall u, u ∈ us -> awaited u <> i) ->
  awaited v = i ->
  takeUpdater i (us ++ [v]) = Some (v, us).
Proof.
  intros Hfresh Hv. induction us as [|w us IH]; simpl.
  - rewrite Hv, Nat.eqb_refl. reflexivity.
  - destruct (Nat.eqb_spec (awaited w) i) as [E|_].
    + exfalso. apply (Hfresh w); [left | exact E].
    + rewrite IH; [reflexivity|]. intros u Hu. apply Hfresh. right. exact Hu.
Qed.

(** An update that meets an active task without a queued update (and is
    not ignored) flags it and suspends. *)
Lemma updateConfig_suspends data st t :
  outerActiveTask st = Some t ->
  queued t = false ->
  Types.interruptible template = true \/ Types.persistent template = false ->
  updateConfig template data st =
    (enqueue t data (outerFirstEvent st)
       (if Types.interruptible template
        then abort (id t) (withFirstEvent false st)
        else withFirstEvent false st),
     (if Types.interruptible template then [ObsAbort (id t)] else [])
       ++ [ObsQueued (id t); ObsAwait (id t)],
     AwaitsTask (id t)).
Proof.
  intros Hact Hq Hmode. unfold updateConfig.
  change (outerActiveTask (withFirstEvent false st)) with (outerActiveTask st).
  rewrite Hact, Hq. destruct (Types.interruptible template); [reflexivity|].
  destruct Hmode as [|Hp]; [discriminate|]. rewrite Hp. reflexivity.
Qed.

Lemma drain_then_start data st t :
  sound st ->
  outerTeardownInitiated st = false ->
  outerActiveTask st = Some t ->
  queued t = false ->
  Types.interruptible template = true \/ Types.persistent template = false ->
  exists st',
    run template [CallUpdateConfig data; TaskSettles (id t); UpdaterResumes (id t)] st =
      Some (st',
            (if Types.interruptible template then [ObsAbort (id t)] else [])
              ++ [ObsQueued (id t); ObsAwait (id t);
                  ObsTask (entryId st) (length (tasks st)) data
                          (RunTask.EvLaunch 0 false false)]) /\
    outerActiveTask st' = Some {| id := length (tasks st); queued := false |} /\
    isSettled (id t) st' = true.
Proof.
  intros Hs Hlatch Hact Hq Hmode.
  pose proof Hs as (HA & HB & _).
  destruct (HA t Hact) as [Hunset Hlt].
  pose proof (sound_active_not_first st t Hs Hact) as Hfe.
  set (st0 := if Types.interruptible template
              then abort (id t) (withFirstEvent false st)
              else withFirstEvent false st).
  assert (H0 : length (tasks st0) = length (tasks st) /\
               isSettled (id t) st0 = false /\
               updaters st0 = updaters st /\
               outerTeardownInitiated st0 = false /\
               entryId st0 = entryId st).
  { unfold st0. destruct (Types.interruptible template).
    - rewrite isSettled_abort. unfold abort. cbn. rewrite length_alter. auto.
    - cbn. auto. }
  destruct H0 as (Hlen0 & Hset0 & Hupd0 & Hlatch0 & Hentry0).
  set (st1 := enqueue t data (outerFirstEvent st) st0).
  destruct (unsettled_lookup (id t) st1) as (c & Hc & Hcs).
  { exact Hset0. }
  { cbn. rewrite Hlen0. exact Hlt. }
  set (st2 := taskSettles (id t) st1).
  assert (Hset2 : isSettled (id t) st2 = true).
  { unfold st2. rewrite isSettled_taskSettles.
    destruct (decide (id t = id t)); [|contradiction]. rewrite Hc. reflexivity. }
  destruct (taskSettles_fields (id t) st1) as (Hupd2 & _ & Hlatch2 & Hentry2 & _).
  assert (Htake : takeUpdater (id t) (updaters st2) =
                  Some ({| awaited := id t; payload := data; first := outerFirstEvent st |},
                        updaters st)).
  { unfold st2. rewrite Hupd2. cbn. rewrite Hupd0. apply takeUpdater_last; [|reflexivity].
    intros u Hu Heq. destruct (HB u Hu) as (_ & _ & H3).
    specialize (H3 t Hact Heq). congruence. }
  set (st3 := withUpdaters (updaters st) st2).
  assert (Hl3 : outerTeardownInitiated st3 = false).
  { change (outerTeardownInitiated st2 = false). unfold st2. rewrite Hlatch2. exact Hlatch0. }
  assert (He3 : entryId st3 = entryId st).
  { change (entryId st2 = entryId st). unfold st2. rewrite Hentry2. exact Hentry0. }
  assert (Hn3 : length (tasks st3) = length (tasks st)).
  { change (length (tasks st2) = length (tasks st)). unfold st2.
    rewrite taskSettles_tasks, length_alter. exact Hlen0. }
  assert (Hstart : startTask template data false st3 =
            (withActiveTask (Some {| id := length (tasks st); queued := false |})
               (withTasks (tasks st3 ++ [{| signalAborted := false; settled := false |}]) st3),
             [ObsTask (entryId st) (length (tasks st)) data (RunTask.EvLaunch 0 false false)],
             ReturnsPromise (length (tasks st)))).
  { rewrite startTask_eq, Hl3, He3, Hn3. reflexivity. }
  eexists. split.
  - cbn [run step]. rewrite (updateConfig_suspends data st t Hact Hq Hmode).
    fold st0. fold st1. rewrite Hc, Hcs. fold st2.
    unfold updaterResumes. rewrite Hset2, Htake. cbn [payload first]. fold st3.
    rewrite Hfe, Hstart. rewrite !app_nil_r, <- app_assoc. reflexivity.
  - cbn [outerActiveTask withActiveTask]. split; [reflexivity|].
    unfold isSettled in *. cbn [tasks withActiveTask withTasks].
    change (tasks st3) with (tasks st2).
    destruct (lookup_lt_is_Some_2 (tasks st2) (id t)) as [c2 Hc2].
    { unfold st2. rewrite taskSettles_tasks, length_alter. cbn. rewrite Hlen0. exact Hlt. }
    rewrite lookup_app_l by (eapply lookup_lt_Some; exact Hc2).
    exact Hset2.
Qed.

End Drain.

(** X7. Whenever a manager holds an active task, the promise of that task
    has not settled: the [finally] handler of a task clears
    [outerActiveTask] when the task it points to settles, and nothing else
    settles it. So an updater that awaits the active task really waits. *)
Theorem manager_active_task_unsettled
  (template : Types.TaskTemplate) (entry : nat) (actions : list Manager.Action)
  (st : Manager.State) (obs : list Manager.Obs) (t : Manager.ActiveTask) :
  Manager.run template actions (Manager.initial entry) = Some (st, obs) ->
  Manager.outerActiveTask st = Some t ->
  exists c, Manager.tasks st !! Manager.id t = Some c /\ Manager.settled c = false.
Proof.
  intros Hrun Hact.
  pose proof (sound_run template actions _ _ _ (sound_initial entry) Hrun) as (HA & _).
  destruct (HA t Hact) as [Hs Hl]. apply unsettled_lookup; assumption.
Qed.

(** X8. After [teardown()], called in whatever state, the manager starts
    no task any more and does not call the teardown handler again, whatever
    is called on it and whatever settles afterwards; an update that was
    suspended at that time resumes and returns without a launch. *)
Theorem manager_no_start_after_teardown
  (template : Types.TaskTemplate) (st st' : Manager.State)
  (actions : list Manager.Action) (obs : list Manager.Obs) :
  Manager.run template actions (Manager.teardown template st).1 = Some (st', obs) ->
  ManagerInv.count ManagerInv.isStart obs = 0 /\
  ManagerInv.count ManagerInv.isHook obs = 0 /\
  Manager.outerTeardownInitiated st' = true.
Proof.
  intros Hrun.
  destruct (latched_run template actions _ st' obs
              (manager_teardown_latched template st) Hrun) as (H1 & H2 & H3).
  auto.
Qed.

(** X9. Over the whole life of a manager the teardown handler of the
    template is called at most once, however often and whenever
    [teardown()] is called. *)
Theorem manager_teardown_handler_once
  (template : Types.TaskTemplate) (entry : nat) (actions : list Manager.Action)
  (st : Manager.State) (obs : list Manager.Obs) :
  Manager.run template actions (Manager.initial entry) = Some (st, obs) ->
  ManagerInv.count ManagerInv.isHook obs <= 1.
Proof.
  intros Hrun.
  pose proof (soundWith_run template actions _ _ [] obs
                (soundWith_initial entry) Hrun) as (_ & _ & _ & _ & H & _).
  exact H.
Qed.

(** X10. Over the whole life of a manager at most one task is started with
    [first = true], and it is the first task the manager starts (id 0):
    only the first [updateConfig] call finds [outerFirstEvent] set, and it
    never has to queue. *)
Theorem manager_first_event_once
  (template : Types.TaskTemplate) (entry : nat) (actions : list Manager.Action)
  (st : Manager.State) (obs : list Manager.Obs) :
  Manager.run template actions (Manager.initial entry) = Some (st, obs) ->
  ManagerInv.count ManagerInv.isFirstStart obs <= 1 /\
  Forall (fun o => ManagerInv.isFirstStart o = true -> ManagerInv.startedId o = Some 0) obs.
Proof.
  intros Hrun.
  pose proof (soundWith_run template actions _ _ [] obs
                (soundWith_initial entry) Hrun) as (_ & H1 & _ & H3 & _).
  split; assumption.
Qed.

(** X11. On a manager of a template that is not interruptible, [abort()]
    is called on no task controller as long as [teardown()] is not called
    and the parent signal is not aborted: updates wait (or are dropped),
    they do not cancel. *)
Theorem manager_waiting_never_aborts
  (template : Types.TaskTemplate) (st st' : Manager.State)
  (actions : list Manager.Action) (obs : list Manager.Obs) :
  Types.interruptible template = false ->
  forallb (fun a => negb (ManagerInv.isCallTeardown a) && negb (ManagerInv.isParentAborts a))
          actions = true ->
  Manager.run template actions st = Some (st', obs) ->
  ManagerInv.count ManagerInv.isAbortCall obs = 0.
Proof. apply waiting_run. Qed.

(** When the parent signal is aborted, the listener of every controller
    created so far calls [abort()] on it, whatever the template. *)
Example parent_abort_reaches_controllers :
  Manager.step Examples.waiting Manager.ParentAborts Samples.running =
    Some (Manager.parentAborts Samples.running, [Manager.ObsAbort 0]) /\
  Manager.isAborted 0 (Manager.parentAborts Samples.running) = true.
Proof. split; reflexivity. Qed.

(** X12. [teardown()] of a manager that holds an active task aborts the
    controller of that task before anything else: afterwards the signal of
    the task is aborted, and the first thing observed is that [abort()]. *)
Theorem manager_teardown_aborts_active
  (template : Types.TaskTemplate) (entry : nat) (actions : list Manager.Action)
  (st : Manager.State) (obs : list Manager.Obs) (t : Manager.ActiveTask) :
  Manager.run template actions (Manager.initial entry) = Some (st, obs) ->
  Manager.outerTeardownInitiated st = false ->
  Manager.outerActiveTask st = Some t ->
  Manager.isAborted (Manager.id t) (Manager.teardown template st).1 = true /\
  exists rest, (Manager.teardown template st).2 = Manager.ObsAbort (Manager.id t) :: rest.
Proof.
  intros Hrun Hl Hact.
  pose proof (sound_run template actions _ _ _ (sound_initial entry) Hrun) as (HA & _).
  destruct (HA t Hact) as [_ Hlt].
  rewrite teardown_state, teardown_obs, Hl, Hact. split.
  - apply isAborted_abort_same. exact Hlt.
  - eexists. reflexivity.
Qed.

(** X13. An update that meets an active task without a queued update, and
    is not ignored (the template is interruptible or not persistent), is
    applied once that task has settled: it flags the task (after aborting
    it when the template is interruptible), waits, and when the task has
    settled starts a new task with its own data and [first = false], which
    becomes the active task. *)
Theorem manager_queued_update_runs_after_drain
  (template : Types.TaskTemplate) (entry : nat) (actions : list Manager.Action)
  (st : Manager.State) (obs : list Manager.Obs) (t : Manager.ActiveTask) (data : nat) :
  Manager.run template actions (Manager.initial entry) = Some (st, obs) ->
  Manager.outerTeardownInitiated st = false ->
  Manager.outerActiveTask st = Some t ->
  Manager.queued t = false ->
  Types.interruptible template = true \/ Types.persistent template = false ->
  exists st',
    Manager.run template
      [Manager.CallUpdateConfig data; Manager.TaskSettles (Manager.id t);
       Manager.UpdaterResumes (Manager.id t)] st =
      Some (st',
            (if Types.interruptible template then [Manager.ObsAbort (Manager.id t)] else [])
              ++ [Manager.ObsQueued (Manager.id t); Manager.ObsAwait (Manager.id t);
                  Manager.ObsTask (Manager.entryId st) (length (Manager.tasks st)) data
                                  (RunTask.EvLaunch 0 false false)]) /\
    Manager.outerActiveTask st' =
      Some {| Manager.id := length (Manager.tasks st); Manager.queued := false |} /\
    Manager.isSettled (Manager.id t) st' = true.
Proof.
  intros Hrun Hl Hact Hq Hmode.
  apply drain_then_start; auto.
  apply (sound_run template actions _ _ _ (sound_initial entry) Hrun).
Qed.

(** ** More on the pool *)

Section PoolDense.

Import Pool PoolInv.

Variable template : Types.TaskTemplate.

Lemma definedAt_beyond data j : length data <= j -> definedAt data j = false.
Proof.
  intros H. unfold definedAt, entryAt. rewrite (lookup_ge_None_2 _ _ H). reflexivity.
Qed.

Lemma definedAt_noHoles data j :
  noHoles data = true -> definedAt data j = (j <? length data).
Proof.
  intros Hn. destruct (Nat.ltb_spec j (length data)) as [Hlt|Hge].
  - unfold definedAt, entryAt.
    destruct (lookup_lt_is_Some_2 _ _ Hlt) as [d Hd]. rewrite Hd.
    unfold noHoles in Hn. rewrite forallb_forall in Hn.
    specialize (Hn d). destruct d; [reflexivity|].
    apply Hn. apply list_elem_of_In. eapply list_elem_of_lookup_2. exact Hd.
  - apply definedAt_beyond, Hge.
Qed.

(** When no manager lies at or beyond the bound of the loop, [trigger]
    leaves exactly the managers of the defined entries. *)
Lemma trigger_exact data ms :
  NoDup (mapKeys ms) ->
  (forall j, mapHas j ms = true -> j < Nat.max (length data) (mapSize ms)) ->
  NoDup (mapKeys (trigger template data ms).1) /\
  forall j, mapHas j (trigger template data ms).1 = definedAt data j.
Proof.
  intros Hnd Hbound. unfold trigger.
  destruct (reconcile_reconciles template data (Nat.max (length data) (mapSize ms)) 0 ms Hnd)
    as [Hnd' Hhas].
  split; [exact Hnd'|]. intros j. rewrite Hhas.
  change (0 <=? j) with true. rewrite andb_true_l, Nat.add_0_l.
  destruct (Nat.ltb_spec j (Nat.max (length data) (mapSize ms))) as [Hlt|Hge];
    [reflexivity|].
  rewrite definedAt_beyond by lia.
  destruct (mapHas j ms) eqn:E; [|reflexivity].
  specialize (Hbound j E). lia.
Qed.

(** A map with distinct keys that are exactly the numbers below [n] has
    [n] entries. *)
Lemma mapSize_initial_segment ms n :
  NoDup (mapKeys ms) ->
  (forall j, mapHas j ms = (j <? n)) ->
  mapSize ms = n.
Proof.
  intros Hnd Hhas.
  assert (Hperm : mapKeys ms ≡ₚ seq 0 n).
  { apply NoDup_Permutation; [exact Hnd | apply NoDup_seq|].
    intros x. rewrite <- mapHas_elem, Hhas, elem_of_seq.
    destruct (Nat.ltb_spec x n); split; intros; try lia; try discriminate; reflexivity. }
  unfold mapSize. transitivity (length (mapKeys ms)).
  - unfold mapKeys. rewrite length_fmap. reflexivity.
  - rewrite Hperm. apply length_seq.
Qed.

Lemma trigger_dense data ms :
  noHoles data = true ->
  NoDup (mapKeys ms) ->
  (forall j, mapHas j ms = (j <? mapSize ms)) ->
  NoDup (mapKeys (trigger template data ms).1) /\
  (forall j, mapHas j (trigger template data ms).1 = (j <? length data)) /\
  mapSize (trigger template data ms).1 = length data.
Proof.
  intros Hn Hnd Hdense.
  destruct (trigger_exact data ms Hnd) as [Hnd' Hhas].
  { intros j Hj. rewrite Hdense in Hj. apply Nat.ltb_lt in Hj. lia. }
  assert (Hhas' : forall j, mapHas j (trigger template data ms).1 = (j <? length data)).
  { intros j. rewrite Hhas. apply definedAt_noHoles, Hn. }
  split; [exact Hnd'|]. split; [exact Hhas'|].
  apply mapSize_initial_segment; assumption.
Qed.

Lemma triggerAll_dense calls : forall ms,
  forallb noHoles calls = true ->
  NoDup (mapKeys ms) ->
  (forall j, mapHas j ms = (j <? mapSize ms)) ->
  forall j, mapHas j (triggerAll template calls ms).1 =
            (j <? match last calls with Some data => length data | None => mapSize ms end).
Proof.
  induction calls as [|data rest IH]; intros ms Hall Hnd Hdense j; simpl.
  - apply Hdense.
  - simpl in Hall. apply andb_true_iff in Hall as [Hn Hrest].
    destruct (trigger_dense data ms Hn Hnd Hdense) as (Hnd1 & Hhas1 & Hsize1).
    destruct (trigger template data ms) as [ms1 obs1]. cbn [fst] in *.
    assert (Hdense1 : forall j, mapHas j ms1 = (j <? mapSize ms1)).
    { intros k. rewrite Hsize1. apply Hhas1. }
    specialize (IH ms1 Hrest Hnd1 Hdense1 j).
    destruct (triggerAll template rest ms1) as [ms2 obs2]. cbn [fst] in *.
    rewrite IH, last_cons. destruct (last rest); [reflexivity|].
    rewrite Hsize1. reflexivity.
Qed.

End PoolDense.

(** X14. When no manager lies at or beyond [max(data.length,
    managers.size)], after [trigger] the pool holds a manager at exactly
    the indices where [data] has a defined entry, holes included. *)
Theorem trigger_exact_within_bound
  (template : Types.TaskTemplate) (data : list (option nat)) (ms : Pool.ManagerMap) (j : nat) :
  NoDup (Pool.mapKeys ms) ->
  (forall k, Pool.mapHas k ms = true -> k < Nat.max (length data) (Pool.mapSize ms)) ->
  Pool.mapHas j (Pool.trigger template data ms).1 = Pool.definedAt data j.
Proof.
  intros Hnd Hbound. apply (trigger_exact template data ms Hnd Hbound).
Qed.

(** X15. As long as no [data] has an [undefined] entry, a pool that starts
    empty holds after every [trigger] exactly the managers 0 ..
    [data.length - 1] of the last [data]: growing creates the missing
    ones, shrinking removes the ones at the end. *)
Theorem triggers_without_holes
  (template : Types.TaskTemplate) (calls : list (list (option nat)))
  (data : list (option nat)) (j : nat) :
  forallb PoolInv.noHoles (calls ++ [data]) = true ->
  Pool.mapHas j (PoolInv.triggerAll template (calls ++ [data]) Pool.empty).1
    = (j <? length data).
Proof.
  intros Hall.
  rewrite (triggerAll_dense template (calls ++ [data]) Pool.empty Hall).
  - rewrite last_snoc. reflexivity.
  - constructor.
  - intros k. reflexivity.
Qed.

Section PoolOrder.

Import Pool PoolInv.

Variable template : Types.TaskTemplate.

Lemma ascendingFrom_weaken slots : forall a b,
  b <= a -> ascendingFrom a slots = true -> ascendingFrom b slots = true.
Proof.
  destruct slots as [|x rest]; intros a b Hab H; [reflexivity|].
  simpl in *. apply andb_true_iff in H as [H1 H2]. apply Nat.leb_le in H1.
  rewrite H2, andb_true_r. apply Nat.leb_le. lia.
Qed.

Lemma ascendingFrom_app i xs : forall low ys,
  low <= i ->
  Forall (fun x => x = i) xs ->
  ascendingFrom i ys = true ->
  ascendingFrom low (xs ++ ys) = true.
Proof.
  induction xs as [|x xs IH]; intros low ys Hlow Hall Hys; simpl.
  - apply (ascendingFrom_weaken ys i low Hlow Hys).
  - inversion Hall; subst. rewrite (IH i ys (Nat.le_refl i)) by assumption.
    rewrite andb_true_r. apply Nat.leb_le. exact Hlow.
Qed.

Lemma slots_AtSlot i (obs : list Manager.Obs) :
  Forall (fun x => x = i) (slotOf <$> (AtSlot i <$> obs)).
Proof.
  induction obs as [|o obs IH]; [constructor|]. cbn. constructor; [reflexivity | exact IH].
Qed.

Lemma slotEnter_slots data i ms :
  Forall (fun x => x = i) (slotOf <$> (slotEnter template data i ms).1.2).
Proof.
  unfold slotEnter.
  destruct (entryAt data i) as [d|]; destruct (mapGet i ms) as [m|].
  - destruct (Manager.updateConfig template d (Manager.closure m)) as [[st obs] out].
    apply slots_AtSlot.
  - destruct (Manager.updateConfig template d _) as [[st obs] out]. apply slots_AtSlot.
  - destruct (Manager.teardown template (Manager.closure m)) as [st obs]. apply slots_AtSlot.
  - constructor.
Qed.

Lemma slotLeave_slots i s ms :
  Forall (fun x => x = i) (slotOf <$> (slotLeave template i s ms).2).
Proof.
  destruct s as [| |out]; cbn; try constructor.
  destruct (mapGet i ms) as [m|]; [|constructor].
  destruct (Manager.finishUpdateConfig template out (Manager.closure m)) as [st obs].
  apply slots_AtSlot.
Qed.

Lemma reconcile_ascending data todo : forall i ms,
  ascendingFrom i (slotOf <$> (reconcile template data i todo ms).2) = true.
Proof.
  induction todo as [|todo IH]; intros i ms; [reflexivity|]. simpl.
  pose proof (slotEnter_slots data i ms) as H1.
  destruct (slotEnter template data i ms) as [[ms1 obs1] s]. cbn [fst snd] in H1.
  pose proof (slotLeave_slots i s ms1) as H2.
  destruct (slotLeave template i s ms1) as [ms2 obs2]. cbn [snd] in H2.
  specialize (IH (S i) ms2).
  destruct (reconcile template data (S i) todo ms2) as [ms3 obs3]. cbn [snd] in *.
  rewrite !fmap_app, app_assoc.
  apply (ascendingFrom_app i); [lia | apply Forall_app; split; assumption|].
  apply (ascendingFrom_weaken _ (S i)); [lia | exact IH].
Qed.

End PoolOrder.

(** X16. The observations of one [trigger] call come in ascending slot
    order: the loop finishes what it does at a slot, awaits included,
    before it touches the next one. *)
Theorem trigger_in_slot_order
  (template : Types.TaskTemplate) (data : list (option nat)) (ms : Pool.ManagerMap) :
  PoolInv.ascendingFrom 0 (PoolInv.slotOf <$> (Pool.trigger template data ms).2) = true.
Proof. apply reconcile_ascending. Qed.

Section PoolEntries.

Import Pool PoolInv.

Variable template : Types.TaskTemplate.

Lemma startTask_carries data fe st :
  Manager.entryId (Manager.startTask template data fe st).1.1 = Manager.entryId st /\
  Forall (carries (Manager.entryId st)) (Manager.startTask template data fe st).1.2.
Proof.
  rewrite startTask_eq. destruct (Manager.outerTeardownInitiated st); cbn;
    split; try reflexivity; repeat constructor.
Qed.

Lemma updateConfig_carries data st :
  Manager.entryId (Manager.updateConfig template data st).1.1 = Manager.entryId st /\
  Forall (carries (Manager.entryId st)) (Manager.updateConfig template data st).1.2.
Proof.
  unfold Manager.updateConfig.
  change (Manager.outerActiveTask (Manager.withFirstEvent false st))
    with (Manager.outerActiveTask st).
  destruct (Manager.outerActiveTask st) as [t|].
  - destruct (Types.interruptible template);
      [destruct (Manager.queued t)
      |destruct (Types.persistent template); [|destruct (Manager.queued t)]];
      cbn; split; try reflexivity; repeat constructor.
  - apply (startTask_carries data (Manager.outerFirstEvent st)
             (Manager.withFirstEvent false st)).
Qed.

Lemma teardown_carries st :
  Manager.entryId (Manager.teardown template st).1 = Manager.entryId st /\
  Forall (carries (Manager.entryId st)) (Manager.teardown template st).2.
Proof.
  rewrite teardown_state, teardown_obs.
  destruct (Manager.outerTeardownInitiated st); [split; [reflexivity|constructor]|].
  destruct (Manager.outerActiveTask st), (Types.teardown template); cbn;
    split; try reflexivity; repeat constructor.
Qed.

Lemma updaterResumes_carries i st st' obs out :
  Manager.updaterResumes template i st = Some (st', obs, out) ->
  Manager.entryId st' = Manager.entryId st /\ Forall (carries (Manager.entryId st)) obs.
Proof.
  unfold Manager.updaterResumes. destruct (Manager.isSettled i st); [|discriminate].
  destruct (Manager.takeUpdater i (Manager.updaters st)) as [[u rest]|]; [|discriminate].
  intros H. inversion H as [E].
  pose proof (startTask_carries (Manager.payload u) (Manager.first u)
                (Manager.withUpdaters rest st)) as Hc.
  rewrite E in Hc. exact Hc.
Qed.

Lemma finishUpdateConfig_carries out st :
  Manager.entryId (Manager.finishUpdateConfig template out st).1 = Manager.entryId st /\
  Forall (carries (Manager.entryId st)) (Manager.finishUpdateConfig template out st).2.
Proof.
  destruct out as [|i|i]; cbn.
  - split; [reflexivity | constructor].
  - destruct (Manager.updaterResumes template i (Manager.taskSettles i st))
      as [[[st' obs] out']|] eqn:E.
    + destruct (updaterResumes_carries _ _ _ _ _ E) as [He Hc].
      destruct (taskSettles_fields i st) as (_ & _ & _ & Hentry & _).
      rewrite Hentry in He, Hc.
      destruct out' as [|j|j]; cbn; try (split; assumption).
      destruct (taskSettles_fields j st') as (_ & _ & _ & Hentry' & _).
      rewrite Hentry'. split; assumption.
    + cbn. destruct (taskSettles_fields i st) as (_ & _ & _ & Hentry & _).
      split; [exact Hentry | constructor].
  - destruct (taskSettles_fields i st) as (_ & _ & _ & Hentry & _).
    split; [exact Hentry | constructor].
Qed.

Lemma entryMatches_AtSlot i obs :
  Forall (carries i) obs -> Forall (fun o => entryMatches o = true) (AtSlot i <$> obs).
Proof.
  induction 1 as [|o obs Ho _ IH]; [constructor|]. cbn. constructor; [|exact IH].
  destruct o; cbn in *; try reflexivity. subst. apply Nat.eqb_refl.
Qed.

Lemma keyed_mapSet i m ms :
  Manager.entryId (Manager.closure m) = i -> keyed ms -> keyed (mapSet i m ms).
Proof.
  intros Hm. unfold keyed. induction ms as [|[k m'] rest IH]; intros H; simpl.
  - repeat constructor. exact Hm.
  - apply Forall_cons in H as [Hhd Htl].
    destruct (Nat.eqb_spec k i) as [E|]; constructor; auto.
    cbn. rewrite E. exact Hm.
Qed.

Lemma keyed_mapDelete i ms : keyed ms -> keyed (mapDelete i ms).
Proof.
  unfold keyed. induction ms as [|[k m'] rest IH]; intros H; simpl; [constructor|].
  inversion H; subst. destruct (Nat.eqb k i); [assumption | constructor; auto].
Qed.

Lemma keyed_mapGet i m ms :
  keyed ms -> mapGet i ms = Some m -> Manager.entryId (Manager.closure m) = i.
Proof.
  unfold keyed. induction ms as [|[k m'] rest IH]; intros H Hg; simpl in Hg;
    [discriminate|].
  apply Forall_cons in H as [Hhd Htl]. destruct (Nat.eqb_spec k i) as [E|]; [|auto].
  inversion Hg; subst. exact Hhd.
Qed.

Lemma slotEnter_keyed data i ms :
  keyed ms ->
  keyed (slotEnter template data i ms).1.1 /\
  Forall (fun o => entryMatches o = true) (slotEnter template data i ms).1.2.
Proof.
  intros Hk. unfold slotEnter.
  destruct (entryAt data i) as [d|]; destruct (mapGet i ms) as [m|] eqn:Hg.
  - pose proof (keyed_mapGet i m ms Hk Hg) as Hm.
    destruct (updateConfig_carries d (Manager.closure m)) as [He Hc].
    destruct (Manager.updateConfig template d (Manager.closure m)) as [[st obs] out].
    cbn in *. rewrite Hm in *. split.
    + apply keyed_mapSet; [exact He | exact Hk].
    + apply entryMatches_AtSlot, Hc.
  - destruct (updateConfig_carries d (Manager.closure (Manager.TaskManager i))) as [He Hc].
    destruct (Manager.updateConfig template d _) as [[st obs] out].
    cbn in *. split.
    + apply keyed_mapSet; [exact He|]. apply keyed_mapSet; [reflexivity | exact Hk].
    + apply entryMatches_AtSlot, Hc.
  - pose proof (keyed_mapGet i m ms Hk Hg) as Hm.
    destruct (teardown_carries (Manager.closure m)) as [He Hc].
    destruct (Manager.teardown template (Manager.closure m)) as [st obs].
    cbn in *. rewrite Hm in *. split.
    + apply keyed_mapSet; [exact He | exact Hk].
    + apply entryMatches_AtSlot, Hc.
  - split; [exact Hk | constructor].
Qed.

Lemma slotLeave_keyed i s ms :
  keyed ms ->
  keyed (slotLeave template i s ms).1 /\
  Forall (fun o => entryMatches o = true) (slotLeave template i s ms).2.
Proof.
  intros Hk. destruct s as [| |out]; cbn.
  - split; [exact Hk | constructor].
  - split; [apply keyed_mapDelete, Hk | constructor].
  - destruct (mapGet i ms) as [m|] eqn:Hg; [|split; [exact Hk | constructor]].
    pose proof (keyed_mapGet i m ms Hk Hg) as Hm.
    destruct (finishUpdateConfig_carries out (Manager.closure m)) as [He Hc].
    destruct (Manager.finishUpdateConfig template out (Manager.closure m)) as [st obs].
    cbn in *. rewrite Hm in *. split.
    + apply keyed_mapSet; [exact He | exact Hk].
    + apply entryMatches_AtSlot, Hc.
Qed.

Lemma reconcile_keyed data todo : forall i ms,
  keyed ms ->
  keyed (reconcile template data i todo ms).1 /\
  Forall (fun o => entryMatches o = true) (reconcile template data i todo ms).2.
Proof.
  induction todo as [|todo IH]; intros i ms Hk; [split; [exact Hk | constructor]|].
  simpl.
  destruct (slotEnter_keyed data i ms Hk) as [K1 O1].
  destruct (slotEnter template data i ms) as [[ms1 obs1] s]. cbn [fst snd] in K1, O1.
  destruct (slotLeave_keyed i s ms1 K1) as [K2 O2].
  destruct (slotLeave template i s ms1) as [ms2 obs2]. cbn [fst snd] in K2, O2.
  destruct (IH (S i) ms2 K2) as [K3 O3].
  destruct (reconcile template data (S i) todo ms2) as [ms3 obs3]. cbn [fst snd] in *.
  split; [exact K3|]. repeat (apply Forall_app; split); assumption.
Qed.

Lemma triggerAll_keyed calls : forall ms,
  keyed ms ->
  keyed (triggerAll template calls ms).1 /\
  Forall (fun o => entryMatches o = true) (triggerAll template calls ms).2.
Proof.
  induction calls as [|data rest IH]; intros ms Hk; [split; [exact Hk | constructor]|].
  simpl. destruct (reconcile_keyed data (Nat.max (length data) (mapSize ms)) 0 ms Hk)
    as [K1 O1].
  fold (trigger template data ms) in K1, O1.
  destruct (trigger template data ms) as [ms1 obs1]. cbn [fst snd] in K1, O1.
  destruct (IH ms1 K1) as [K2 O2].
  destruct (triggerAll template rest ms1) as [ms2 obs2]. cbn [fst snd] in *.
  split; [exact K2|]. apply Forall_app; split; assumption.
Qed.

End PoolEntries.

(** X17. Every task a pool starts for slot [i] is launched with
    [entryId = String(i)]: whatever sequence of [trigger] calls a pool has
    seen since it was created, a launch observed at a slot carries the
    index of that slot as its entry id. *)
Theorem pool_launches_carry_slot
  (template : Types.TaskTemplate) (calls : list (list (option nat))) :
  Forall (fun o => PoolInv.entryMatches o = true)
         (PoolInv.triggerAll template calls Pool.empty).2.
Proof.
  apply (triggerAll_keyed template calls Pool.empty). constructor.
Qed.

Section PoolLatched.

Import Pool PoolInv.

Variable template : Types.TaskTemplate.

Lemma count_zero_not p obs :
  ManagerInv.count p obs = 0 -> Forall (fun o => p o = false) obs.
Proof.
  induction obs as [|o obs IH]; intros H; [constructor|].
  rewrite count_cons in H. destruct (p o) eqn:E; [simpl in H; lia|].
  constructor; [exact E | apply IH; simpl in H; exact H].
Qed.

Lemma quiet_AtSlot i obs :
  Forall (fun o => ManagerInv.isStart o = false) obs ->
  Forall (fun o => isStartAt o = false) (AtSlot i <$> obs).
Proof.
  induction 1 as [|o obs Ho _ IH]; [constructor|]. cbn. constructor; assumption.
Qed.

Lemma updateConfig_latched data st :
  Manager.outerTeardownInitiated st = true ->
  Manager.outerTeardownInitiated (Manager.updateConfig template data st).1.1 = true /\
  Forall (fun o => ManagerInv.isStart o = false) (Manager.updateConfig template data st).1.2.
Proof.
  intros Hl.
  pose proof (latched_step template (Manager.CallUpdateConfig data) st) as H.
  cbn [Manager.step] in H.
  destruct (Manager.updateConfig template data st) as [[st' obs] out].
  destruct (H st' obs Hl eq_refl) as (H1 & H2 & _).
  split; [exact H1 | apply count_zero_not, H2].
Qed.

Lemma finishUpdateConfig_latched out st :
  Manager.outerTeardownInitiated st = true ->
  Manager.outerTeardownInitiated (Manager.finishUpdateConfig template out st).1 = true /\
  Forall (fun o => ManagerInv.isStart o = false)
         (Manager.finishUpdateConfig template out st).2.
Proof.
  intros Hl.
  assert (Hsettle : forall i s, Manager.outerTeardownInitiated s = true ->
            Manager.outerTeardownInitiated (Manager.taskSettles i s) = true).
  { intros i s Hs. destruct (taskSettles_fields i s) as (_ & _ & F & _).
    rewrite F. exact Hs. }
  destruct out as [|i|i]; cbn.
  - split; [exact Hl | constructor].
  - pose proof (latched_step template (Manager.UpdaterResumes i)
                  (Manager.taskSettles i st)) as H.
    cbn [Manager.step] in H.
    destruct (Manager.updaterResumes template i (Manager.taskSettles i st))
      as [[[st' obs] out']|].
    + destruct (H st' obs (Hsettle i st Hl) eq_refl) as (H1 & H2 & _).
      destruct out' as [|j|j]; cbn;
        (split; [auto | apply count_zero_not, H2]).
    + cbn. split; [auto | constructor].
  - split; [auto | constructor].
Qed.

Lemma allLatched_mapSet i m ms :
  Manager.outerTeardownInitiated (Manager.closure m) = true ->
  allLatched ms -> allLatched (mapSet i m ms).
Proof.
  intros Hm. unfold allLatched. induction ms as [|[k m'] rest IH]; intros H; simpl.
  - repeat constructor. exact Hm.
  - apply Forall_cons in H as [Hhd Htl]. destruct (Nat.eqb k i); constructor; auto.
Qed.

Lemma allLatched_mapDelete i ms : allLatched ms -> allLatched (mapDelete i ms).
Proof.
  unfold allLatched. induction ms as [|[k m'] rest IH]; intros H; simpl; [constructor|].
  apply Forall_cons in H as [Hhd Htl]. destruct (Nat.eqb k i); [assumption | constructor; auto].
Qed.

Lemma allLatched_mapGet i m ms :
  allLatched ms -> mapGet i ms = Some m ->
  Manager.outerTeardownInitiated (Manager.closure m) = true.
Proof.
  unfold allLatched. induction ms as [|[k m'] rest IH]; intros H Hg; simpl in Hg;
    [discriminate|].
  apply Forall_cons in H as [Hhd Htl]. destruct (Nat.eqb k i); [|auto].
  inversion Hg; subst. exact Hhd.
Qed.

(** One pass of the loop over a pool of latched managers, at a slot that
    has a manager whenever its entry is defined. *)
Lemma slot_latched data i ms :
  allLatched ms ->
  (definedAt data i = true -> mapHas i ms = true) ->
  let ms1 := (slotEnter template data i ms).1.1 in
  let out := slotLeave template i (slotEnter template data i ms).2 ms1 in
  allLatched out.1 /\
  Forall (fun o => isStartAt o = false) ((slotEnter template data i ms).1.2 ++ out.2).
Proof.
  intros Hall Hhas. unfold slotEnter, definedAt, mapHas in *.
  destruct (entryAt data i) as [d|]; destruct (mapGet i ms) as [m|] eqn:Hg.
  - pose proof (allLatched_mapGet i m ms Hall Hg) as Hm.
    destruct (updateConfig_latched d (Manager.closure m) Hm) as [L1 Q1].
    destruct (Manager.updateConfig template d (Manager.closure m)) as [[st obs] out].
    cbn in *. rewrite mapGet_mapSet, Nat.eqb_refl. cbn.
    destruct (finishUpdateConfig_latched out st L1) as [L2 Q2].
    destruct (Manager.finishUpdateConfig template out st) as [st' obs']. cbn in *.
    split.
    + apply allLatched_mapSet; [exact L2|]. apply allLatched_mapSet; assumption.
    + apply Forall_app. split; apply quiet_AtSlot; assumption.
  - specialize (Hhas eq_refl). discriminate.
  - pose proof (allLatched_mapGet i m ms Hall Hg) as Hm.
    pose proof (teardown_fields template (Manager.closure m)) as (L1 & _ & Q1 & _).
    destruct (Manager.teardown template (Manager.closure m)) as [st obs]. cbn in *.
    split.
    + apply allLatched_mapDelete, allLatched_mapSet; assumption.
    + rewrite app_nil_r. apply quiet_AtSlot, count_zero_not, Q1.
  - cbn. split; [exact Hall | constructor].
Qed.

Lemma reconcile_latched data todo : forall i ms,
  NoDup (mapKeys ms) ->
  allLatched ms ->
  (forall j, i <= j -> definedAt data j = true -> mapHas j ms = true) ->
  allLatched (reconcile template data i todo ms).1 /\
  Forall (fun o => isStartAt o = false) (reconcile template data i todo ms).2.
Proof.
  induction todo as [|todo IH]; intros i ms Hnd Hall Hhas; [split; [exact Hall | constructor]|].
  simpl.
  destruct (slot_latched data i ms Hall (Hhas i (Nat.le_refl i))) as [L2 Q2].
  destruct (slot_reconciles template data i ms Hnd) as [Hnd2 Hhas2].
  destruct (slotEnter template data i ms) as [[ms1 obs1] s]. cbn [fst snd] in *.
  destruct (slotLeave template i s ms1) as [ms2 obs2]. cbn [fst snd] in *.
  destruct (IH (S i) ms2 Hnd2 L2) as [L3 Q3].
  { intros j Hj Hd. rewrite Hhas2.
    destruct (Nat.eqb_spec i j); [lia|]. apply Hhas; [lia | exact Hd]. }
  destruct (reconcile template data (S i) todo ms2) as [ms3 obs3]. cbn [fst snd] in *.
  split; [exact L3|]. rewrite app_assoc. apply Forall_app. split; assumption.
Qed.

Lemma teardown_latches ms :
  PoolTrace.builtByPool ms ->
  allLatched (Pool.teardown template ms).1 /\
  mapKeys (Pool.teardown template ms).1 = mapKeys ms.
Proof.
  unfold PoolTrace.builtByPool, Pool.teardown, allLatched.
  induction ms as [|[i m] rest IH]; intros H; [split; [constructor | reflexivity]|].
  apply Forall_cons in H as [Hm Hrest]. rewrite teardownEach_cons by exact Hm.
  destruct (IH Hrest) as [IH1 IH2]. cbn [fst]. split.
  - constructor; [|exact IH1]. cbn. apply manager_teardown_latched.
  - cbn. f_equal. exact IH2.
Qed.

End PoolLatched.

(** X18. After [teardown()] of a pool, a [trigger] whose defined entries
    all have a manager launches nothing: the pool keeps its managers, each
    has its latch set, and a latched manager starts no task. *)
Theorem pool_quiet_after_teardown
  (template : Types.TaskTemplate) (data : list (option nat)) (ms : Pool.ManagerMap) :
  PoolTrace.builtByPool ms ->
  NoDup (Pool.mapKeys ms) ->
  (forall j, Pool.definedAt data j = true -> Pool.mapHas j ms = true) ->
  Pool.mapKeys (Pool.teardown template ms).1 = Pool.mapKeys ms /\
  Forall (fun o => PoolInv.isStartAt o = false)
         (Pool.trigger template data (Pool.teardown template ms).1).2.
Proof.
  intros Hb Hnd Hhas.
  destruct (teardown_latches template ms Hb) as [Hl Hk].
  split; [exact Hk|]. unfold Pool.trigger.
  apply reconcile_latched; [rewrite Hk; exact Hnd | exact Hl|].
  intros j _ Hd. apply mapHas_elem. rewrite Hk. apply mapHas_elem. apply Hhas, Hd.
Qed.

(** ** The supervisor: properties *)

(** X19. [watch] refuses exactly the tasks that ask for [persistent: true]
    together with [initialRun: false]; every template it builds has
    [initialRun] when it is persistent, and the flags and the retry count
    the task leaves out are [initialRun = true], [interruptible = true],
    [persistent = false] and three retries. *)
Theorem watch_template_validated (task : Watch.TaskTemplateInput) :
  (Watch.template task = None <->
     Watch.persistent task = Some true /\ Watch.initialRun task = Some false) /\
  (forall t, Watch.template task = Some t ->
     (Types.persistent t = true -> Types.initialRun t = true) /\
     Types.initialRun t = nullish (Watch.initialRun task) true /\
     Types.interruptible t = nullish (Watch.interruptible task) true /\
     Types.persistent t = nullish (Watch.persistent task) false /\
     (Watch.retry task = None -> Types.retries (Types.retry t) = inject_Z 3) /\
     (forall r, Watch.retry task = Some r -> Types.retry t = r)).
Proof.
  split.
  - unfold Watch.template.
    destruct (Watch.persistent task) as [[|]|]; destruct (Watch.initialRun task) as [[|]|];
      cbn; split; intros H; try discriminate; try (destruct H; discriminate);
      try (split; reflexivity); reflexivity.
  - intros t Ht. unfold Watch.template in Ht.
    destruct (nullish (Watch.persistent task) false && negb (nullish (Watch.initialRun task) true))
      eqn:E; [discriminate|].
    inversion Ht; subst t; clear Ht. cbn.
    split; [|split; [reflexivity | split; [reflexivity | split; [reflexivity | split]]]].
    + intros Hp. rewrite Hp in E. cbn in E. apply negb_false_iff in E. exact E.
    + intros Hr. rewrite Hr. reflexivity.
    + intros r Hr. rewrite Hr. reflexivity.
Qed.

Section Supervisor.

Import Watch.

Variable tpl : Types.TaskTemplate.

Lemma countObs_app p xs ys : countObs p (xs ++ ys) = countObs p xs + countObs p ys.
Proof. unfold countObs. rewrite filter_app, length_app. reflexivity. Qed.

Lemma countObs_PoolObs_close (obs : list Pool.Obs) : countObs isClose (PoolObs <$> obs) = 0.
Proof. induction obs as [|o obs IH]; [reflexivity | exact IH]. Qed.

Lemma abortRoot_fields st :
  ready (abortRoot st).1 = ready st /\
  terminating (abortRoot st).1 = terminating st /\
  countObs isClose (abortRoot st).2 = 0 /\
  countObs isPoolObs (abortRoot st).2 = 0 /\
  (managers st = Pool.empty -> managers (abortRoot st).1 = Pool.empty).
Proof.
  unfold abortRoot. destruct (rootAborted st); cbn; repeat split; auto.
  intros ->. reflexivity.
Qed.

(** [shutdown] sets the latch, and closes the watcher only if the latch
    was not set. *)
Lemma shutdown_fields st :
  terminating (shutdown tpl st).1 = true /\
  ready (shutdown tpl st).1 = ready st /\
  countObs isClose (shutdown tpl st).2 = (if terminating st then 0 else 1) /\
  (managers st = Pool.empty ->
     managers (shutdown tpl st).1 = Pool.empty /\
     countObs isPoolObs (shutdown tpl st).2 = 0).
Proof.
  unfold shutdown. destruct (terminating st) eqn:Ht.
  - cbn. repeat split; auto.
  - set (st1 := {| ready := ready st; terminating := true; rootAborted := rootAborted st;
                   promise := promise st; managers := managers st |}).
    destruct (abortRoot_fields st1) as (A1 & A2 & A3 & A4 & A5).
    destruct (abortRoot st1) as [st2 aborts]. cbn [fst snd] in *.
    destruct (Pool.teardown tpl (managers st2)) as [ms obs] eqn:Et. cbn [fst snd].
    split; [exact A2|]. split; [exact A1|]. split.
    + change (WatcherClose :: aborts ++ (PoolObs <$> obs))
        with ([WatcherClose] ++ aborts ++ (PoolObs <$> obs)).
      rewrite !countObs_app, A3, countObs_PoolObs_close. reflexivity.
    + intros Hempty. rewrite (A5 Hempty) in Et. cbn in Et. inversion Et; subst.
      split; [reflexivity|].
      change (countObs isPoolObs ([WatcherClose] ++ aborts ++ []) = 0).
      rewrite !countObs_app, A4. reflexivity.
Qed.

Lemma emit_fields parsed st :
  terminating (emit tpl parsed st).1 = terminating st /\
  ready (emit tpl parsed st).1 = ready st /\
  countObs isClose (emit tpl parsed st).2 = 0.
Proof.
  unfold emit. destruct parsed as [data|]; [|cbn; auto].
  destruct (Pool.trigger tpl data (managers st)) as [ms obs]. cbn.
  repeat split. apply countObs_PoolObs_close.
Qed.

Lemma settle_fields result st :
  terminating (settle result st).1 = terminating st /\
  ready (settle result st).1 = ready st /\
  managers (settle result st).1 = managers st /\
  countObs isClose (settle result st).2 = 0 /\
  countObs isPoolObs (settle result st).2 = 0.
Proof.
  unfold settle. destruct (promise st); cbn; repeat split; auto; destruct result; reflexivity.
Qed.

(** An event closes the watcher at most once, and not at all once the
    supervisor is terminating; it never clears the latch. *)
Lemma handle_closes e st :
  countObs isClose (handle tpl e st).2 <= (if terminating st then 0 else 1) /\
  (terminating st = true -> terminating (handle tpl e st).1 = true) /\
  (countObs isClose (handle tpl e st).2 = 1 -> terminating (handle tpl e st).1 = true).
Proof.
  destruct e as [parsed|parsed| | |]; cbn [handle].
  - set (st1 := {| ready := true; terminating := terminating st;
                   rootAborted := rootAborted st; promise := promise st;
                   managers := managers st |}).
    assert (H : exists st2 obs2,
              (if terminating st1 then (st1, []) else emit tpl parsed st1) = (st2, obs2) /\
              terminating st2 = terminating st /\ countObs isClose obs2 = 0).
    { destruct (terminating st1) eqn:E.
      - exists st1, []. repeat split.
      - destruct (emit_fields parsed st1) as (F1 & _ & F3).
        destruct (emit tpl parsed st1) as [st2 obs2]. exists st2, obs2. repeat split; auto. }
    destruct H as (st2 & obs2 & -> & T2 & C2).
    destruct (settle_fields true st2) as (S1 & _ & _ & S4 & _).
    destruct (settle true st2) as [st3 obs3]. cbn [fst snd] in *.
    rewrite countObs_app, C2, S4, S1, T2. repeat split; auto; try discriminate; try (destruct (terminating st); lia).
  - destruct (ready st).
    + destruct (emit_fields parsed st) as (F1 & _ & F3). rewrite F1, F3.
      repeat split; auto; try discriminate; try (destruct (terminating st); lia).
    + cbn. repeat split; auto; try discriminate; try (destruct (terminating st); lia).
  - destruct (ready st).
    + destruct (shutdown_fields st) as (F1 & _ & F3 & _). rewrite F1, F3.
      repeat split; auto; try discriminate; try (destruct (terminating st); lia).
    + destruct (settle_fields false st) as (S1 & _ & _ & S4 & _). rewrite S1, S4.
      repeat split; auto; try discriminate; try (destruct (terminating st); lia).
  - destruct (rootAborted st).
    + cbn. repeat split; auto; try discriminate; try (destruct (terminating st); lia).
    + destruct (abortRoot_fields st) as (_ & A2 & A3 & _).
      destruct (abortRoot st) as [st1 obs1]. cbn [fst snd] in *.
      destruct (shutdown_fields st1) as (F1 & _ & F3 & _).
      destruct (shutdown tpl st1) as [st2 obs2]. cbn [fst snd] in *.
      rewrite countObs_app, A3, F3, F1, A2. repeat split; auto; try discriminate; try (destruct (terminating st); lia).
  - destruct (shutdown_fields st) as (F1 & _ & F3 & _). rewrite F1, F3.
    repeat split; auto; try discriminate; try (destruct (terminating st); lia).
Qed.

Lemma handleAll_closes events : forall st,
  countObs isClose (handleAll tpl events st).2 <= (if terminating st then 0 else 1).
Proof.
  induction events as [|e rest IH]; intros st; simpl.
  - destruct (terminating st); cbn; lia.
  - destruct (handle_closes e st) as (H1 & H2 & H3).
    destruct (handle tpl e st) as [st1 obs1]. cbn [fst snd] in *.
    specialize (IH st1).
    destruct (handleAll tpl rest st1) as [st2 obs2]. cbn [fst snd] in *.
    rewrite countObs_app.
    destruct (terminating st) eqn:Ht.
    + rewrite (H2 eq_refl) in IH. lia.
    + destruct (terminating st1) eqn:Ht1; [lia|].
      assert (countObs isClose obs1 = 0).
      { destruct (Nat.eq_dec (countObs isClose obs1) 1) as [E|]; [|lia].
        specialize (H3 E). congruence. }
      lia.
Qed.

(** Before [ready] the pool is not touched. *)
Lemma handle_before_ready e st :
  isReady e = false ->
  ready st = false ->
  managers st = Pool.empty ->
  ready (handle tpl e st).1 = false /\
  managers (handle tpl e st).1 = Pool.empty /\
  countObs isPoolObs (handle tpl e st).2 = 0.
Proof.
  intros He Hr Hm. destruct e as [parsed|parsed| | |]; cbn [handle]; try discriminate.
  - rewrite Hr. cbn. auto.
  - rewrite Hr. destruct (settle_fields false st) as (_ & S2 & S3 & _ & S5).
    rewrite S2, S3, S5. auto.
  - destruct (rootAborted st) eqn:Ea.
    + cbn. auto.
    + destruct (abortRoot_fields st) as (A1 & _ & _ & A4 & A5).
      destruct (abortRoot st) as [st1 obs1]. cbn [fst snd] in *.
      destruct (shutdown_fields st1) as (_ & F2 & _ & F4).
      destruct (F4 (A5 Hm)) as [F5 F6].
      destruct (shutdown tpl st1) as [st2 obs2]. cbn [fst snd] in *.
      rewrite countObs_app, A4, F6, F2, A1. auto.
  - destruct (shutdown_fields st) as (_ & F2 & _ & F4).
    destruct (F4 Hm) as [F5 F6]. rewrite F2, F5, F6. auto.
Qed.

Lemma handleAll_before_ready events : forall st,
  forallb (fun e => negb (isReady e)) events = true ->
  ready st = false ->
  managers st = Pool.empty ->
  managers (handleAll tpl events st).1 = Pool.empty /\
  countObs isPoolObs (handleAll tpl events st).2 = 0.
Proof.
  induction events as [|e rest IH]; intros st Hall Hr Hm; simpl; [auto|].
  simpl in Hall. apply andb_true_iff in Hall as [He Hrest]. apply negb_true_iff in He.
  destruct (handle_before_ready e st He Hr Hm) as (R1 & M1 & C1).
  destruct (handle tpl e st) as [st1 obs1]. cbn [fst snd] in *.
  destruct (IH st1 Hrest R1 M1) as [M2 C2].
  destruct (handleAll tpl rest st1) as [st2 obs2]. cbn [fst snd] in *.
  rewrite countObs_app, C1, C2. auto.
Qed.

End Supervisor.

(** X20. Until the watcher has emitted [ready] the supervisor does not
    touch the pool: changes are ignored, an error rejects the promise of
    [watch], and a shutdown finds no manager; no manager is created and
    nothing is launched. *)
Theorem watch_idle_before_ready
  (tpl : Types.TaskTemplate) (events : list Watch.Event) :
  forallb (fun e => negb (Watch.isReady e)) events = true ->
  Watch.managers (Watch.handleAll tpl events Watch.initial).1 = Pool.empty /\
  Watch.countObs Watch.isPoolObs (Watch.handleAll tpl events Watch.initial).2 = 0.
Proof.
  intros Hall. apply handleAll_before_ready; auto.
Qed.

(** X21. Whatever the watcher emits and however often shutdown is asked
    for (the returned [shutdown()], the abort of the controller, an error
    after [ready]), the supervisor closes the watcher at most once. *)
Theorem watch_closes_once
  (tpl : Types.TaskTemplate) (events : list Watch.Event) :
  Watch.countObs Watch.isClose (Watch.handleAll tpl events Watch.initial).2 <= 1.
Proof. apply (handleAll_closes tpl events Watch.initial). Qed.

(** ** The command line: properties *)

Section CliFacts.

Import Cli.

Variable resolve : string -> string.
Variable extname : string -> string.
Variable existsSync : string -> bool.

Lemma pick_last (l : list string) : forall acc,
  (Forall (fun c => existsSync c = false) l /\
   fold_left (fun r c => if existsSync c then Some c else r) l acc = acc) \/
  (exists before r after,
     l = before ++ r :: after /\ existsSync r = true /\
     Forall (fun c => existsSync c = false) after /\
     fold_left (fun r c => if existsSync c then Some c else r) l acc = Some r).
Proof.
  induction l as [|x l IH]; intros acc; [left; split; [constructor | reflexivity]|].
  simpl. destruct (IH (if existsSync x then Some x else acc)) as [[Hnone Hacc]|Hsome].
  - destruct (existsSync x) eqn:Ex.
    + right. exists [], x, l. repeat split; auto.
    + left. split; [constructor; assumption | exact Hacc].
  - right. destruct Hsome as (before & r & after & -> & Hr & Hafter & Hres).
    exists (x :: before), r, after. repeat split; auto.
Qed.

Lemma resolveAll_missing (paths : list string) :
  (exists scriptPath, scriptPath ∈ paths /\
     findEirenewatchScript resolve extname existsSync scriptPath = None) ->
  resolveAll resolve extname existsSync paths = None.
Proof.
  intros (sp & Hin & Hnone). induction paths as [|x rest IH]; [inversion Hin|].
  simpl. apply elem_of_cons in Hin as [->|Hin].
  - rewrite Hnone. reflexivity.
  - destruct (findEirenewatchScript resolve extname existsSync x) as [r|]; [|reflexivity].
    destruct (String.eqb r ""); [reflexivity|].
    rewrite (IH Hin). reflexivity.
Qed.

Variable glob : string -> list string.
Variable load : string -> option (gmap string Config.Value).
Variable watchResolves : string -> bool.

Lemma watchAll_prefix (resolved : list string) :
  watched (watchAll load watchResolves resolved) `prefix_of` resolved /\
  Forall (fun path => hasWatcher (load path) = true)
         (watched (watchAll load watchResolves resolved)) /\
  (exitCode (watchAll load watchResolves resolved) = None ->
   rejected (watchAll load watchResolves resolved) = false ->
   watched (watchAll load watchResolves resolved) = resolved).
Proof.
  induction resolved as [|x rest (IH1 & IH2 & IH3)]; simpl.
  - split; [exists []; reflexivity | split; [constructor | reflexivity]].
  - destruct (hasWatcher (load x)) eqn:Hw.
    + destruct (watchResolves x); cbn.
      * split; [apply prefix_cons, IH1|]. split; [constructor; assumption|].
        intros He Hr. rewrite (IH3 He Hr). reflexivity.
      * split; [exists rest; reflexivity|]. split; [repeat constructor; exact Hw|].
        discriminate.
    + cbn. split; [apply prefix_nil|]. split; [constructor | discriminate].
Qed.

End CliFacts.

(** X22. [findEirenewatchScript] returns the last of its candidates that
    exists (the path itself, then, when the path has no extension, the
    path with [.ts] and with [.js]), and [null] exactly when none exists;
    so a [.js] file beside an extensionless path is taken before the
    [.ts] file and before the path itself. *)
Theorem findEirenewatchScript_last_existing
  (resolve extname : string -> string) (existsSync : string -> bool) (inputPath : string) :
  (Cli.findEirenewatchScript resolve extname existsSync inputPath = None <->
     Forall (fun c => existsSync c = false) (Cli.possiblePaths resolve extname inputPath)) /\
  (forall r, Cli.findEirenewatchScript resolve extname existsSync inputPath = Some r ->
     exists before after,
       Cli.possiblePaths resolve extname inputPath = before ++ r :: after /\
       existsSync r = true /\
       Forall (fun c => existsSync c = false) after) /\
  (extname (resolve inputPath) = ""%string ->
   existsSync (String.append (resolve inputPath) ".js") = true ->
   Cli.findEirenewatchScript resolve extname existsSync inputPath
     = Some (String.append (resolve inputPath) ".js")).
Proof.
  unfold Cli.findEirenewatchScript.
  destruct (pick_last existsSync (Cli.possiblePaths resolve extname inputPath) None)
    as [[Hnone Hacc]|(before & r & after & Hl & Hr & Hafter & Hres)].
  - split; [|split].
    + split; [intros _; exact Hnone | intros _; exact Hacc].
    + intros r Hr. rewrite Hacc in Hr. discriminate.
    + intros He Hjs. exfalso. unfold Cli.possiblePaths in Hnone. rewrite He in Hnone.
      cbn in Hnone. rewrite !Forall_cons in Hnone. destruct Hnone as (_ & _ & H & _).
      congruence.
  - split; [|split].
    + rewrite Hres. split; [discriminate|]. intros Hall. exfalso.
      rewrite Hl in Hall. apply Forall_app in Hall as [_ Hall].
      apply Forall_cons in Hall as [H _]. congruence.
    + intros r' Hr'. rewrite Hres in Hr'. inversion Hr'; subst r'.
      exists before, after. auto.
    + intros He Hjs. unfold Cli.possiblePaths. rewrite He. cbn. rewrite Hjs. reflexivity.
Qed.

(** X23. When one of the scripts named on the command line is not found,
    [main] sets the exit code to 1 and starts no watch at all, not even
    for the scripts that were found. *)
Theorem main_missing_script
  (resolve extname : string -> string) (existsSync : string -> bool)
  (glob : string -> list string) (load : string -> option (gmap string Config.Value))
  (watchResolves : string -> bool) (patterns : list string) (scriptPath : string) :
  scriptPath ∈ Cli.scriptPaths glob patterns ->
  Cli.findEirenewatchScript resolve extname existsSync scriptPath = None ->
  Cli.main resolve extname existsSync glob load watchResolves patterns =
    {| Cli.exitCode := Some 1; Cli.watched := []; Cli.rejected := false |}.
Proof.
  intros Hin Hnone. unfold Cli.main.
  rewrite (resolveAll_missing resolve extname existsSync); [reflexivity|].
  exists scriptPath. split; assumption.
Qed.

(** X24. When all scripts are found, [main] starts the watches in order
    and stops at the first script whose export has no [Watcher] function
    (exit code 1) or whose [watch] fails: the scripts watched are a prefix
    of the scripts found, each of them exported a [Watcher] function, and
    they are all of them when [main] ends without exit code and without
    rejection. *)
Theorem main_watches_prefix
  (resolve extname : string -> string) (existsSync : string -> bool)
  (glob : string -> list string) (load : string -> option (gmap string Config.Value))
  (watchResolves : string -> bool) (patterns resolved : list string) :
  Cli.resolveAll resolve extname existsSync (Cli.scriptPaths glob patterns) = Some resolved ->
  let outcome := Cli.main resolve extname existsSync glob load watchResolves patterns in
  Cli.watched outcome `prefix_of` resolved /\
  Forall (fun path => Cli.hasWatcher (load path) = true) (Cli.watched outcome) /\
  (Cli.exitCode outcome = None -> Cli.rejected outcome = false ->
   Cli.watched outcome = resolved).
Proof.
  intros Hres outcome. unfold outcome, Cli.main. rewrite Hres.
  apply watchAll_prefix.
Qed.

(** X25. A configuration that went through [defineConfigWatcher] passes
    the check of the command line for a [Watcher] function exactly when
    the input names no [Watcher] or names a function; an input whose
    [Watcher] is present but not a function (say [undefined]) is refused. *)
Theorem defineConfigWatcher_passes_cli (input : gmap string Config.Value) :
  Cli.hasWatcher (Some (Config.defineConfigWatcher input)) =
    match input !! "Watcher"%string with
    | None => true
    | Some (Config.VWatcher _) => true
    | Some _ => false
    end.
Proof.
  unfold Cli.hasWatcher, Config.defineConfigWatcher.
  rewrite lookup_union, lookup_singleton_eq.
  destruct (input !! "Watcher"%string) as [[| |]|]; reflexivity.
Qed.




(** ** The earlier supervisor: properties *)

Section SubscriptionFacts.

Import Subscriptions.

Lemma launched_app xs ys : launched (xs ++ ys) = launched xs ++ launched ys.
Proof. unfold launched. apply omap_app. Qed.

(** The first trigger of a subscription launches with [first = true];
    a second one, while that task is active, launches nothing. *)
Lemma trigger_fresh data data' p template :
  launched (trigger data p (subscribe p template)).2 = [(p, true)] /\
  launched (trigger data' p (trigger data p (subscribe p template)).1).2 = [].
Proof.
  split; [reflexivity|].
  unfold trigger, subscribe. cbn.
  destruct (Types.interruptible template); cbn; [reflexivity|].
  destruct (Types.persistent template); reflexivity.
Qed.

Lemma ready_then_change data data' processes : forall from,
  launched (onReady data from (subscribeAll from processes)).2 =
    (fun p => (p, true)) <$> withInitialRun from processes /\
  launched (onChange data' from (onReady data from (subscribeAll from processes)).1).2 =
    (fun p => (p, true)) <$> withoutInitialRun from processes.
Proof.
  induction processes as [|template rest IH]; intros from; [split; reflexivity|].
  destruct (IH (S from)) as [IH1 IH2]. clear IH.
  destruct (trigger_fresh data data' from template) as [T1 T2].
  cbn [subscribeAll onReady withInitialRun withoutInitialRun].
  change (subscribe from template).1 with template.
  destruct (Types.initialRun template).
  - destruct (trigger data from (subscribe from template)) as [s1 obs1].
    cbn [fst snd] in *.
    destruct (onReady data (S from) (subscribeAll (S from) rest)) as [rest1 obs2].
    cbn [fst snd onChange] in *.
    destruct (trigger data' from s1) as [s2 obs3]. cbn [snd] in T2.
    destruct (onChange data' (S from) rest1) as [rest2 obs4]. cbn [fst snd] in *.
    rewrite !launched_app, T1, T2, IH1, IH2. split; reflexivity.
  - destruct (onReady data (S from) (subscribeAll (S from) rest)) as [rest1 obs2].
    cbn [fst snd onChange] in *.
    assert (T3 : launched (trigger data' from (subscribe from template)).2 = [(from, true)])
      by reflexivity.
    destruct (trigger data' from (subscribe from template)) as [s2 obs3]. cbn [snd] in T3.
    destruct (onChange data' (S from) rest1) as [rest2 obs4]. cbn [fst snd] in *.
    rewrite !launched_app, T3, IH1, IH2. split; reflexivity.
Qed.

End SubscriptionFacts.

(** X27. The earlier supervisor, which keeps one subscription per
    process, honours [initialRun]: on [ready] it launches exactly the
    processes whose template has [initialRun], each with [first = true];
    the first change after that launches exactly the others, for which it
    is the first event ([first = true]), while the ones that are running
    are interrupted or waited for and not launched again at once. *)
Theorem subscriptions_initialRun_gates
  (processes : list Types.TaskTemplate) (data data' : nat) :
  Subscriptions.launched
    (Subscriptions.onReady data 0 (Subscriptions.subscribeAll 0 processes)).2 =
    (fun p => (p, true)) <$> Subscriptions.withInitialRun 0 processes /\
  Subscriptions.launched
    (Subscriptions.onChange data' 0
       (Subscriptions.onReady data 0 (Subscriptions.subscribeAll 0 processes)).1).2 =
    (fun p => (p, true)) <$> Subscriptions.withoutInitialRun 0 processes.
Proof. apply ready_then_change. Qed.

(** ** The further statements at concrete inputs *)

(** Five retries allowed, two needed. *)
Lemma runTask_launches_bounded_witness :
  Types.persistent (Examples.withRetries 5) = false /\
  (Types.retries (Types.retry (Examples.withRetries 5)) == inject_Z 5)%Q /\
  (0 <= 5)%Z /\
  (Z.of_nat (RunTask.launches
               (RunTask.runTask (Examples.withRetries 5) true Samples.flaky false 10).1)
     <= 5 + 1)%Z /\
  Trace.attempts (RunTask.runTask (Examples.withRetries 5) true Samples.flaky false 10).1
    = [0%Z; 1%Z; 2%Z].
Proof.
  split; [reflexivity|]. split; [reflexivity|]. split; [lia|].
  apply (runTask_launches_bounded (Examples.withRetries 5) true false Samples.flaky 10 5).
  - reflexivity.
  - reflexivity.
  - lia.
Defined.

(** A persistent task whose launches all reject. *)
Lemma runTask_persistent_never_rejects_witness :
  Types.persistent (Examples.templateOf true true) = true /\
  (forall n, RunTask.launchOutcome Examples.rejecting n <> RunTask.LaunchRejectsNullish) /\
  Pacing.rejected
    (RunTask.runTask (Examples.templateOf true true) true Examples.rejecting false 7).2
    = false.
Proof.
  assert (H : forall n,
            RunTask.launchOutcome Examples.rejecting n <> RunTask.LaunchRejectsNullish)
    by (intros n; discriminate).
  split; [reflexivity|]. split; [exact H|].
  exact (proj2 (proj2 (runTask_persistent_never_rejects (Examples.templateOf true true)
                         true false Examples.rejecting 7 eq_refl)) H).
Defined.

(** A persistent task whose second launch rejects with [undefined]: the
    promise rejects with the [TypeError]. *)
Example persistent_rejects_on_nullish :
  RunTask.runTask (Examples.templateOf true true) true Samples.nullishSecond false 10 =
    ([RunTask.EvLaunch 0 true false; RunTask.EvDelay 2000; RunTask.EvLaunch 1 true false],
     RunTask.RejectedTypeError).
Proof. reflexivity. Qed.

Lemma runTask_persistent_runs_until_cancelled_witness :
  Types.persistent (Examples.templateOf true true) = true /\
  (forall n, RunTask.launchOutcome Samples.flaky n <> RunTask.LaunchAbortError) /\
  (forall n, RunTask.launchOutcome Samples.flaky n <> RunTask.LaunchRejectsNullish) /\
  (forall n, RunTask.abortDuringLaunch Samples.flaky n = false) /\
  (forall n, RunTask.abortDuringDelay Samples.flaky n = false) /\
  (RunTask.runTask (Examples.templateOf true true) true Samples.flaky false 6).2
    = RunTask.Pending /\
  RunTask.launches
    (RunTask.runTask (Examples.templateOf true true) true Samples.flaky false 6).1 = 6.
Proof.
  assert (H : forall n, RunTask.launchOutcome Samples.flaky n <> RunTask.LaunchAbortError).
  { intros n. simpl. destruct (n <? 2)%nat; discriminate. }
  assert (H' : forall n,
            RunTask.launchOutcome Samples.flaky n <> RunTask.LaunchRejectsNullish).
  { intros n. simpl. destruct (n <? 2)%nat; discriminate. }
  split; [reflexivity|]. split; [exact H|]. split; [exact H'|].
  split; [intros n; reflexivity|]. split; [intros n; reflexivity|].
  apply (runTask_persistent_runs_until_cancelled (Examples.templateOf true true) true
           Samples.flaky 6 eq_refl H H' (fun n => eq_refl) (fun n => eq_refl)).
Defined.

Lemma runTask_persistent_backoff_grows_witness :
  Types.persistent (Examples.templateOf true true) = true /\
  (forall n, exists e, RunTask.launchOutcome Examples.rejecting n = RunTask.LaunchRejects e) /\
  Trace.attempts
    (RunTask.runTask (Examples.templateOf true true) true Examples.rejecting false 5).1
    = [0%Z; 1%Z; 2%Z; 3%Z; 4%Z].
Proof.
  assert (H : forall n, exists e,
            RunTask.launchOutcome Examples.rejecting n = RunTask.LaunchRejects e).
  { intros n. exists n. reflexivity. }
  split; [reflexivity|]. split; [exact H|].
  apply (runTask_persistent_backoff_grows (Examples.templateOf true true) true
           Examples.rejecting 5 eq_refl H (fun n => eq_refl) (fun n => eq_refl)).
Defined.

(** The second launch observes the abort and rejects with an [AbortError]. *)
Lemma runTask_stops_witness :
  RunTask.launchOutcome Samples.abortedSecond 1 = RunTask.LaunchAbortError /\
  Trace.afterLaunch 1
    (RunTask.runTask (Examples.withRetries 5) true Samples.abortedSecond false 10).1
    = Some [] /\
  (RunTask.runTask (Examples.withRetries 5) true Samples.abortedSecond false 10).2
    = RunTask.Resolved.
Proof.
  split; [reflexivity|]. split; [reflexivity|].
  apply (runTask_stops (Examples.withRetries 5) true Samples.abortedSecond 10 1 []).
  - left. reflexivity.
  - reflexivity.
Defined.

Lemma manager_active_task_unsettled_witness :
  Manager.run (Examples.templateOf true false) Examples.burst (Manager.initial 0) =
    Some (Examples.afterBurst,
          [Manager.ObsTask 0 0 1 (RunTask.EvLaunch 0 true false);
           Manager.ObsAbort 0; Manager.ObsQueued 0; Manager.ObsAwait 0]) /\
  exists c, Manager.tasks Examples.afterBurst !! 0 = Some c /\ Manager.settled c = false.
Proof.
  split; [reflexivity|].
  apply (manager_active_task_unsettled (Examples.templateOf true false) 0 Examples.burst
           Examples.afterBurst
           [Manager.ObsTask 0 0 1 (RunTask.EvLaunch 0 true false);
            Manager.ObsAbort 0; Manager.ObsQueued 0; Manager.ObsAwait 0]
           {| Manager.id := 0; Manager.queued := true |});
    reflexivity.
Defined.

(** A teardown in the middle of a burst: the queued update resumes after
    the task has settled and launches nothing, and neither does a new one. *)
Lemma manager_no_start_after_teardown_witness :
  Manager.run (Examples.templateOf true false) Samples.afterTeardown
    (Manager.teardown (Examples.templateOf true false) Examples.afterBurst).1 =
    Some (Samples.afterTeardownState, Samples.afterTeardownObs) /\
  ManagerInv.count ManagerInv.isStart Samples.afterTeardownObs = 0 /\
  ManagerInv.count ManagerInv.isHook Samples.afterTeardownObs = 0 /\
  Manager.outerTeardownInitiated Samples.afterTeardownState = true.
Proof.
  split; [reflexivity|].
  apply (manager_no_start_after_teardown (Examples.templateOf true false)
           Examples.afterBurst Samples.afterTeardownState Samples.afterTeardown
           Samples.afterTeardownObs).
  reflexivity.
Defined.

Lemma manager_teardown_handler_once_witness :
  Manager.run (Examples.templateOf true false) Samples.life (Manager.initial 0) =
    Some (Samples.lifeState, Samples.lifeObs) /\
  ManagerInv.count ManagerInv.isHook Samples.lifeObs <= 1.
Proof.
  split; [reflexivity|].
  apply (manager_teardown_handler_once (Examples.templateOf true false) 0 Samples.life
           Samples.lifeState Samples.lifeObs).
  reflexivity.
Defined.

Lemma manager_first_event_once_witness :
  Manager.run (Examples.templateOf true false) Samples.life (Manager.initial 0) =
    Some (Samples.lifeState, Samples.lifeObs) /\
  ManagerInv.count ManagerInv.isFirstStart Samples.lifeObs <= 1 /\
  Forall (fun o => ManagerInv.isFirstStart o = true -> ManagerInv.startedId o = Some 0)
         Samples.lifeObs.
Proof.
  split; [reflexivity|].
  apply (manager_first_event_once (Examples.templateOf true false) 0 Samples.life
           Samples.lifeState Samples.lifeObs).
  reflexivity.
Defined.

Lemma manager_waiting_never_aborts_witness :
  Types.interruptible Examples.waiting = false /\
  forallb (fun a => negb (ManagerInv.isCallTeardown a) && negb (ManagerInv.isParentAborts a))
          Samples.waitingLife = true /\
  Manager.run Examples.waiting Samples.waitingLife (Manager.initial 0) =
    Some (Samples.waitingState, Samples.waitingObs) /\
  ManagerInv.count ManagerInv.isAbortCall Samples.waitingObs = 0.
Proof.
  split; [reflexivity|]. split; [reflexivity|]. split; [reflexivity|].
  apply (manager_waiting_never_aborts Examples.waiting (Manager.initial 0)
           Samples.waitingState Samples.waitingLife Samples.waitingObs);
    reflexivity.
Defined.

Lemma manager_teardown_aborts_active_witness :
  Manager.run (Examples.templateOf true false) [Manager.CallUpdateConfig 1]
    (Manager.initial 0) = Some (Samples.running, Samples.runningObs) /\
  Manager.outerTeardownInitiated Samples.running = false /\
  Manager.outerActiveTask Samples.running
    = Some {| Manager.id := 0; Manager.queued := false |} /\
  Manager.isAborted 0
    (Manager.teardown (Examples.templateOf true false) Samples.running).1 = true /\
  exists rest, (Manager.teardown (Examples.templateOf true false) Samples.running).2
               = Manager.ObsAbort 0 :: rest.
Proof.
  split; [reflexivity|]. split; [reflexivity|]. split; [reflexivity|].
  apply (manager_teardown_aborts_active (Examples.templateOf true false) 0
           [Manager.CallUpdateConfig 1] Samples.running Samples.runningObs
           {| Manager.id := 0; Manager.queued := false |});
    reflexivity.
Defined.

Lemma manager_queued_update_runs_after_drain_witness :
  Manager.run (Examples.templateOf true false) [Manager.CallUpdateConfig 1]
    (Manager.initial 0) = Some (Samples.running, Samples.runningObs) /\
  exists st',
    Manager.run (Examples.templateOf true false)
      [Manager.CallUpdateConfig 2; Manager.TaskSettles 0; Manager.UpdaterResumes 0]
      Samples.running =
      Some (st',
            [Manager.ObsAbort 0; Manager.ObsQueued 0; Manager.ObsAwait 0;
             Manager.ObsTask 0 1 2 (RunTask.EvLaunch 0 false false)]) /\
    Manager.outerActiveTask st' = Some {| Manager.id := 1; Manager.queued := false |} /\
    Manager.isSettled 0 st' = true.
Proof.
  split; [reflexivity|].
  apply (manager_queued_update_runs_after_drain (Examples.templateOf true false) 0
           [Manager.CallUpdateConfig 1] Samples.running Samples.runningObs
           {| Manager.id := 0; Manager.queued := false |} 2);
    try reflexivity.
  left. reflexivity.
Defined.

(** Data with a hole in the middle on a pool of three managers: the bound
    is 3, no manager lies beyond it, and manager 1 is removed. *)
Lemma trigger_exact_within_bound_witness :
  NoDup (Pool.mapKeys Samples.three) /\
  (forall k, Pool.mapHas k Samples.three = true ->
     k < Nat.max (length [Some 7; None; Some 9]) (Pool.mapSize Samples.three)) /\
  Pool.mapHas 1
    (Pool.trigger (Examples.templateOf true false) [Some 7; None; Some 9] Samples.three).1
    = false.
Proof.
  assert (H1 : NoDup (Pool.mapKeys Samples.three)).
  { apply (bool_decide_unpack _). vm_compute. exact I. }
  assert (H2 : forall k, Pool.mapHas k Samples.three = true ->
             k < Nat.max (length [Some 7; None; Some 9]) (Pool.mapSize Samples.three)).
  { intros k Hk. destruct k as [|[|[|k]]]; simpl; try lia. discriminate Hk. }
  split; [exact H1|]. split; [exact H2|].
  exact (trigger_exact_within_bound (Examples.templateOf true false)
           [Some 7; None; Some 9] Samples.three 1 H1 H2).
Defined.

(** Growing to three entries and shrinking to one. *)
Lemma triggers_without_holes_witness :
  forallb PoolInv.noHoles ([[Some 7; Some 8; Some 9]] ++ [[Some 7]]) = true /\
  Pool.mapHas 0
    (PoolInv.triggerAll (Examples.templateOf true false)
       ([[Some 7; Some 8; Some 9]] ++ [[Some 7]]) Pool.empty).1 = true /\
  Pool.mapHas 1
    (PoolInv.triggerAll (Examples.templateOf true false)
       ([[Some 7; Some 8; Some 9]] ++ [[Some 7]]) Pool.empty).1 = false.
Proof.
  split; [reflexivity|]. split.
  - exact (triggers_without_holes (Examples.templateOf true false)
             [[Some 7; Some 8; Some 9]] [Some 7] 0 eq_refl).
  - exact (triggers_without_holes (Examples.templateOf true false)
             [[Some 7; Some 8; Some 9]] [Some 7] 1 eq_refl).
Defined.

(** After the teardown of the pool of three, the same data launches
    nothing; an entry for a new slot would get a fresh manager and launch. *)
Lemma pool_quiet_after_teardown_witness :
  PoolTrace.builtByPool Samples.three /\
  NoDup (Pool.mapKeys Samples.three) /\
  (forall j, Pool.definedAt [Some 7; Some 8] j = true -> Pool.mapHas j Samples.three = true) /\
  Forall (fun o => PoolInv.isStartAt o = false)
    (Pool.trigger (Examples.templateOf true false) [Some 7; Some 8]
       (Pool.teardown (Examples.templateOf true false) Samples.three).1).2.
Proof.
  assert (H0 : PoolTrace.builtByPool Samples.three) by (repeat constructor).
  assert (H1 : NoDup (Pool.mapKeys Samples.three)).
  { apply (bool_decide_unpack _). vm_compute. exact I. }
  assert (H2 : forall j, Pool.definedAt [Some 7; Some 8] j = true ->
                         Pool.mapHas j Samples.three = true).
  { intros j Hj. destruct j as [|[|j]]; [reflexivity | reflexivity |].
    destruct j; discriminate Hj. }
  split; [exact H0|]. split; [exact H1|]. split; [exact H2|].
  apply (pool_quiet_after_teardown (Examples.templateOf true false) [Some 7; Some 8]
           Samples.three H0 H1 H2).
Defined.

Example pool_new_slot_after_teardown :
  PoolInv.isStartAt <$>
    (Pool.trigger (Examples.templateOf true false) [Some 7; Some 8; Some 9; Some 10]
       (Pool.teardown (Examples.templateOf true false) Samples.three).1).2 = [true].
Proof. reflexivity. Qed.

Lemma watch_template_validated_witness :
  Watch.template Samples.contradictory = None /\
  (Watch.persistent Samples.contradictory = Some true /\
   Watch.initialRun Samples.contradictory = Some false) /\
  exists t, Watch.template Samples.bare = Some t /\
    Types.initialRun t = true /\ Types.interruptible t = true /\
    Types.persistent t = false /\ Types.retries (Types.retry t) = inject_Z 3.
Proof.
  assert (H : Watch.persistent Samples.contradictory = Some true /\
              Watch.initialRun Samples.contradictory = Some false)
    by (split; reflexivity).
  split; [exact (proj2 (proj1 (watch_template_validated Samples.contradictory)) H)|].
  split; [exact H|].
  eexists. split; [reflexivity|].
  destruct (proj2 (watch_template_validated Samples.bare) _ eq_refl)
    as (_ & H1 & H2 & H3 & H4 & _).
  split; [exact H1|]. split; [exact H2|]. split; [exact H3 | exact (H4 eq_refl)].
Defined.

(** Changes, an error and a shutdown before [ready]. *)
Lemma watch_idle_before_ready_witness :
  forallb (fun e => negb (Watch.isReady e))
    [Watch.WatcherChange (Some [Some 1]); Watch.WatcherError; Watch.ShutdownCalled;
     Watch.WatcherChange (Some [Some 1])] = true /\
  Watch.managers
    (Watch.handleAll (Examples.templateOf true false)
       [Watch.WatcherChange (Some [Some 1]); Watch.WatcherError; Watch.ShutdownCalled;
        Watch.WatcherChange (Some [Some 1])] Watch.initial).1 = Pool.empty /\
  Watch.countObs Watch.isPoolObs
    (Watch.handleAll (Examples.templateOf true false)
       [Watch.WatcherChange (Some [Some 1]); Watch.WatcherError; Watch.ShutdownCalled;
        Watch.WatcherChange (Some [Some 1])] Watch.initial).2 = 0.
Proof.
  split; [reflexivity|].
  apply (watch_idle_before_ready (Examples.templateOf true false)
           [Watch.WatcherChange (Some [Some 1]); Watch.WatcherError; Watch.ShutdownCalled;
            Watch.WatcherChange (Some [Some 1])]).
  reflexivity.
Defined.

(** A change that arrives after the shutdown still reaches the pool: the
    manager of slot 0 is latched and stays quiet, slot 1 is new and is
    launched. *)
Example watch_change_after_shutdown :
  (Watch.handleAll (Examples.templateOf true false)
     [Watch.WatcherReady (Some [Some 1]); Watch.AbortSignalled; Watch.ShutdownCalled;
      Watch.WatcherChange (Some [Some 1; Some 2])] Watch.initial).2 =
    [Watch.PoolObs (Pool.AtSlot 0 (Manager.ObsTask 0 0 1 (RunTask.EvLaunch 0 true false)));
     Watch.Resolves; Watch.RootAbort; Watch.WatcherClose;
     Watch.PoolObs (Pool.AtSlot 0 Manager.ObsTeardownHook);
     Watch.PoolObs (Pool.AtSlot 1 (Manager.ObsTask 1 0 2 (RunTask.EvLaunch 0 true false)))].
Proof. reflexivity. Qed.

(** In [/w], [b] resolves to [b.js] although [b.ts] exists; [c] to nothing. *)
Lemma findEirenewatchScript_last_existing_witness :
  Samples.extname (Samples.resolve "b") = ""%string /\
  Samples.existsSync (String.append (Samples.resolve "b") ".js") = true /\
  Cli.findEirenewatchScript Samples.resolve Samples.extname Samples.existsSync "b"
    = Some "/w/b.js"%string /\
  Forall (fun c => Samples.existsSync c = false)
         (Cli.possiblePaths Samples.resolve Samples.extname "c") /\
  Cli.findEirenewatchScript Samples.resolve Samples.extname Samples.existsSync "c" = None.
Proof.
  assert (H : Forall (fun c => Samples.existsSync c = false)
                     (Cli.possiblePaths Samples.resolve Samples.extname "c"))
    by (repeat constructor).
  split; [reflexivity|]. split; [reflexivity|]. split.
  - exact (proj2 (proj2 (findEirenewatchScript_last_existing Samples.resolve Samples.extname
                           Samples.existsSync "b")) eq_refl eq_refl).
  - split; [exact H|].
    exact (proj2 (proj1 (findEirenewatchScript_last_existing Samples.resolve Samples.extname
                           Samples.existsSync "c")) H).
Defined.

Lemma main_missing_script_witness :
  "c"%string ∈ Cli.scriptPaths Samples.glob ["a.ts"; "c"]%string /\
  Cli.findEirenewatchScript Samples.resolve Samples.extname Samples.existsSync "c" = None /\
  Cli.main Samples.resolve Samples.extname Samples.existsSync Samples.glob Samples.load
    Samples.watchResolves ["a.ts"; "c"]%string =
    {| Cli.exitCode := Some 1; Cli.watched := []; Cli.rejected := false |}.
Proof.
  assert (H : "c"%string ∈ Cli.scriptPaths Samples.glob ["a.ts"; "c"]%string).
  { cbn. right. left. }
  split; [exact H|]. split; [reflexivity|].
  apply (main_missing_script Samples.resolve Samples.extname Samples.existsSync Samples.glob
           Samples.load Samples.watchResolves ["a.ts"; "c"]%string "c"%string H).
  reflexivity.
Defined.

(** The pattern [*] finds [a.ts] and [b]; the export of [b.js] has no
    [Watcher], so [a.ts] alone is watched and the exit code is 1. *)
Lemma main_watches_prefix_witness :
  Cli.resolveAll Samples.resolve Samples.extname Samples.existsSync
    (Cli.scriptPaths Samples.glob ["*"%string]) = Some ["/w/a.ts"; "/w/b.js"]%string /\
  Cli.watched
    (Cli.main Samples.resolve Samples.extname Samples.existsSync Samples.glob Samples.load
       Samples.watchResolves ["*"%string])
    `prefix_of` ["/w/a.ts"; "/w/b.js"]%string /\
  Forall (fun path => Cli.hasWatcher (Samples.load path) = true)
    (Cli.watched
       (Cli.main Samples.resolve Samples.extname Samples.existsSync Samples.glob
          Samples.load Samples.watchResolves ["*"%string])).
Proof.
  split; [reflexivity|].
  pose proof (main_watches_prefix Samples.resolve Samples.extname Samples.existsSync
                Samples.glob Samples.load Samples.watchResolves ["*"%string]
                ["/w/a.ts"; "/w/b.js"]%string eq_refl) as (H1 & H2 & _).
  split; [exact H1 | exact H2].
Defined.
